(* ===== verification/_CoqProject ===== *)
-Q . S2P
Prelude.v
Random.v
Shuffle.v
Question.v
JsString.v
JsText.v
JsMap.v
Presentation.v
Math.v
ExamConfig.v
PartBuilder.v
Scorer.v
State.v
Simulation.v
Categories.v
Lernmodus.v
App.v
View.v
Scenario.v
Invariant.v
Safety.v
Typed.v
Page.v
Practice.v
Exam.v
Completion.v
Timer.v
Spec.v
Refinement.v
