(* ===== verification/Prelude.v ===== *)
(** * afu_pruefung: a verification development for [src/src/App.tsx]

    The program is a single React component, [App], that trains candidates
    for the German amateur-radio licence examination.  It fetches a
    catalogue of multiple-choice questions, and offers a practice mode
    (Lernmodus) and a timed examination simulation in several parts.  This
    library models the component as a shallow embedding: every [useState]
    variable is a field of a record, every handler is a function on that
    record, the page's events are the steps of a transition system, and the
    theorems are about those definitions.

    ** The program's parts and the files that model them

    - The catalogue (interfaces [Question], [Section], [ShuffledQuestion],
      the function [extract] inside the fetch effect): file [Question].
    - The shuffler ([shuffleArray], [shuffleAnswers]): files [Random]
      ([Math.random] as a state monad [Rand] over a tape of rationals, with
      its notation in [rand_scope]), [Shuffle] ([shuffleArray] over the
      type class [ArraySort], the interface of the engine's
      [Array.prototype.sort], and an insertion sort as its instance) and
      [Question] ([shuffleAnswers], [findCorrect]).
    - The exam scheme registry ([examConfig]): file [ExamConfig], a
      transcription of the object literal; [JsString] has the built-ins
      [includes] its predicates call.
    - The engine's text and collection built-ins the page needs ([join],
      [split], [padStart], [toLowerCase], [Map], [Set]): files [JsText]
      and [JsMap].
    - The components [Card] and [Button]: file [Presentation], with a
      style object as the list of its entries and the object spread that
      merges two of them.
    - The part builder (the [parts.map] callback of [startSimulation]):
      file [PartBuilder]; the [while] loop is [padLoop], defined by
      well-founded recursion on [count - sel.length], and one pass of it
      is the step relation [padStep].
    - The scorer (the expressions [passed] and the percentage of the result
      view): file [Scorer], over JavaScript numbers [Number] with [NaN] and
      [Infinity].
    - The state: file [State] has [Vars], the [useState] variables with one
      setter each, and [State], which adds what lives outside React's
      state: the interval in [timerRef] together with the closure it holds,
      the random tape, and whether the fetch has resolved.
    - The handlers of the simulation ([enterSetup], [startSimulation],
      [handleResolve], [handleNext], [handleContinue], the interval's
      callback [tick] and the effect [runEffect] that arms and clears it):
      file [Simulation].  A handler takes the render [r] whose variables it
      closed over and the current state; [None] is a thrown [TypeError].
    - The practice mode ([filteredQuestions], [handleAnswerCheck] and the
      inline handlers of its card): file [Lernmodus]; the options of its
      selectors ([getIndentedCategories]): file [Categories].
    - The page: file [App] has the events ([Event]), the conditions under
      which the JSX renders each control ([enabled]), the wiring of
      controls to handlers ([handle]), one render cycle ([dispatch]: the
      handler, then the effect), the step relation [step], the reachable
      states and [run], which executes a list of events.
    - [renderMath]: file [Math], the two replacements as a scan of the
      text, katex behind the class [Katex].
    - The JSX the component returns: file [View] has the page as a
      value ([View]: the cards, their texts as [renderMath] makes them,
      their numbers, the colour and style of every answer button and the
      event of every control) and [render], which is [None] when
      rendering reads a property of [undefined].
    - [Scenario] is a catalogue of six questions and the states the
      component goes through on it; the other files take their concrete
      instances from it.
    - [Spec] is the simulation state machine of the specification
      (phases, parts, results, selection, timer) as a step function; it
      is written from the specification, not from the program.
    - [Invariant], [Safety], [Typed], [Page], [Practice], [Exam],
      [Completion], [Timer] and [Refinement] hold no code of the program:
      they are the theory of the transition system.

    ** What is proved

    - [Shuffle]: [shuffleArray] returns a permutation for every sort that
      implements [ArraySort]; under the insertion sort every order is
      reachable, a shuffle of [n] elements draws at most [n(n-1)/2]
      numbers, and the 64 coin sequences that decide a shuffle of four
      elements give the identity 8 times and the reversal once.
    - [Question]: [extract] keeps every question and gives it a non-empty
      path; a shuffled question has the four ids once each and exactly one
      correct option, which is the one with id A; the loaded catalogue is
      the questions the tree holds ([located]), in document order, each
      under the titles of the sections above it.
    - [ExamConfig]: the registry equals its reference description (three
      cumulative schemes, three upgrades), every part asks 25 questions.
    - [PartBuilder]: a part is the shuffled pool repeated cyclically up to
      [count]; it has [count] questions, or none when nothing matches;
      every question matches the part's predicate and is in the catalogue;
      the padding loop terminates, after [count - sel.length] passes for
      a pool that is not empty.
    - [JsText]: [split] and [join] at the separator of category labels
      are inverse to each other, for every text in one direction and for
      titles without [>] in the other.
    - [Presentation]: which value a key has after a spread, and that a
      spread declares no key twice.
    - [Scorer]: [passed] is the 75 percent rule on a complete part, 19 of
      25 for every configured part; the percentage rounds half up and is
      [NaN] for an empty part.
    - [Invariant]: the invariant [Inv] of the reachable states, with one
      clause per concern, and its preservation by every event.
    - [Safety]: in a reachable state no offered event makes its handler
      throw; and the states in which a handler does throw, handler by
      handler.
    - [Typed]: in a reachable state every question has the four options
      of its base question once each, and every selection is one of the
      ids A to D.
    - [Categories]: every option of the category selector is a section
      of the catalogue, every section has its option, and the option's
      value is the section's title when no title contains [>].
    - [Math]: a formula between dollars on a line is replaced by katex's
      rendering; the second replacement, for display mode, never finds a
      match.
    - [Page]: in a reachable state rendering does not throw; the controls
      on the page are exactly the events [enabled] allows; a resolved
      question shows the right answer in green and a wrong selection in
      red, before that the colours tell nothing but the selection, and
      the verdict below the buttons is right for the option of slot a;
      the clock holds an hour at most and shows two digits each for
      minutes and seconds; the result lists every part with its
      percentage, [NaN] for a part without questions; the settings card
      shows a verdict for a part once its 25 results are recorded,
      passed with 19 right ones, and is not shown beside the result; the background of
      an answer button is its colour and its cursor tells whether it is
      enabled.
    - [Practice]: choosing a category filters the catalogue to the
      questions filed under it, and every value the selector offers
      selects some question; an answer button of the practice card
      records the answer and the page then tells whether it was right;
      the button for the next question goes round the filtered list.
    - [Exam]: the state after each transition of an examination (start,
      resolve, go on, continue), the interval included: resolving records
      whether the selected option is the one of slot a.
    - [Completion]: the candidate who answers every question, with any
      options, reaches the result, with one result per question; a part
      is passed with 19 right results of 25, and the result view shows
      the number of right results and four times it as the percentage.
    - [Timer]: the countdown, and what the interval does when the time is
      up: it calls the [handleNext] of the part's first render, so it
      skips to the next question index whatever question is shown, and it
      does so again every second; the exam ends up in a state that shows
      no question and from which neither summary nor result is reachable.
      A part without questions can only be waited out.
    - [Refinement]: with the abstraction that forgets what the variables
      hold outside a simulation, every step of the program from a
      reachable state is the specification's step for the action the
      event stands for, except the tick of the interval at expiry, which
      is proved not to be one in a part of two questions or more.

    ** Bounds and idealisations

    - [Math.random] is a finite tape of rationals; an exhausted tape yields
      0.  The theorems hold for every tape; [Shuffle.shuffleArray_draws]
      bounds what a shuffle consumes, so six coins decide a shuffle of
      four elements.
    - The engine's sort is known only through [ArraySort] (the result is a
      permutation of the input); what depends on the algorithm is proved
      for the insertion sort and says so.
    - Numbers are exact rationals.  The scorer divides natural numbers
      below 2^53 and compares with 0.75, which is a double; for the
      configured count of 25 the quotients are at least 1/100 apart from
      the threshold, so rounding does not change a verdict.
    - [padLoop] needs no fuel: it is total by its measure; that the loop
      it stands for ends is [PartBuilder.padLoop_terminates].
    - The practice index is a natural number: the remainder by the length
      of an empty list, [NaN] in the engine, is the dividend here.  The
      page does not render the button that computes it then.
    - The clock is bounded by 3600 seconds, the longest part of the
      registry; the bound is an invariant ([Page.reachable_timeLeft]),
      not an assumption.
    - A state variable is read from the render a handler closed over; a
      functional update reads the current state.  React's batching is the
      composition of the setters of one handler.

    ** Not modelled

    - The katex library: the source only calls it, and the theorems hold
      for every implementation of [Katex].
    - The inline styles of the elements other than the answer buttons,
      and the layout: no state variable enters them.
    - The JSON parser and the DOM.
    - Strings are strings of bytes: [toLowerCase] is the one of ASCII.
    - The network: the fetch is the event [Fetched] that delivers the
      parsed catalogue; a fetch that fails is the absence of the event.

    ** Conventions

    - A JavaScript array is a [list]; [a[i]] is stdpp's [a !! i], whose
      [None] stands for [undefined].
    - Names are the source's names wherever Rocq allows them:
      [Section_], [filter_] and [eq_question] avoid clashes.
    - This file has the shared tactics, the hint databases [afu] and
      [afu_rw], and lemmas on lists and options several components use. *)

From stdpp Require Export base tactics option list strings.

(** [naive_solver] clears hypotheses that are already gone. *)
#[export] Set Warnings "-clear-no-such-hyp".

(** ** Hint databases *)

Create HintDb afu discriminated.
Create Rewrite HintDb afu_rw.

(** ** Tactics *)

(** [case_bool_decide_all] splits on every [bool_decide] of the goal. *)
Ltac case_bool_decide_all := repeat case_bool_decide; simplify_eq/=.

(** [destruct_match] splits on the scrutinee of the first [match] or [if]
    of the goal, keeping the equation. *)
Ltac destruct_match :=
  match goal with
  | |- context [match ?x with _ => _ end] => destruct x eqn:?
  end.

(** [afu_simpl] normalises with the rewrite database and simplifies. *)
Ltac afu_simpl := repeat (autorewrite with afu_rw in *; simplify_eq/=).

(** ** JavaScript truthiness of a nullable string

    [!s] for [s : string | null] is true for [null] and for the empty
    string. *)

Definition falsy (s : option string) : bool :=
  match s with
  | None => true
  | Some s => bool_decide (s = "")
  end.

Lemma falsy_Some_nonempty (s : string) : s ≠ "" → falsy (Some s) = false.
Proof. intros. unfold falsy. by rewrite bool_decide_eq_false. Qed.

Lemma falsy_false (o : option string) :
  falsy o = false ↔ ∃ s, o = Some s ∧ s ≠ "".
Proof.
  destruct o as [s|]; simpl.
  - rewrite bool_decide_eq_false. split; [eauto|]. by intros (? & [= <-] & ?).
  - split; [done|]. by intros (? & ? & _).
Qed.

(** ** Options *)

Lemma mbind_Some {A B} (f : A → option B) (x : A) : Some x ≫= f = f x.
Proof. done. Qed.

(** ** Lists that agree under a map *)

Lemma fmap_via {A B C D} (f : A → C) (g : B → C) (h : C → D)
    (l : list A) (k : list B) :
  f <$> l = g <$> k → (λ x, h (f x)) <$> l = (λ y, h (g y)) <$> k.
Proof.
  intros E. change ((h ∘ f) <$> l = (h ∘ g) <$> k).
  by rewrite !list_fmap_compose, E.
Qed.

(** ** Arrays updated at an index *)

(** Replacing the element at [i] by a function of it is [alter]. *)
Lemma list_alter_insert {A} (f : A → A) (l : list A) (i : nat) (x : A) :
  l !! i = Some x → <[i := f x]> l = alter f i l.
Proof.
  intros Hx. rewrite list_insert_alter. apply list_alter_ext; [|done].
  intros y Hy. congruence.
Qed.

(** ** Cyclic indexing *)

Section cyclic.
Context {A : Type}.
Implicit Types (l : list A) (i n : nat).

Lemma lookup_mod_is_Some l i : l ≠ [] → is_Some (l !! (i `mod` length l)).
Proof.
  intros Hl. apply lookup_lt_is_Some, Nat.mod_upper_bound.
  by destruct l.
Qed.

Lemma length_zero_iff_nil' l : length l = 0 ↔ l = [].
Proof. by destruct l. Qed.

Lemma length_pos_ne_nil l : 0 < length l ↔ l ≠ [].
Proof. destruct l; simpl; split; (done || lia). Qed.
End cyclic.

#[export] Hint Resolve lookup_mod_is_Some : afu.
