(* ===== verification/Random.v ===== *)
(** * Random: [Math.random] as a state monad

    [Math.random()] returns the next number of a stream in [[0, 1)].  The
    generator is the tape of numbers it is going to return, a [list Q]; an
    exhausted tape returns [0] for ever.  A computation that draws numbers
    is a function from the generator to a result and the remaining tape.
    Any run of a terminating computation reads a finite prefix of the
    stream, so a theorem over every tape covers every run.  [shuffleArray],
    [shuffleAnswers] and [startSimulation] are written in this monad. *)

From Stdlib Require Import QArith.
From S2P Require Import Prelude.

Close Scope Q_scope.

Definition Rng : Type := list Q.

Definition Rand (A : Type) : Type := Rng → A * Rng.

Definition ret {A} (a : A) : Rand A := λ g, (a, g).

Definition bind {A B} (m : Rand A) (k : A → Rand B) : Rand B :=
  λ g, let (a, g') := m g in k a g'.

Declare Scope rand_scope.
Delimit Scope rand_scope with rand.
Notation "x <~ m ;; k" := (bind m (λ x, k))
  (at level 100, m at next level, right associativity) : rand_scope.
#[local] Open Scope rand_scope.

(** [Math.random()] *)
Definition Math_random : Rand Q :=
  λ g, match g with
       | [] => (0%Q, [])
       | r :: g' => (r, g')
       end.

(** [xs.map(f)] for an [f] that draws random numbers, left to right. *)
Fixpoint mapR {A B} (f : A → Rand B) (xs : list A) : Rand (list B) :=
  match xs with
  | [] => ret []
  | x :: xs => y <~ f x;; ys <~ mapR f xs;; ret (y :: ys)
  end.

(** The number of draws a run makes: the tape gets shorter by that much. *)
Definition draws {A} (m : Rand A) (g : Rng) : nat := length g - length (m g).2.

(** ** Monad laws and [mapR] *)

Section laws.
Context {A B C : Type}.

Lemma bind_ret_l (a : A) (k : A → Rand B) g : bind (ret a) k g = k a g.
Proof. done. Qed.

Lemma bind_ret_r (m : Rand A) g : bind m ret g = m g.
Proof. unfold bind, ret. by destruct (m g). Qed.

Lemma bind_assoc (m : Rand A) (k : A → Rand B) (h : B → Rand C) g :
  bind (bind m k) h g = bind m (λ a, bind (k a) h) g.
Proof. unfold bind. by destruct (m g). Qed.

Lemma bind_run (m : Rand A) (k : A → Rand B) g :
  bind m k g = k (m g).1 (m g).2.
Proof. unfold bind. by destruct (m g). Qed.
End laws.

Section mapR.
Context {A B : Type}.
Implicit Types (f : A → Rand B) (xs : list A) (g : Rng).

Lemma mapR_cons f x xs g :
  mapR f (x :: xs) g =
    ((f x g).1 :: (mapR f xs (f x g).2).1, (mapR f xs (f x g).2).2).
Proof.
  simpl. rewrite bind_run, bind_run. done.
Qed.

Lemma length_mapR f xs g : length (mapR f xs g).1 = length xs.
Proof.
  revert g. induction xs as [|x xs IH]; intros g; [done|].
  rewrite mapR_cons. simpl. by rewrite IH.
Qed.

(** Every element of the result is [f] applied to the element at the same
    index, at some generator. *)
Lemma mapR_lookup f xs g i y :
  (mapR f xs g).1 !! i = Some y → ∃ x g', xs !! i = Some x ∧ y = (f x g').1.
Proof.
  revert g i. induction xs as [|x xs IH]; intros g i; [done|].
  rewrite mapR_cons. destruct i as [|i]; simpl.
  - intros [= <-]. eauto.
  - apply IH.
Qed.

Lemma mapR_Forall (P : B → Prop) f xs g :
  (∀ x g', x ∈ xs → P (f x g').1) → Forall P (mapR f xs g).1.
Proof.
  intros Hf. apply Forall_lookup. intros i y Hy.
  apply mapR_lookup in Hy as (x & g' & Hx & ->).
  apply Hf. by eapply list_elem_of_lookup_2.
Qed.

(** What does not depend on the generator is mapped as by a plain
    [map]. *)
Lemma mapR_fmap {C} (h : B → C) (k : A → C) f xs g :
  (∀ x g', h (f x g').1 = k x) → h <$> (mapR f xs g).1 = k <$> xs.
Proof.
  intros Hf. revert g. induction xs as [|x xs IH]; intros g; [done|].
  rewrite mapR_cons. simpl. by rewrite Hf, IH.
Qed.

(** A deterministic [f] makes [mapR] a plain [map]. *)
Lemma mapR_ret (h : A → B) xs g : mapR (λ x, ret (h x)) xs g = (h <$> xs, g).
Proof.
  induction xs as [|x xs IH]; [done|].
  rewrite mapR_cons. simpl. by rewrite IH.
Qed.
End mapR.

#[export] Hint Rewrite @length_mapR : afu_rw.
