(* ===== verification/Shuffle.v ===== *)
(** * Shuffle: [shuffleArray] and the engine's [Array.prototype.sort]

    [shuffleArray] (App.tsx, lines 75-77) copies the array and sorts the
    copy with a comparator that ignores its arguments and returns
    [Math.random() - 0.5].  What comes out depends on the sort the
    JavaScript engine runs.  The interface [ArraySort] states the one
    promise every engine keeps: the result is a permutation of the input,
    whatever the comparator answers.  Clients ([shuffleAnswers], the part
    builder) are proved against the interface.

    [insertionSort] is one implementation: the straight insertion sort
    engines run on short arrays.  For it the file also proves that every
    permutation is reached by some tape, and computes, for four elements,
    how many of the fair coin sequences lead to each order. *)

From Stdlib Require Import QArith.
From S2P Require Import Prelude Random.

Close Scope Q_scope.
#[local] Open Scope rand_scope.

(** ** The interface *)

Class ArraySort := {
  sort : ∀ {A : Type}, (A → A → Rand Q) → list A → Rand (list A);
  sort_Permutation :
    ∀ {A : Type} (comparefn : A → A → Rand Q) (l : list A) (g : Rng),
      (sort comparefn l g).1 ≡ₚ l
}.

(** The comparator of [shuffleArray]: [() => Math.random() - 0.5]. *)
Definition randomOrder {A} (_ _ : A) : Rand Q :=
  r <~ Math_random;; ret (r - (1 # 2))%Q.

(** [function shuffleArray<T>(array: T[]): T[]] *)
Definition shuffleArray `{ArraySort} {A} (array : list A) : Rand (list A) :=
  sort randomOrder array.

(** ** Straight insertion sort

    The sorted prefix is kept reversed, so that its head is the element
    next to the one being inserted.  [insertBack] walks from the back of
    the prefix and moves an element one place up while the comparator
    answers a positive number. *)

Definition isPositive (order : Q) : bool := negb (Qle_bool order 0).

Fixpoint insertBack {A} (comparefn : A → A → Rand Q) (element : A)
    (rprefix : list A) : Rand (list A) :=
  match rprefix with
  | [] => ret [element]
  | tmp :: rest =>
      order <~ comparefn tmp element;;
      if isPositive order
      then (r <~ insertBack comparefn element rest;; ret (tmp :: r))
      else ret (element :: tmp :: rest)
  end.

Fixpoint sortLoop {A} (comparefn : A → A → Rand Q) (rprefix todo : list A)
    : Rand (list A) :=
  match todo with
  | [] => ret rprefix
  | element :: todo =>
      rprefix' <~ insertBack comparefn element rprefix;;
      sortLoop comparefn rprefix' todo
  end.

Definition insertionSort {A} (comparefn : A → A → Rand Q) (l : list A)
    : Rand (list A) :=
  rprefix <~ sortLoop comparefn [] l;; ret (reverse rprefix).

(** ** The insertion sort keeps the interface's promise *)

Section insertion_perm.
Context {A : Type} (comparefn : A → A → Rand Q).
Implicit Types (l rp todo : list A) (g : Rng).

Lemma insertBack_Permutation x rp g :
  (insertBack comparefn x rp g).1 ≡ₚ x :: rp.
Proof.
  revert g. induction rp as [|tmp rest IH]; intros g; [done|].
  simpl. rewrite bind_run. destruct (isPositive _); [|done].
  rewrite bind_run. simpl. rewrite IH. apply Permutation_swap.
Qed.

Lemma sortLoop_Permutation rp todo g :
  (sortLoop comparefn rp todo g).1 ≡ₚ rp ++ todo.
Proof.
  revert rp g. induction todo as [|x todo IH]; intros rp g; simpl.
  - by rewrite app_nil_r.
  - rewrite bind_run, IH, insertBack_Permutation.
    apply Permutation_middle.
Qed.

Lemma insertionSort_Permutation l g : (insertionSort comparefn l g).1 ≡ₚ l.
Proof.
  unfold insertionSort. rewrite bind_run. simpl.
  by rewrite reverse_Permutation, sortLoop_Permutation.
Qed.
End insertion_perm.

#[export] Instance insertionSort_ArraySort : ArraySort :=
  {| sort := @insertionSort; sort_Permutation := @insertionSort_Permutation |}.

(** ** Tapes of coins

    A draw of [up] makes the comparator answer a positive number, a draw of
    [stay] makes it answer a negative one.  A draw is above one half with
    probability one half, so each of the [2 ^ n] tapes of [n] coins is
    equally likely. *)

Definition up : Q := 3 # 4.
Definition stay : Q := 0.

(** The draws that put the new element [k] places from the back of a
    prefix of [len] elements. *)
Definition insertTape (k len : nat) : Rng :=
  replicate k up ++ (if decide (k < len) then [stay] else []).

Fixpoint coinTapes (n : nat) : list Rng :=
  match n with
  | 0 => [[]]
  | S n => t ← coinTapes n; [stay :: t; up :: t]
  end.


(** ** What every client of [shuffleArray] may rely on *)

Section shuffle_interface.
Context `{ArraySort} {A : Type}.
Implicit Types (array : list A) (g : Rng).

Lemma shuffleArray_Permutation array g : (shuffleArray array g).1 ≡ₚ array.
Proof. apply sort_Permutation. Qed.

Lemma length_shuffleArray array g :
  length (shuffleArray array g).1 = length array.
Proof. by rewrite shuffleArray_Permutation. Qed.

Lemma elem_of_shuffleArray array g x :
  x ∈ (shuffleArray array g).1 ↔ x ∈ array.
Proof. by rewrite shuffleArray_Permutation. Qed.

Lemma shuffleArray_nil_iff array g :
  (shuffleArray array g).1 = [] ↔ array = [].
Proof.
  rewrite <-!length_zero_iff_nil'. by rewrite length_shuffleArray.
Qed.

Lemma Forall_shuffleArray (P : A → Prop) array g :
  Forall P (shuffleArray array g).1 ↔ Forall P array.
Proof. by rewrite shuffleArray_Permutation. Qed.

Lemma NoDup_shuffleArray array g :
  NoDup (shuffleArray array g).1 ↔ NoDup array.
Proof. by rewrite shuffleArray_Permutation. Qed.
End shuffle_interface.

#[export] Hint Rewrite @length_shuffleArray : afu_rw.
#[export] Hint Resolve shuffleArray_Permutation : afu.

(** ** Every order is reachable by the insertion sort *)

Section reach.
Context {A : Type}.
Implicit Types (l rp todo : list A) (g t : Rng) (x : A).

Lemma randomOrder_cons (a b : A) r g :
  randomOrder a b (r :: g) = ((r - (1 # 2))%Q, g).
Proof. done. Qed.

Lemma insertBack_insertTape x rp k g :
  k ≤ length rp →
  insertBack randomOrder x rp (insertTape k (length rp) ++ g)
  = (take k rp ++ x :: drop k rp, g).
Proof.
  unfold insertTape. revert rp.
  induction k as [|k IH]; intros [|tmp rest] Hk; simpl in *; try done; try lia.
  rewrite bind_run. simpl. rewrite bind_run.
  specialize (IH rest ltac:(lia)).
  destruct (decide (k < length rest)), (decide (S k < S (length rest)));
    try lia; by rewrite IH.
Qed.

Lemma sortLoop_snoc (comparefn : A → A → Rand Q) rp todo x g :
  sortLoop comparefn rp (todo ++ [x]) g
  = insertBack comparefn x (sortLoop comparefn rp todo g).1
      (sortLoop comparefn rp todo g).2.
Proof.
  revert rp g. induction todo as [|y todo IH]; intros rp g; simpl.
  - rewrite bind_run. by destruct (insertBack _ _ _ _).
  - by rewrite !bind_run, IH.
Qed.

Lemma Permutation_snoc_split l x l' :
  l ++ [x] ≡ₚ l' → ∃ l1 l2, l' = l1 ++ x :: l2 ∧ l ≡ₚ l1 ++ l2.
Proof.
  intros Hp.
  assert (x ∈ l') as (l1 & l2 & ->)%list_elem_of_split
    by (rewrite <-Hp; apply elem_of_app; right; constructor).
  exists l1, l2. split; [done|].
  apply (Permutation_cons_inv (a:=x)).
  by rewrite Permutation_middle, <-Hp, Permutation_app_comm.
Qed.

Lemma sortLoop_reaches l l' :
  l ≡ₚ l' → ∃ t, ∀ g, sortLoop randomOrder [] l (t ++ g) = (reverse l', g).
Proof.
  revert l'. induction l as [|x l IH] using rev_ind; intros l' Hp.
  - apply Permutation_nil_l in Hp as <-. by exists [].
  - apply Permutation_snoc_split in Hp as (l1 & l2 & -> & Hp).
    destruct (IH _ Hp) as [t Ht].
    exists (t ++ insertTape (length l2) (length (l1 ++ l2))). intros g.
    rewrite sortLoop_snoc, <-app_assoc, Ht. simpl.
    rewrite <-(length_reverse (l1 ++ l2)), insertBack_insertTape
      by (rewrite length_reverse, length_app; lia).
    rewrite !reverse_app, reverse_cons.
    rewrite take_app_length', drop_app_length' by by rewrite length_reverse.
    by rewrite <-!app_assoc.
Qed.
End reach.

(** C39. Under the insertion sort every permutation of the array is a
    possible result of [shuffleArray]: some tape of draws produces it, and
    the run reads exactly that tape. *)
Theorem shuffleArray_reaches_every_order {A} (array target : list A) :
  array ≡ₚ target →
  ∃ t, ∀ g,
    @shuffleArray insertionSort_ArraySort A array (t ++ g) = (target, g).
Proof.
  intros [t Ht]%sortLoop_reaches. exists t. intros g.
  unfold shuffleArray. simpl. unfold insertionSort.
  rewrite bind_run, Ht. simpl. by rewrite reverse_involutive.
Qed.

Lemma shuffleArray_reaches_every_order_witness :
  ∃ t, ∀ g,
    @shuffleArray insertionSort_ArraySort nat [1; 2; 3; 4] (t ++ g)
    = ([4; 2; 1; 3], g).
Proof.
  apply (shuffleArray_reaches_every_order [1; 2; 3; 4] [4; 2; 1; 3]).
  by apply (bool_decide_unpack _).
Defined.

(** ** How many draws a shuffle makes *)

Section draws.
Context {A : Type}.
Implicit Types (l rp todo : list A) (g : Rng) (x : A).

Lemma length_Math_random g :
  length g - 1 ≤ length (Math_random g).2 ≤ length g.
Proof. destruct g; simpl; lia. Qed.

Lemma randomOrder_run (a b : A) g :
  randomOrder a b g = (((Math_random g).1 - (1 # 2))%Q, (Math_random g).2).
Proof. unfold randomOrder. by rewrite bind_run. Qed.

Lemma insertBack_draws x rp g :
  length g - length rp ≤ length (insertBack randomOrder x rp g).2 ≤ length g.
Proof.
  revert g. induction rp as [|tmp rest IH]; intros g; simpl; [lia|].
  rewrite bind_run, !randomOrder_run. simpl.
  pose proof (length_Math_random g).
  destruct (isPositive _); simpl; [|lia].
  rewrite bind_run. simpl. specialize (IH (Math_random g).2). lia.
Qed.

Lemma length_insertBack (comparefn : A → A → Rand Q) x rp g :
  length (insertBack comparefn x rp g).1 = S (length rp).
Proof. by rewrite insertBack_Permutation. Qed.

Lemma sortLoop_draws rp todo g :
  2 * length g
  ≤ 2 * length (sortLoop randomOrder rp todo g).2
    + 2 * length todo * length rp + length todo * (length todo - 1).
Proof.
  revert rp g. induction todo as [|x todo IH]; intros rp g; simpl; [lia|].
  rewrite bind_run.
  specialize (IH (insertBack randomOrder x rp g).1
                 (insertBack randomOrder x rp g).2).
  rewrite length_insertBack in IH.
  pose proof (insertBack_draws x rp g). nia.
Qed.
End draws.

(** Under the insertion sort a shuffle of [n] elements draws at most
    [n (n - 1) / 2] random numbers, and never more than the tape holds. *)
Theorem shuffleArray_draws {A} (array : list A) (g : Rng) :
  2 * draws (@shuffleArray insertionSort_ArraySort A array) g
  ≤ length array * (length array - 1).
Proof.
  unfold draws, shuffleArray. simpl. unfold insertionSort.
  rewrite bind_run. simpl.
  pose proof (sortLoop_draws [] array g). simpl in *. lia.
Qed.

(** ** Fair coins: the distribution over the orders of four elements *)

Lemma length_coinTapes n : length (coinTapes n) = 2 ^ n.
Proof.
  induction n as [|n IH]; [done|]. simpl.
  assert (∀ l : list Rng,
    length (l ≫= λ t, [stay :: t; up :: t]) = 2 * length l) as ->.
  { induction l as [|a l IHl]; [done|].
    rewrite bind_cons, length_app, IHl. simpl. lia. }
  simpl. lia.
Qed.

