(* ===== verification/Question.v ===== *)
(** * Question: the catalogue's data, [extract] and [shuffleAnswers]

    The interfaces of App.tsx (lines 4-40) as records, the flattening of the
    catalogue tree into questions that carry their category path ([extract],
    lines 138-146), and [shuffleAnswers] (lines 79-89), which turns the four
    answers of a question into options in a random order.  Slot [a] of the
    catalogue is the correct answer; an option keeps the letter of its slot
    as its [id], whatever place it is shown at. *)

From S2P Require Import Prelude Random Shuffle.

#[local] Open Scope rand_scope.

Set Warnings "-register-all".

(** ** Data *)

(** [interface Question]; a field marked [?] is an [option]. *)
Record Question := {
  number : string;
  class : string;
  question : string;
  answer_a : string;
  answer_b : string;
  answer_c : string;
  answer_d : string;
  picture_question : option string;
  picture_a : option string;
  picture_b : option string;
  picture_c : option string;
  picture_d : option string;
}.

(** [interface Section]: a node of the catalogue tree. *)
Inductive Section_ : Type :=
  mkSection (title : string) (questions : option (list Question))
            (sections : option (list Section_)).

Definition title (sec : Section_) : string :=
  let 'mkSection t _ _ := sec in t.
Definition sec_questions (sec : Section_) : option (list Question) :=
  let 'mkSection _ qs _ := sec in qs.
Definition sec_sections (sec : Section_) : option (list Section_) :=
  let 'mkSection _ _ ss := sec in ss.

(** [Question & {categoryPath: string[]}], the element type of [extract]. *)
Record CategorizedQuestion := {
  cq_base :> Question;
  cq_categoryPath : list string;
}.

(** An element of [ShuffledQuestion.answers]. *)
Record AnswerOption := {
  id : string;
  text : string;
  isCorrect : bool;
}.

(** [interface ShuffledQuestion].  At run time the object is the spread of
    the categorized question plus [answers]. *)
Record ShuffledQuestion := {
  base :> Question;
  categoryPath : list string;
  answers : list AnswerOption;
}.

#[export] Instance AnswerOption_eq_dec : EqDecision AnswerOption.
Proof. solve_decision. Defined.
#[export] Instance Question_eq_dec : EqDecision Question.
Proof. solve_decision. Defined.
#[export] Instance CategorizedQuestion_eq_dec : EqDecision CategorizedQuestion.
Proof. solve_decision. Defined.
#[export] Instance ShuffledQuestion_eq_dec : EqDecision ShuffledQuestion.
Proof. solve_decision. Defined.

(** ** [extract] *)

(** The body of [secs.forEach((sec) => ...)] for one section. *)
Fixpoint extractSection (path : list string) (sec : Section_)
    : list CategorizedQuestion :=
  let 'mkSection t qs ss := sec in
  let p := path ++ [t] in
  (match qs with
   | Some qs => (λ q, {| cq_base := q; cq_categoryPath := p |}) <$> qs
   | None => []
   end)
  ++
  (match ss with
   | Some ss =>
       (fix extract_list (secs : list Section_) : list CategorizedQuestion :=
          match secs with
          | [] => []
          | sec :: secs => extractSection p sec ++ extract_list secs
          end) ss
   | None => []
   end).

(** [function extract(secs: Section[], path: string[] = [])] *)
Definition extract (secs : list Section_) (path : list string)
    : list CategorizedQuestion :=
  secs ≫= extractSection path.

(** Reference: where a question is in the catalogue.  The question [q]
    is listed in the section or below it, and [path] has the titles from
    the section down to the one that lists it. *)
Inductive located : Section_ → list string → Question → Prop :=
  | located_here t qs ss q :
      q ∈ qs → located (mkSection t (Some qs) ss) [t] q
  | located_below t qs ss sec path q :
      sec ∈ ss → located sec path q →
      located (mkSection t qs (Some ss)) (t :: path) q.

(** The number of questions in a section and below it. *)
Fixpoint countQuestions (sec : Section_) : nat :=
  let 'mkSection _ qs ss := sec in
  (match qs with Some qs => length qs | None => 0 end)
  +
  (match ss with
   | Some ss =>
       (fix count_list (secs : list Section_) : nat :=
          match secs with
          | [] => 0
          | sec :: secs => countQuestions sec + count_list secs
          end) ss
   | None => 0
   end).

(** ** [shuffleAnswers] *)

(** [const options = [...]] *)
Definition options (q : Question) : list AnswerOption :=
  [ {| id := "A"; text := answer_a q; isCorrect := true |};
    {| id := "B"; text := answer_b q; isCorrect := false |};
    {| id := "C"; text := answer_c q; isCorrect := false |};
    {| id := "D"; text := answer_d q; isCorrect := false |} ].

(** [function shuffleAnswers(q): ShuffledQuestion] *)
Definition shuffleAnswers `{ArraySort} (q : CategorizedQuestion)
    : Rand ShuffledQuestion :=
  shuffled <~ shuffleArray (options q);;
  ret {| base := q; categoryPath := cq_categoryPath q; answers := shuffled |}.

(** [extract(data.sections).map(shuffleAnswers)], the argument of
    [setQuestions] once the catalogue is fetched. *)
Definition loadQuestions `{ArraySort} (sections : list Section_)
    : Rand (list ShuffledQuestion) :=
  mapR shuffleAnswers (extract sections []).

(** What [extract] made of a question of the catalogue. *)
Definition categorized (q : ShuffledQuestion) : CategorizedQuestion :=
  {| cq_base := base q; cq_categoryPath := categoryPath q |}.

(** [answers.find((a) => a.id === selected)?.isCorrect], which is
    [undefined] when no option has that id. *)
Definition findCorrect (q : ShuffledQuestion) (selected : option string)
    : option bool :=
  isCorrect <$> find (λ a, bool_decide (Some (id a) = selected)) (answers q).

(** A shuffled question is well formed when its options are the four
    options of its base question in some order. *)
Definition wf_question (q : ShuffledQuestion) : Prop :=
  answers q ≡ₚ options q.

(** ** Induction on the catalogue tree *)

Lemma Section_ind' (P : Section_ → Prop) :
  (∀ t qs ss, Forall P (default [] ss) → P (mkSection t qs ss)) →
  ∀ sec, P sec.
Proof.
  intros H. fix IH 1. intros [t qs ss]. apply H.
  destruct ss as [l|]; [simpl|constructor].
  induction l as [|s l IHl]; constructor; [apply IH | apply IHl].
Qed.

(** ** [extract] *)

Section extract.
Implicit Types (path : list string) (sec : Section_) (secs : list Section_).

(** The equation the source is written by: the section's own questions,
    then [extract] of its subsections under the extended path. *)
Lemma extractSection_eq path t qs ss :
  extractSection path (mkSection t qs ss)
  = ((λ q, {| cq_base := q; cq_categoryPath := path ++ [t] |})
       <$> default [] qs)
    ++ extract (default [] ss) (path ++ [t]).
Proof.
  simpl. f_equal; [by destruct qs|]. destruct ss as [ss|]; [|done].
  unfold extract. simpl. induction ss as [|s ss IH]; [done|].
  by rewrite bind_cons, IH.
Qed.

Lemma extract_cons sec secs path :
  extract (sec :: secs) path = extractSection path sec ++ extract secs path.
Proof. done. Qed.

Lemma extract_app secs1 secs2 path :
  extract (secs1 ++ secs2) path = extract secs1 path ++ extract secs2 path.
Proof. apply bind_app. Qed.

Definition countAll (secs : list Section_) : nat :=
  sum_list (countQuestions <$> secs).

Lemma countQuestions_eq t qs ss :
  countQuestions (mkSection t qs ss)
  = length (default [] qs) + countAll (default [] ss).
Proof.
  simpl. f_equal; [by destruct qs|]. destruct ss as [ss|]; [|done].
  unfold countAll. simpl. induction ss as [|s ss IH]; [done|].
  simpl. by rewrite IH.
Qed.

Lemma length_extractSection path sec :
  length (extractSection path sec) = countQuestions sec.
Proof.
  revert path. induction sec as [t qs ss IH] using Section_ind'. intros path.
  rewrite extractSection_eq, countQuestions_eq, length_app, length_fmap.
  f_equal. unfold countAll.
  induction IH as [|s ss' Hs _ IHss]; [done|].
  rewrite extract_cons, length_app, Hs, IHss. done.
Qed.

(** [extract] finds the questions where they are. *)
Lemma located_extractSection sec rest (q : Question) :
  located sec rest q →
  ∀ path, {| cq_base := q; cq_categoryPath := path ++ rest |}
          ∈ extractSection path sec.
Proof.
  induction 1 as [t qs ss q Hq|t qs ss sec rest q Hsec _ IH]; intros path;
    rewrite extractSection_eq, elem_of_app.
  - left. apply list_elem_of_fmap. by exists q.
  - right. apply list_elem_of_bind. exists sec. split; [|done].
    specialize (IH (path ++ [t])). by rewrite <-app_assoc in IH.
Qed.

Lemma extractSection_located path sec cq :
  cq ∈ extractSection path sec →
  ∃ rest, cq_categoryPath cq = path ++ rest ∧ located sec rest cq.
Proof.
  revert path. induction sec as [t qs ss IH] using Section_ind'. intros path.
  rewrite extractSection_eq, elem_of_app, list_elem_of_fmap.
  intros [(q & -> & Hq)|Hin].
  - exists [t]. split; [done|]. destruct qs as [qs|]; [|by inversion Hq].
    by constructor.
  - apply list_elem_of_bind in Hin as (s & Hcq & Hs).
    rewrite Forall_forall in IH.
    destruct (IH s Hs _ Hcq) as (rest & -> & Hloc).
    exists (t :: rest). rewrite <-app_assoc. split; [done|].
    destruct ss as [ss|]; [|by inversion Hs]. by eapply located_below.
Qed.

(** Every path starts with the path handed down and the section's title. *)
Lemma extractSection_path path sec cq :
  cq ∈ extractSection path sec →
  ∃ rest, cq_categoryPath cq = path ++ title sec :: rest.
Proof.
  revert path. induction sec as [t qs ss IH] using Section_ind'. intros path.
  rewrite extractSection_eq, elem_of_app, list_elem_of_fmap.
  intros [(q & -> & _)|Hin]; [by exists []|].
  apply list_elem_of_bind in Hin as (s & Hcq & Hs).
  rewrite Forall_forall in IH.
  destruct (IH s Hs _ Hcq) as [rest ->].
  exists (title s :: rest). by rewrite <-app_assoc.
Qed.
End extract.

(** At the top level the path is never empty: it starts with the title of
    a top-level section. *)
Lemma extract_path_nonempty (secs : list Section_) (cq : CategorizedQuestion) :
  cq ∈ extract secs [] →
  ∃ sec rest, sec ∈ secs ∧ cq_categoryPath cq = title sec :: rest.
Proof.
  intros (sec & Hcq & Hsec)%list_elem_of_bind.
  apply extractSection_path in Hcq as [rest Hp]. eauto.
Qed.

(** The questions [extract] lists are those of the catalogue, each with
    the titles on the way to it. *)
Lemma extract_located (secs : list Section_) (cq : CategorizedQuestion) :
  cq ∈ extract secs []
  ↔ ∃ sec, sec ∈ secs ∧ located sec (cq_categoryPath cq) cq.
Proof.
  unfold extract. rewrite list_elem_of_bind. split.
  - intros (sec & (rest & -> & Hloc)%extractSection_located & Hsec). eauto.
  - intros (sec & Hsec & Hloc). exists sec. split; [|done].
    destruct cq as [q path]. apply (located_extractSection _ _ _ Hloc []).
Qed.

Lemma length_extract (secs : list Section_) (path : list string) :
  length (extract secs path) = countAll secs.
Proof.
  unfold countAll. induction secs as [|sec secs IH]; [done|].
  by rewrite extract_cons, length_app, length_extractSection, IH.
Qed.

(** ** Looking an option up by its id *)

Section find_id.
Implicit Types (l : list AnswerOption) (a : AnswerOption) (s : string).

Lemma find_id_NoDup l a :
  NoDup (id <$> l) → a ∈ l →
  find (λ b, bool_decide (Some (id b) = Some (id a))) l = Some a.
Proof.
  induction l as [|b l IH]; intros Hnd Ha; [by apply elem_of_nil in Ha|].
  apply NoDup_cons in Hnd as [Hb Hnd]. simpl. case_bool_decide as Hid.
  - apply elem_of_cons in Ha as [->|Ha]; [done|].
    destruct Hb. injection Hid as ->. by apply list_elem_of_fmap_2.
  - apply elem_of_cons in Ha as [->|Ha]; [done|]. by apply IH.
Qed.

Lemma find_id_None l s :
  s ∉ id <$> l → find (λ b, bool_decide (Some (id b) = Some s)) l = None.
Proof.
  induction l as [|b l IH]; [done|]. rewrite fmap_cons, not_elem_of_cons.
  intros [Hs Hl]. simpl. rewrite bool_decide_eq_false_2 by congruence. auto.
Qed.

Lemma find_id_null l : find (λ b, bool_decide (Some (id b) = None)) l = None.
Proof. by induction l. Qed.
End find_id.

(** ** [shuffleAnswers] *)

Section shuffleAnswers.
Context `{ArraySort}.
Implicit Types (q : CategorizedQuestion) (g : Rng) (sq : ShuffledQuestion).

Lemma shuffleAnswers_run q g :
  shuffleAnswers q g
  = ({| base := q; categoryPath := cq_categoryPath q;
        answers := (shuffleArray (options q) g).1 |},
     (shuffleArray (options q) g).2).
Proof. unfold shuffleAnswers. by rewrite bind_run. Qed.

Lemma shuffleAnswers_base q g : base (shuffleAnswers q g).1 = cq_base q.
Proof. by rewrite shuffleAnswers_run. Qed.

Lemma shuffleAnswers_categoryPath q g :
  categoryPath (shuffleAnswers q g).1 = cq_categoryPath q.
Proof. by rewrite shuffleAnswers_run. Qed.

Lemma shuffleAnswers_wf q g : wf_question (shuffleAnswers q g).1.
Proof.
  unfold wf_question. rewrite shuffleAnswers_run. simpl.
  apply shuffleArray_Permutation.
Qed.

Lemma loadQuestions_wf (sections : list Section_) g :
  Forall wf_question (loadQuestions sections g).1.
Proof. apply mapR_Forall. intros. apply shuffleAnswers_wf. Qed.

Lemma loadQuestions_categorized (sections : list Section_) g :
  categorized <$> (loadQuestions sections g).1 = extract sections [].
Proof.
  unfold loadQuestions.
  rewrite (mapR_fmap categorized (λ cq, cq)), list_fmap_id; [done|].
  intros [q path] g'. by rewrite shuffleAnswers_run.
Qed.

Lemma length_loadQuestions (sections : list Section_) g :
  length (loadQuestions sections g).1 = countAll sections.
Proof. unfold loadQuestions. by rewrite length_mapR, length_extract. Qed.
End shuffleAnswers.

(** ** What a well-formed question guarantees *)

Section wf_question.
Context (sq : ShuffledQuestion) (Hwf : wf_question sq).

Lemma wf_ids : id <$> answers sq ≡ₚ ["A"; "B"; "C"; "D"].
Proof. unfold wf_question in Hwf. by rewrite Hwf. Qed.

Lemma wf_ids_NoDup : NoDup (id <$> answers sq).
Proof. rewrite wf_ids. by apply (bool_decide_unpack _). Qed.

Lemma wf_length_answers : length (answers sq) = 4.
Proof. unfold wf_question in Hwf. by rewrite Hwf. Qed.

Lemma wf_elem_of a :
  a ∈ answers sq ↔ a ∈ options sq.
Proof. unfold wf_question in Hwf. by rewrite Hwf. Qed.

Lemma wf_correct_iff a : a ∈ answers sq → isCorrect a = true ↔ id a = "A".
Proof.
  rewrite wf_elem_of. unfold options.
  rewrite !elem_of_cons, elem_of_nil.
  intros [->|[->|[->|[->|[]]]]]; simpl; split; congruence.
Qed.

Lemma findCorrect_elem a :
  a ∈ answers sq → findCorrect sq (Some (id a)) = Some (isCorrect a).
Proof.
  intros Ha. unfold findCorrect. by rewrite find_id_NoDup by auto using wf_ids_NoDup.
Qed.

Lemma findCorrect_known (s : string) :
  s ∈ ["A"; "B"; "C"; "D"] →
  findCorrect sq (Some s) = Some (bool_decide (s = "A")).
Proof.
  rewrite <-wf_ids. intros (a & -> & Ha)%list_elem_of_fmap.
  rewrite findCorrect_elem by done. f_equal.
  apply wf_correct_iff in Ha.
  destruct (isCorrect a); case_bool_decide as Hd; try done.
  - by destruct Hd; apply Ha.
  - by apply Ha in Hd.
Qed.

Lemma findCorrect_unknown (s : string) :
  s ∉ ["A"; "B"; "C"; "D"] → findCorrect sq (Some s) = None.
Proof.
  intros Hs. unfold findCorrect. rewrite find_id_None; [done|].
  by rewrite wf_ids.
Qed.
End wf_question.

(** The verdict on a selection: whether it is the option of slot a. *)
Lemma findCorrect_default (q : ShuffledQuestion) optId :
  wf_question q →
  default false (findCorrect q (Some optId)) = bool_decide (optId = "A").
Proof.
  intros Hwf. destruct (decide (optId ∈ ["A"; "B"; "C"; "D"])) as [Hin|Hin].
  - by rewrite findCorrect_known.
  - rewrite findCorrect_unknown by done. simpl. symmetry.
    apply bool_decide_eq_false. intros ->. apply Hin. by left.
Qed.

(** The verdict of the footer: whether the selection is the option of
    slot a. *)
Lemma findCorrect_verdict (q : ShuffledQuestion) (selected : option string) :
  wf_question q →
  default false (findCorrect q selected) = bool_decide (selected = Some "A").
Proof.
  intros Hwf. destruct selected as [optId|].
  - rewrite findCorrect_default by done.
    apply bool_decide_ext. naive_solver.
  - unfold findCorrect. by rewrite find_id_null.
Qed.

(** C20. What the page holds once the catalogue is fetched: the questions
    of the catalogue tree in the order of the document, each once, each
    with the titles of the sections on the way to it as its path, and
    each with its four options in some order. *)
Theorem loadQuestions_spec `{ArraySort} (sections : list Section_) (g : Rng) :
  let questions := (loadQuestions sections g).1 in
  categorized <$> questions = extract sections []
  ∧ length questions = countAll sections
  ∧ Forall wf_question questions
  ∧ ∀ cq, cq ∈ categorized <$> questions
          ↔ ∃ sec, sec ∈ sections ∧ located sec (cq_categoryPath cq) cq.
Proof.
  simpl. rewrite loadQuestions_categorized.
  split_and!; [done|apply length_loadQuestions|apply loadQuestions_wf|].
  apply extract_located.
Qed.

(** C6. After [shuffleAnswers], whatever the sort does, exactly one option
    is marked correct. *)
Theorem shuffleAnswers_one_correct `{ArraySort} (q : CategorizedQuestion)
    (g : Rng) :
  length (filter (λ a, isCorrect a) (answers (shuffleAnswers q g).1)) = 1.
Proof. by rewrite (shuffleAnswers_wf q g). Qed.

(** In a well-formed question, looking a selection up gives [true] for
    the id [A], [false] for [B], [C] and [D], and nothing for anything
    else: the verdict depends on the slot, not on the place shown. *)
Theorem findCorrect_wf (sq : ShuffledQuestion) (selected : option string) :
  wf_question sq →
  findCorrect sq selected
  = match selected with
    | Some s => if decide (s ∈ ["A"; "B"; "C"; "D"])
                then Some (bool_decide (s = "A")) else None
    | None => None
    end.
Proof.
  intros Hwf. destruct selected as [s|];
    [|by unfold findCorrect; rewrite find_id_null].
  case_decide; auto using findCorrect_known, findCorrect_unknown.
Qed.

Lemma findCorrect_wf_witness :
  let q := {| number := "AB101"; class := "1"; question := "Q";
              answer_a := "a"; answer_b := "b"; answer_c := "c";
              answer_d := "d"; picture_question := None; picture_a := None;
              picture_b := None; picture_c := None; picture_d := None |} in
  findCorrect {| base := q; categoryPath := ["Vorschriften"];
                 answers := reverse (options q) |} (Some "C")
  = Some false.
Proof.
  intros q. apply (findCorrect_wf _ (Some "C")).
  unfold wf_question. simpl. by apply (bool_decide_unpack _).
Defined.
