(* ===== verification/JsString.v ===== *)
(** * JsString: the string and array built-ins the component calls

    [String.prototype.includes] is a substring test;
    [Array.prototype.includes] is membership; [Array.prototype.some] is
    [existsb].  They are the engine's, not the repository's: the
    definitions follow the language specification. *)

From S2P Require Import Prelude.

(** [s.includes(search)] on strings. *)
Fixpoint includes (s search : string) : bool :=
  String.prefix search s ||
  match s with
  | EmptyString => false
  | String _ s' => includes s' search
  end.

(** [array.includes(x)] on arrays of strings. *)
Definition array_includes (array : list string) (x : string) : bool :=
  bool_decide (x ∈ array).

(** ** [String.prefix] and [includes] mean what they should *)

Lemma append_cons (a : Ascii.ascii) (p rest : string) :
  String a p +:+ rest = String a (p +:+ rest).
Proof. done. Qed.

Lemma append_nil (rest : string) : EmptyString +:+ rest = rest.
Proof. done. Qed.

Lemma prefix_spec (p s : string) :
  String.prefix p s = true ↔ ∃ rest, s = p +:+ rest.
Proof.
  revert p. induction s as [|b s IH]; intros [|a p]; simpl.
  - split; [by exists EmptyString|done].
  - split; [done|]. by intros [rest ?].
  - split; [by exists (String b s)|done].
  - destruct (Ascii.ascii_dec a b) as [->|Hab].
    + rewrite IH. split; intros [rest Hr]; exists rest;
        rewrite append_cons in *; congruence.
    + split; [done|]. intros [rest Hr]. rewrite append_cons in Hr. congruence.
Qed.

Lemma includes_nil (search : string) :
  includes EmptyString search = String.prefix search EmptyString.
Proof. simpl. by rewrite orb_false_r. Qed.

Lemma includes_cons (a : Ascii.ascii) (s search : string) :
  includes (String a s) search
  = String.prefix search (String a s) || includes s search.
Proof. done. Qed.

Lemma includes_spec (s search : string) :
  includes s search = true ↔ ∃ before after, s = before +:+ search +:+ after.
Proof.
  induction s as [|a s IH].
  - rewrite includes_nil, prefix_spec. split.
    + intros [rest ->]. by exists EmptyString, rest.
    + intros (before & after & Hs).
      destruct before; [by exists after|done].
  - rewrite includes_cons, orb_true_iff, prefix_spec, IH. split.
    + intros [[rest ->]|(before & after & ->)].
      * by exists EmptyString, rest.
      * by exists (String a before), after.
    + intros (before & after & Hs). destruct before as [|b before].
      * left. by exists after.
      * right. rewrite append_cons in Hs. injection Hs as -> ->.
        by exists before, after.
Qed.

Lemma includes_refl (s : string) : includes s s = true.
Proof.
  apply includes_spec. exists EmptyString, EmptyString.
  rewrite append_nil. induction s; [done|]. rewrite append_cons. congruence.
Qed.

Lemma includes_empty (s : string) : includes s EmptyString = true.
Proof. apply includes_spec. by exists EmptyString, s. Qed.

Lemma array_includes_spec (array : list string) (x : string) :
  array_includes array x = true ↔ x ∈ array.
Proof. apply bool_decide_eq_true. Qed.

(** [array.some(p => p.includes(search))] *)
Lemma existsb_includes_spec (array : list string) (search : string) :
  existsb (λ p, includes p search) array = true
  ↔ ∃ p, p ∈ array ∧ includes p search = true.
Proof.
  rewrite existsb_exists. by setoid_rewrite list_elem_of_In.
Qed.
