(* ===== verification/JsText.v ===== *)
(** * JsText: the text built-ins of the page

    [Array.prototype.join], [String.prototype.split], [padStart],
    [toLowerCase], [String.fromCharCode] and the conversion of a number to
    a string, as the component uses them while it renders.  Strings are
    strings of bytes; [toLowerCase] is the one of ASCII, which is what the
    option ids consist of.  [split] and [join] are inverse to each other
    where the pieces do not hold the separator. *)

From stdpp Require Import pretty.
From Stdlib Require Import Ascii.
From S2P Require Import Prelude JsString.

(** [array.join(sep)] *)
Fixpoint join (sep : string) (array : list string) : string :=
  match array with
  | [] => EmptyString
  | [x] => x
  | x :: array => x +:+ sep +:+ join sep array
  end.

(** [s.split(sep)] for a separator that is not empty: [cur] is the piece
    being read, [skip] the number of characters of a separator still to
    pass over. *)
Fixpoint split_go (sep : string) (skip : nat) (cur s : string)
    : list string :=
  match s with
  | EmptyString => [cur]
  | String c s' =>
      match skip with
      | S k => split_go sep k cur s'
      | 0 => if String.prefix sep s
             then cur :: split_go sep (String.length sep - 1) EmptyString s'
             else split_go sep 0 (cur +:+ String c EmptyString) s'
      end
  end.

Definition split (sep s : string) : list string :=
  split_go sep 0 EmptyString s.

(** [array.pop()] on a copy: the last element. *)
Definition pop (array : list string) : option string := last array.

(** [n.toString()] for a natural number. *)
Definition toString (n : nat) : string := pretty n.

(** [s.padStart(n, pad)] for a pad of one character. *)
Definition padStart (n : nat) (pad : ascii) (s : string) : string :=
  String.string_of_list_ascii (replicate (n - String.length s) pad) +:+ s.

(** [String.fromCharCode(n)] below 256. *)
Definition fromCharCode (n : nat) : string :=
  String (ascii_of_nat n) EmptyString.

Definition lowerAscii (c : ascii) : ascii :=
  let n := nat_of_ascii c in
  if bool_decide (65 ≤ n ≤ 90) then ascii_of_nat (n + 32) else c.

(** [s.toLowerCase()] *)
Fixpoint toLowerCase (s : string) : string :=
  match s with
  | EmptyString => EmptyString
  | String c s' => String (lowerAscii c) (toLowerCase s')
  end.

(** A string without the character [c]. *)
Fixpoint without (c : ascii) (s : string) : bool :=
  match s with
  | EmptyString => true
  | String a s' => negb (bool_decide (a = c)) && without c s'
  end.

(** The separator of category labels. *)
Definition arrow : string := " > ".

(** ** [join] *)

Lemma join_cons (sep x y : string) (array : list string) :
  join sep (x :: y :: array) = x +:+ sep +:+ join sep (y :: array).
Proof. done. Qed.

Lemma join_singleton (sep x : string) : join sep [x] = x.
Proof. done. Qed.

Lemma append_assoc (s1 s2 s3 : string) :
  (s1 +:+ s2) +:+ s3 = s1 +:+ (s2 +:+ s3).
Proof.
  induction s1 as [|a s1 IH]; [done|]. by rewrite !append_cons, IH.
Qed.

Lemma append_nil_r (s : string) : s +:+ EmptyString = s.
Proof. induction s as [|a s IH]; [done|]. by rewrite append_cons, IH. Qed.

(** ** [split] undoes [join] on pieces without the character [>] *)

Section split_join.
Implicit Types (x y cur rest sep : string) (array : list string).

(** What follows a piece in a joined string: nothing or a separator. *)
Definition follows rest : Prop :=
  rest = EmptyString ∨ ∃ y, rest = arrow +:+ y.

Lemma prefix_arrow_free x rest :
  x ≠ EmptyString → without ">" x = true → follows rest →
  String.prefix arrow (x +:+ rest) = false.
Proof.
  intros Hne Hfree Hrest. apply not_true_is_false.
  intros [tail Heq]%prefix_spec. unfold arrow in Heq.
  destruct x as [|a [|b x]]; [done|..]; simpl in Hfree;
    rewrite !append_cons in Heq; injection Heq as -> Heq.
  - rewrite append_nil in Heq. subst rest.
    by destruct Hrest as [?|[y ?]].
  - subst b. by rewrite bool_decide_eq_true_2 in Hfree.
Qed.

Lemma split_go_cons sep cur (c : ascii) s :
  split_go sep 0 cur (String c s)
  = if String.prefix sep (String c s)
    then cur :: split_go sep (String.length sep - 1) EmptyString s
    else split_go sep 0 (cur +:+ String c EmptyString) s.
Proof. done. Qed.

Lemma split_go_free cur x rest :
  without ">" x = true → follows rest →
  split_go arrow 0 cur (x +:+ rest) = split_go arrow 0 (cur +:+ x) rest.
Proof.
  revert cur. induction x as [|a x IH]; intros cur Hfree Hrest.
  - by rewrite append_nil, append_nil_r.
  - pose proof (prefix_arrow_free (String a x) rest) as Hp.
    rewrite append_cons in *. rewrite split_go_cons, Hp by done.
    simpl in Hfree. apply andb_true_iff in Hfree as [_ Hfree].
    rewrite IH by done. by rewrite append_assoc.
Qed.

Lemma split_go_arrow cur y :
  split_go arrow 0 cur (arrow +:+ y) = cur :: split_go arrow 0 EmptyString y.
Proof. by destruct y. Qed.

Lemma split_free x : without ">" x = true → split arrow x = [x].
Proof.
  intros Hfree. unfold split.
  rewrite <-(append_nil_r x) at 1. rewrite split_go_free by (done || by left).
  done.
Qed.

Lemma split_join array :
  array ≠ [] → Forall (λ x, without ">" x = true) array →
  split arrow (join arrow array) = array.
Proof.
  intros Hne Hfree.
  induction Hfree as [|x [|y array] Hx Hfree IH]; [done|..].
  - by apply split_free.
  - rewrite join_cons. unfold split.
    rewrite split_go_free, split_go_arrow by (done || right; eauto).
    f_equal. by apply IH.
Qed.

(** The last piece of a joined path is the path's last element. *)
Lemma pop_split_join array :
  array ≠ [] → Forall (λ x, without ">" x = true) array →
  pop (split arrow (join arrow array)) = last array.
Proof. intros. by rewrite split_join. Qed.
End split_join.

(** ** [join] undoes [split] *)

Section join_split.
Context (sep : string) (Hsep : sep ≠ EmptyString).
Implicit Types (cur pre rest s : string).

Lemma split_go_nonempty skip cur s : split_go sep skip cur s ≠ [].
Proof.
  revert skip cur. induction s as [|c s IH]; intros [|k] cur; simpl; try done.
  by case_match.
Qed.

Lemma join_cons_nonempty x array :
  array ≠ [] → join sep (x :: array) = x +:+ sep +:+ join sep array.
Proof. by destruct array. Qed.

(** Joining the pieces read from [s], of which the first [skip] characters
    end a separator, gives what was read before and the rest of [s]. *)
Lemma join_split_go s skip cur pre rest :
  s = pre +:+ rest → String.length pre = skip →
  join sep (split_go sep skip cur s) = cur +:+ rest.
Proof.
  revert skip cur pre rest.
  induction s as [|c s IH]; intros skip cur pre rest Hs Hlen.
  { destruct pre, rest; try done. simpl in Hlen. subst skip. simpl.
    by rewrite append_nil_r. }
  destruct skip as [|k].
  - destruct pre; [|done]. rewrite append_nil in Hs. subst rest.
    rewrite split_go_cons. destruct (String.prefix sep _) eqn:Hp.
    + apply prefix_spec in Hp as [tail Hp].
      assert (∃ a sep', sep = String a sep') as (a & sep' & Heq)
        by (destruct sep; [done|by eauto]).
      rewrite Heq, append_cons in Hp. injection Hp as <- ->.
      rewrite join_cons_nonempty by apply split_go_nonempty.
      rewrite (IH _ _ sep' tail) by (done || rewrite Heq; simpl; lia).
      by rewrite Heq, append_nil, append_cons.
    + rewrite (IH 0 _ EmptyString s) by done.
      by rewrite append_assoc, append_cons.
  - destruct pre as [|a pre]; [done|]. rewrite append_cons in Hs.
    injection Hs as -> ->. simpl in Hlen. simpl. apply (IH _ _ pre); [done|lia].
Qed.

Lemma join_split s : join sep (split sep s) = s.
Proof. unfold split. by rewrite (join_split_go s 0 _ EmptyString s). Qed.
End join_split.

(** A label of three titles, and a title that holds the separator: the
    label has one piece more than the path. *)
Example split_join_example :
  split arrow (join arrow ["Technik"; "Grundlagen"; "Ohmsches Gesetz"])
  = ["Technik"; "Grundlagen"; "Ohmsches Gesetz"].
Proof. by vm_compute. Qed.

Example split_join_cut :
  split arrow (join arrow ["Technik"; "U > 0"]) = ["Technik"; "U"; "0"].
Proof. by vm_compute. Qed.

(** ** The clock's digits *)

Lemma length_string_of_list_ascii (l : list ascii) :
  String.length (String.string_of_list_ascii l) = length l.
Proof. induction l as [|a l IH]; [done|]. simpl. by rewrite IH. Qed.

Lemma length_append (s1 s2 : string) :
  String.length (s1 +:+ s2) = String.length s1 + String.length s2.
Proof.
  induction s1 as [|a s1 IH]; [done|]. rewrite append_cons. simpl. by rewrite IH.
Qed.

Lemma length_padStart (n : nat) (pad : ascii) (s : string) :
  String.length (padStart n pad s) = n `max` String.length s.
Proof.
  unfold padStart.
  rewrite length_append, length_string_of_list_ascii, length_replicate. lia.
Qed.

Lemma padStart_long (n : nat) (pad : ascii) (s : string) :
  n ≤ String.length s → padStart n pad s = s.
Proof.
  intros Hn. unfold padStart. by replace (n - String.length s) with 0 by lia.
Qed.
