(* ===== verification/JsMap.v ===== *)
(** * JsMap: the engine's [Map] and [Set], which remember insertion order

    [Map.prototype.set] replaces the value of a key that is present and
    appends a new key at the end; [Array.from(map.entries())] lists the
    entries in that order.  [new Set(array)] keeps the first occurrence of
    every element.  Both are lists here, so that the order of the options
    the page renders is the order of the program. *)

From S2P Require Import Prelude.

Section map.
Context {V : Type}.
Implicit Types (key : string) (value : V) (m : list (string * V)).

(** [map.set(key, value)] *)
Fixpoint map_set key value m : list (string * V) :=
  match m with
  | [] => [(key, value)]
  | (k, v) :: m' =>
      if decide (k = key) then (k, value) :: m'
      else (k, v) :: map_set key value m'
  end.

(** The keys stay where they are; a new key goes to the end. *)
Lemma map_set_keys key value m :
  (map_set key value m).*1
  = if decide (key ∈ m.*1) then m.*1 else m.*1 ++ [key].
Proof.
  induction m as [|[k v] m IH]; csimpl.
  - by destruct (decide (key ∈ [])) as [?%elem_of_nil|].
  - destruct (decide (k = key)) as [->|Hne]; csimpl.
    + by rewrite decide_True by left.
    + rewrite IH. destruct (decide (key ∈ m.*1)) as [Hin|Hin].
      * by rewrite decide_True by by right.
      * rewrite decide_False; [done|]. rewrite elem_of_cons. naive_solver.
Qed.

Lemma map_set_NoDup key value m : NoDup m.*1 → NoDup (map_set key value m).*1.
Proof.
  intros Hnd. rewrite map_set_keys. case_decide as Hin; [done|].
  apply NoDup_app. split_and!; [done| |apply NoDup_singleton].
  intros x Hx ->%list_elem_of_singleton. done.
Qed.

(** An entry of the map after [set] is the one set or was there. *)
Lemma map_set_elem_of key value m k v :
  (k, v) ∈ map_set key value m → (k = key ∧ v = value) ∨ (k, v) ∈ m.
Proof.
  induction m as [|[k' v'] m IH]; csimpl.
  - intros [=]%list_elem_of_singleton. by left.
  - case_decide as Hk; rewrite !elem_of_cons; [subst|]; naive_solver.
Qed.

Lemma map_set_key_elem_of key value m k :
  k ∈ (map_set key value m).*1 ↔ k = key ∨ k ∈ m.*1.
Proof.
  rewrite map_set_keys. case_decide; [|rewrite elem_of_app, list_elem_of_singleton];
    naive_solver.
Qed.
End map.

(** [set.add(x)] *)
Definition set_add (x : string) (s : list string) : list string :=
  if decide (x ∈ s) then s else s ++ [x].

(** [Array.from(new Set(array))] *)
Definition Set_of (array : list string) : list string :=
  foldl (λ s x, set_add x s) [] array.

Lemma set_add_elem_of (x y : string) (s : list string) :
  y ∈ set_add x s ↔ y = x ∨ y ∈ s.
Proof.
  unfold set_add. case_decide; [|rewrite elem_of_app, list_elem_of_singleton];
    naive_solver.
Qed.

Lemma set_add_NoDup (x : string) (s : list string) :
  NoDup s → NoDup (set_add x s).
Proof.
  intros Hnd. unfold set_add. case_decide as Hin; [done|].
  apply NoDup_app. split_and!; [done| |apply NoDup_singleton].
  intros y Hy ->%list_elem_of_singleton. done.
Qed.

(** The fold that builds a set, from any set. *)
Lemma foldl_set_add (array s : list string) :
  NoDup s →
  NoDup (foldl (λ s x, set_add x s) s array)
  ∧ ∀ y, y ∈ foldl (λ s x, set_add x s) s array ↔ y ∈ s ∨ y ∈ array.
Proof.
  revert s. induction array as [|x array IH]; intros s Hnd; simpl.
  - split; [done|]. intros y. rewrite elem_of_nil. naive_solver.
  - destruct (IH (set_add x s)) as [Hnd' Hin]; [by apply set_add_NoDup|].
    split; [done|]. intros y.
    rewrite Hin, set_add_elem_of, elem_of_cons. naive_solver.
Qed.

Lemma Set_of_NoDup (array : list string) : NoDup (Set_of array).
Proof. apply foldl_set_add, NoDup_nil_2. Qed.

Lemma Set_of_elem_of (array : list string) (y : string) :
  y ∈ Set_of array ↔ y ∈ array.
Proof.
  unfold Set_of. rewrite (proj2 (foldl_set_add array [] (NoDup_nil_2))).
  rewrite elem_of_nil. naive_solver.
Qed.
