(* ===== verification/Presentation.v ===== *)
(** * Presentation: the components [Card] and [Button]

    [Card] (App.tsx, lines 41-53) wraps its children in a [<div>] with a
    fixed style; [Button] (lines 55-73) is a [<button>] with the props it
    is given and a style made of its own declarations and the [style] of
    the props.  A style object is the list of its entries in the order of
    its keys; a number is written as the engine prints it.  Spreading one
    object into another sets its entries one after the other, so a key
    both have keeps its place and takes the later value. *)

From S2P Require Import Prelude JsMap.

(** A style object. *)
Definition Style : Type := list (string * string).

(** [{...a, ...b}] *)
Definition spread (a b : Style) : Style :=
  foldl (λ style entry, map_set entry.1 entry.2 style) a b.

(** [style[key]] *)
Definition styleOf (style : Style) (key : string) : option string :=
  snd <$> find (λ entry, bool_decide (entry.1 = key)) style.

(** A [<div>] with a style and children. *)
Record Div (C : Type) := {
  div_style : Style;
  div_children : C;
}.
Arguments div_style {C} _.
Arguments div_children {C} _.

(** [const Card = ({children}) => (<div style={{...}}>{children}</div>)]:
    of the props only [children] is read. *)
Definition Card {C} (children : C) : Div C :=
  {| div_style :=
       [ ("background", "white"); ("borderRadius", "8");
         ("boxShadow", "0 2px 4px rgba(0,0,0,0.1)"); ("padding", "16");
         ("marginBottom", "16") ];
     div_children := children |}.

(** The [style] of the [<button>] that [Button] returns for props with
    [disabled] and [style]; a prop that is absent is [false] and [None]. *)
Definition Button (disabled : bool) (style : option Style) : Style :=
  spread
    [ ("display", "block"); ("width", "100%"); ("padding", "8px 16px");
      ("marginBottom", "8"); ("borderRadius", "4"); ("textAlign", "left");
      ("border", "none");
      ("cursor", if disabled then "default" else "pointer") ]
    (default [] style).

(** ** Spreading *)

Section spread.
Implicit Types (a b : Style) (key value : string).

Lemma styleOf_cons a key key' value :
  styleOf ((key', value) :: a) key
  = if decide (key = key') then Some value else styleOf a key.
Proof. unfold styleOf. simpl. case_bool_decide; case_decide; naive_solver. Qed.

Lemma styleOf_map_set a key key' value :
  styleOf (map_set key' value a) key
  = if decide (key = key') then Some value else styleOf a key.
Proof.
  induction a as [|[k v] a IH]; simpl; [by rewrite styleOf_cons|].
  destruct (decide (k = key')) as [->|Hk]; rewrite !styleOf_cons;
    [|rewrite IH]; repeat case_decide; naive_solver.
Qed.

Lemma spread_snoc a b key value :
  spread a (b ++ [(key, value)]) = map_set key value (spread a b).
Proof. unfold spread. by rewrite foldl_app. Qed.

(** A key of the second object has the value of its last entry there;
    any other key has the value it has in the first. *)
Lemma styleOf_spread a b key :
  styleOf (spread a b) key
  = match styleOf (reverse b) key with
    | Some value => Some value
    | None => styleOf a key
    end.
Proof.
  induction b as [|[k v] b IH] using rev_ind; [done|].
  rewrite spread_snoc, styleOf_map_set, reverse_snoc, styleOf_cons, IH.
  by case_decide.
Qed.

Lemma spread_keys a b key :
  key ∈ (spread a b).*1 ↔ key ∈ a.*1 ∨ key ∈ b.*1.
Proof.
  induction b as [|[k v] b IH] using rev_ind.
  - rewrite elem_of_nil. naive_solver.
  - rewrite spread_snoc, map_set_key_elem_of, IH, fmap_app, elem_of_app.
    simpl. rewrite list_elem_of_singleton. naive_solver.
Qed.

Lemma spread_NoDup a b : NoDup a.*1 → NoDup (spread a b).*1.
Proof.
  intros Ha. induction b as [|[k v] b IH] using rev_ind; [done|].
  rewrite spread_snoc. by apply map_set_NoDup.
Qed.
End spread.

(** The cursor of a [Button] whose style does not set it tells whether
    the button is disabled, and a declaration of the style wins over the
    button's own: the button of the practice card is a flex box. *)
Example Button_style_example :
  Button false (Some [("backgroundColor", "#3182ce"); ("display", "flex")])
  = [ ("display", "flex"); ("width", "100%"); ("padding", "8px 16px");
      ("marginBottom", "8"); ("borderRadius", "4"); ("textAlign", "left");
      ("border", "none"); ("cursor", "pointer");
      ("backgroundColor", "#3182ce") ].
Proof. by vm_compute. Qed.
