(* ===== verification/Math.v ===== *)
(** * Math: [renderMath]

    [renderMath] (App.tsx, lines 91-112) replaces every [$...$] of a text
    by what katex renders for the text between the dollars, then every
    [$$...$$] of the result by katex's display rendering, and hands the
    result to the browser as HTML.  [String.prototype.replace] with the
    global regular expression [/D(.*?)D/g] for a literal delimiter [D] is
    a scan from left to right: [.] does not match a line terminator, and
    the lazy [*?] ends a formula at the first delimiter that follows.
    Katex is a library; it is known here through the class [Katex]. *)

From Stdlib Require Import Ascii.
From S2P Require Import Prelude JsString JsText.

(** [katex.renderToString(tex, {displayMode, throwOnError: false})]: the
    HTML, or the message of the error it throws. *)
Class Katex := {
  renderToString : bool → string → string + string;
}.

(** The double quote, character 34. *)
Definition quote : string := String (ascii_of_nat 34) EmptyString.

(** The body of the two callbacks: the rendering, or the error in a red
    [<span>]. *)
Definition callback `{Katex} (displayMode : bool) (tex : string) : string :=
  match renderToString displayMode tex with
  | inl html => html
  | inr message =>
      "<span style=" +:+ quote +:+ "color: red;" +:+ quote
      +:+ ">LaTeX-Fehler: " +:+ message +:+ "</span>"
  end.

(** The line terminators [.] does not match, among the characters below
    128: line feed and carriage return. *)
Definition lineTerminator (c : ascii) : bool :=
  bool_decide (c = ascii_of_nat 10) || bool_decide (c = ascii_of_nat 13).

(** [text.replace(/D(.*?)D/g, (_, match) => f(match))] for the literal
    delimiter [delim], which is not empty.  [pending] is the text read
    since an opening delimiter, [skip] the number of characters of a
    delimiter still to pass over. *)
Fixpoint replace_go (delim : string) (f : string → string) (skip : nat)
    (pending : option string) (text : string) : string :=
  match text with
  | EmptyString =>
      match pending with Some buf => delim +:+ buf | None => EmptyString end
  | String c text' =>
      match skip with
      | S k => replace_go delim f k pending text'
      | 0 =>
          if String.prefix delim text
          then match pending with
               | None =>
                   replace_go delim f (String.length delim - 1)
                     (Some EmptyString) text'
               | Some buf =>
                   f buf +:+ replace_go delim f (String.length delim - 1)
                               None text'
               end
          else if lineTerminator c
          then match pending with
               | None => String c (replace_go delim f 0 None text')
               | Some buf =>
                   delim +:+ buf
                   +:+ String c (replace_go delim f 0 None text')
               end
          else match pending with
               | None => String c (replace_go delim f 0 None text')
               | Some buf =>
                   replace_go delim f 0
                     (Some (buf +:+ String c EmptyString)) text'
               end
      end
  end.

Definition replaceDelimited (delim : string) (f : string → string)
    (text : string) : string :=
  replace_go delim f 0 None text.

(** [text.replace(regexInline, ...)] *)
Definition replaceInline `{Katex} (text : string) : string :=
  replaceDelimited "$" (callback false) text.

(** [text.replace(regexBlock, ...)] *)
Definition replaceBlock `{Katex} (text : string) : string :=
  replaceDelimited "$$" (callback true) text.

(** [const renderMath = (text) => ...]: the HTML of the [<div>]. *)
Definition renderMath `{Katex} (text : string) : string :=
  replaceBlock (replaceInline text).

(** ** Texts without formulas *)

(** The dollar sign. *)
Definition dollar : ascii := "$"%char.

(** No two dollars next to each other. *)
Fixpoint adjFree (s : string) : bool :=
  match s with
  | EmptyString => true
  | String a s' =>
      match s' with
      | EmptyString => true
      | String b _ =>
          negb (bool_decide (a = dollar) && bool_decide (b = dollar))
          && adjFree s'
      end
  end.

Section scan.
Context (f : string → string).
Implicit Types (c : ascii) (s text buf : string).

Lemma prefix_dollar c s :
  String.prefix "$" (String c s) = bool_decide (c = dollar).
Proof.
  apply eq_true_iff_eq. rewrite prefix_spec, bool_decide_eq_true. split.
  - intros [rest Heq]. rewrite append_cons in Heq. by injection Heq.
  - intros ->. by exists s.
Qed.

Lemma prefix_dollars c s :
  String.prefix "$$" (String c s) = true →
  ∃ rest, c = dollar ∧ s = String dollar rest.
Proof.
  intros [rest Heq]%prefix_spec. rewrite !append_cons in Heq.
  injection Heq as -> ->. by exists rest.
Qed.

Lemma without_snoc c buf :
  without dollar buf = true → c ≠ dollar →
  without dollar (buf +:+ String c EmptyString) = true.
Proof.
  intros Hbuf Hc. induction buf as [|a buf IH].
  - simpl. by rewrite bool_decide_eq_false_2.
  - simpl in Hbuf. apply andb_true_iff in Hbuf as [Ha ?].
    rewrite append_cons. simpl. rewrite Ha. auto.
Qed.

Lemma adjFree_cons c s : c ≠ dollar → adjFree (String c s) = adjFree s.
Proof.
  intros Hc. destruct s as [|b s]; [done|].
  cbn [adjFree]. by rewrite (bool_decide_eq_false_2 (c = dollar)).
Qed.

Lemma adjFree_append s1 s2 :
  without dollar s1 = true → adjFree s2 = true → adjFree (s1 +:+ s2) = true.
Proof.
  intros H1 H2. induction s1 as [|a s1 IH]; [done|].
  simpl in H1. apply andb_true_iff in H1 as [Ha%negb_true_iff H1].
  apply bool_decide_eq_false in Ha.
  rewrite append_cons, adjFree_cons by done. auto.
Qed.

(** A dollar before a text that does not start with one. *)
Lemma adjFree_dollar c s :
  c ≠ dollar → adjFree (String c s) = true →
  adjFree (String dollar (String c s)) = true.
Proof.
  intros Hc Hs.
  change (adjFree (String dollar (String c s)))
    with (negb (bool_decide (dollar = dollar) && bool_decide (c = dollar))
          && adjFree (String c s)).
  by rewrite (bool_decide_eq_false_2 (c = dollar)), andb_false_r, Hs.
Qed.

Lemma adjFree_pending buf s :
  without dollar buf = true →
  (s = EmptyString ∨ ∃ c s', s = String c s' ∧ c ≠ dollar) →
  adjFree s = true →
  adjFree ("$" +:+ buf +:+ s) = true.
Proof.
  intros Hbuf Hs Hadj. rewrite append_cons, append_nil.
  destruct buf as [|a buf].
  - rewrite append_nil. destruct Hs as [->|(c & s' & -> & Hc)]; [done|].
    by apply adjFree_dollar.
  - simpl in Hbuf. pose proof Hbuf as [Ha%negb_true_iff _]%andb_true_iff.
    apply bool_decide_eq_false in Ha. rewrite append_cons.
    apply adjFree_dollar; [done|].
    rewrite <-append_cons. by apply adjFree_append.
Qed.

(** A text without a pair of dollars has no block formula. *)
Lemma replace_block_adjFree text :
  adjFree text = true → replace_go "$$" f 0 None text = text.
Proof.
  induction text as [|c text IH]; [done|]. intros Hadj.
  assert (String.prefix "$$" (String c text) = false) as Hp.
  { apply not_true_is_false. intros (rest & -> & ->)%prefix_dollars.
    cbn [adjFree] in Hadj. by rewrite !bool_decide_eq_true_2 in Hadj. }
  assert (adjFree text = true) as Htext.
  { destruct text as [|b text]; [done|]. cbn [adjFree] in Hadj.
    by apply andb_true_iff in Hadj as [_ ?]. }
  cbn [replace_go]. rewrite Hp. destruct (lineTerminator c); by rewrite IH.
Qed.

Lemma lineTerminator_dollar c : lineTerminator c = true → c ≠ dollar.
Proof. by intros Hc ->. Qed.

(** After the inline pass no two dollars are next to each other, when
    what replaces a formula has no dollar. *)
Lemma replace_inline_adjFree text (pending : option string) :
  (∀ tex, without dollar (f tex) = true) →
  (∀ buf, pending = Some buf → without dollar buf = true) →
  adjFree (replace_go "$" f 0 pending text) = true.
Proof.
  intros Hf. revert pending.
  induction text as [|c text IH]; intros pending Hbuf; cbn [replace_go].
  { destruct pending as [buf|]; [|done].
    rewrite <-(append_nil_r buf). apply adjFree_pending; auto. }
  rewrite prefix_dollar. case_bool_decide as Hc.
  { destruct pending as [buf|].
    - apply adjFree_append; [done|]. by apply IH.
    - apply IH. by intros ? [= <-]. }
  destruct (lineTerminator c) eqn:Hline; destruct pending as [buf|];
    rewrite ?adjFree_cons by done; try (by apply IH).
  - apply adjFree_pending; [by apply Hbuf|by right; eauto|].
    rewrite adjFree_cons by done. by apply IH.
  - apply IH. intros ? [= <-]. apply without_snoc; auto.
Qed.

(** A text without a dollar has no formula. *)
Lemma replace_go_plain (delim : string) c0 text :
  without c0 text = true → String.prefix (String c0 EmptyString) delim = true →
  replace_go delim f 0 None text = text.
Proof.
  intros Hfree [rest ->]%prefix_spec. induction text as [|c text IH]; [done|].
  simpl in Hfree. apply andb_true_iff in Hfree as [Hc%negb_true_iff Hfree].
  apply bool_decide_eq_false in Hc.
  assert (String.prefix (String c0 EmptyString +:+ rest) (String c text) = false)
    as Hp.
  { apply not_true_is_false. intros [? Heq]%prefix_spec.
    rewrite !append_cons in Heq. by injection Heq. }
  cbn [replace_go]. rewrite Hp. destruct (lineTerminator c); by rewrite IH.
Qed.
End scan.

(** ** A formula on a line *)

(** A text on one line. *)
Fixpoint oneLine (s : string) : bool :=
  match s with
  | EmptyString => true
  | String c s' => negb (lineTerminator c) && oneLine s'
  end.

Section formula.
Context (f : string → string).
Implicit Types (a tex rest buf : string).

Lemma replace_go_outside a rest :
  without dollar a = true →
  replace_go "$" f 0 None (a +:+ rest) = a +:+ replace_go "$" f 0 None rest.
Proof.
  intros Ha. induction a as [|c a IH]; [done|]. simpl in Ha.
  apply andb_true_iff in Ha as [Hc%negb_true_iff Ha].
  rewrite !append_cons. cbn [replace_go]. rewrite prefix_dollar, Hc.
  destruct (lineTerminator c); by rewrite IH.
Qed.

Lemma replace_go_inside buf tex rest :
  without dollar tex = true → oneLine tex = true →
  replace_go "$" f 0 (Some buf) (tex +:+ rest)
  = replace_go "$" f 0 (Some (buf +:+ tex)) rest.
Proof.
  revert buf. induction tex as [|c tex IH]; intros buf Hd Hl.
  - by rewrite append_nil, append_nil_r.
  - simpl in Hd, Hl. apply andb_true_iff in Hd as [Hc%negb_true_iff Hd].
    apply andb_true_iff in Hl as [Hn%negb_true_iff Hl].
    rewrite append_cons. cbn [replace_go]. rewrite prefix_dollar, Hc, Hn.
    rewrite IH by done. by rewrite append_assoc.
Qed.

Lemma replace_go_open rest :
  replace_go "$" f 0 None ("$" +:+ rest)
  = replace_go "$" f 0 (Some EmptyString) rest.
Proof.
  rewrite append_cons, append_nil. cbn [replace_go].
  by rewrite prefix_dollar, bool_decide_eq_true_2.
Qed.

Lemma replace_go_close buf rest :
  replace_go "$" f 0 (Some buf) ("$" +:+ rest)
  = f buf +:+ replace_go "$" f 0 None rest.
Proof.
  rewrite append_cons, append_nil. cbn [replace_go].
  by rewrite prefix_dollar, bool_decide_eq_true_2.
Qed.

(** A formula between two dollars on a line, after a text without a
    dollar. *)
Lemma replace_formula a tex rest :
  without dollar a = true → without dollar tex = true → oneLine tex = true →
  replaceDelimited "$" f (a +:+ "$" +:+ tex +:+ "$" +:+ rest)
  = a +:+ f tex +:+ replaceDelimited "$" f rest.
Proof.
  intros Ha Ht Hl. unfold replaceDelimited.
  by rewrite replace_go_outside, replace_go_open, replace_go_inside,
    replace_go_close by done.
Qed.
End formula.

(** ** What [renderMath] does *)

Section renderMath.
Context `{Katex}.

(** Katex's HTML and error messages hold no dollar sign. *)
Definition dollarFree : Prop :=
  ∀ displayMode tex, without dollar (callback displayMode tex) = true.

Lemma renderMath_inline (text : string) :
  dollarFree → renderMath text = replaceInline text.
Proof.
  intros Hk. unfold renderMath, replaceBlock, replaceDelimited.
  apply replace_block_adjFree, replace_inline_adjFree; [apply Hk|done].
Qed.
End renderMath.

(** C35. The display mode is never used: when katex's output holds no
    dollar sign, the second replacement of [renderMath] finds nothing to
    replace, whatever the text, because the first has consumed every pair
    of dollars of a line; and a text without a dollar is shown as it
    is. *)
Theorem renderMath_block_dead `{Katex} (text : string) :
  dollarFree →
  renderMath text = replaceInline text
  ∧ (without dollar text = true → renderMath text = text).
Proof.
  intros Hk. rewrite renderMath_inline by done. split; [done|].
  intros Hfree. by apply (replace_go_plain _ _ dollar).
Qed.

(** A rendering that stands for katex in the examples. *)
Definition boxKatex : Katex :=
  {| renderToString displayMode tex :=
       if decide (tex = "\frac") then inr "unexpected end of input"
       else inl ((if displayMode then "<div>" else "<span>") +:+ tex
                 +:+ (if displayMode then "</div>" else "</span>")) |}.

Example renderMath_inline_example :
  @renderMath boxKatex "Die Leistung $P = U I$ steigt."
  = "Die Leistung <span>P = U I</span> steigt.".
Proof. by vm_compute. Qed.

(** A formula written for display mode comes out as two empty inline
    formulas around its source. *)
Example renderMath_display_example :
  @renderMath boxKatex "$$P = U I$$" = "<span></span>P = U I<span></span>".
Proof. by vm_compute. Qed.

(** Two amounts of money on one line are a formula. *)
Example renderMath_prices_example :
  @renderMath boxKatex "von 5 $ bis 10 $ je Stunde"
  = "von 5 <span> bis 10 </span> je Stunde".
Proof. by vm_compute. Qed.

(** The rendering of [x] between dollars, with a rendering whose output
    has no dollar. *)
Definition plainKatex : Katex :=
  {| renderToString displayMode tex := inl "<span class=katex></span>" |}.

Lemma renderMath_block_dead_witness :
  @renderMath plainKatex "a $$x$$ b" = @replaceInline plainKatex "a $$x$$ b"
  ∧ (without dollar "a $$x$$ b" = true
     → @renderMath plainKatex "a $$x$$ b" = "a $$x$$ b").
Proof. apply (@renderMath_block_dead plainKatex). by intros ??. Defined.

(** C36. A formula between two dollars on one line is replaced by what
    katex renders for it in inline mode, the text before it is kept, and
    the replacement goes on behind it. *)
Theorem replaceInline_formula `{Katex} (a tex rest : string) :
  without dollar a = true → without dollar tex = true → oneLine tex = true →
  replaceInline (a +:+ "$" +:+ tex +:+ "$" +:+ rest)
  = a +:+ callback false tex +:+ replaceInline rest.
Proof. apply replace_formula. Qed.

Lemma replaceInline_formula_witness :
  @replaceInline boxKatex ("U = " +:+ "$" +:+ "R I" +:+ "$" +:+ " gilt.")
  = "U = " +:+ @callback boxKatex false "R I"
    +:+ @replaceInline boxKatex " gilt.".
Proof. by apply (@replaceInline_formula boxKatex). Defined.
