(* ===== verification/ExamConfig.v ===== *)
(** * ExamConfig: the exam scheme registry

    [examConfig] (App.tsx, lines 167-276) maps each exam type to the parts
    it consists of.  The object literal is transcribed entry by entry, in
    the order of its keys, which is the order [Object.keys] lists them in.
    A part's [filter] is a function on shuffled questions; the field is
    named [filter_] because [filter] is the list operation. *)

From S2P Require Import Prelude Random Shuffle Question JsString.

(** [interface ExamPartConfig] *)
Record ExamPartConfig := {
  label : string;
  count : nat;
  filter_ : ShuffledQuestion → bool;
  durationMin : nat;
}.

(** [interface ExamQuestion] *)
Record ExamQuestion := {
  partLabel : string;
  eq_question : ShuffledQuestion;
}.

#[export] Instance ExamQuestion_eq_dec : EqDecision ExamQuestion.
Proof. solve_decision. Defined.

(** [const examConfig: Record<string, ExamPartConfig[]>] *)
Definition examConfig : list (string * list ExamPartConfig) :=
[
  ("N",
   [
     {| label := "Vorschriften (V)";
        count := 25;
        filter_ := λ q, existsb (λ p, includes p "Vorschriften") (categoryPath q);
        durationMin := 45 |};
     {| label := "Betriebliche Kenntnisse (B)";
        count := 25;
        filter_ := λ q, existsb (λ p, includes p "Betriebliche Kenntnisse") (categoryPath q);
        durationMin := 45 |};
     {| label := "Technik N (N)";
        count := 25;
        filter_ := λ q, existsb (λ p, includes p "Technische Kenntnisse") (categoryPath q)
                   && bool_decide (class q = "1");
        durationMin := 45 |}
   ]);
  ("E",
   [
     {| label := "Vorschriften (V)";
        count := 25;
        filter_ := λ q, existsb (λ p, includes p "Vorschriften") (categoryPath q);
        durationMin := 45 |};
     {| label := "Betriebliche Kenntnisse (B)";
        count := 25;
        filter_ := λ q, existsb (λ p, includes p "Betriebliche Kenntnisse") (categoryPath q);
        durationMin := 45 |};
     {| label := "Technik N (N)";
        count := 25;
        filter_ := λ q, existsb (λ p, includes p "Technische Kenntnisse") (categoryPath q)
                   && bool_decide (class q = "1");
        durationMin := 45 |};
     {| label := "Technik E (E)";
        count := 25;
        filter_ := λ q, existsb (λ p, includes p "Technische Kenntnisse") (categoryPath q)
                   && bool_decide (class q = "2");
        durationMin := 45 |}
   ]);
  ("A",
   [
     {| label := "Vorschriften (V)";
        count := 25;
        filter_ := λ q, existsb (λ p, includes p "Vorschriften") (categoryPath q);
        durationMin := 45 |};
     {| label := "Betriebliche Kenntnisse (B)";
        count := 25;
        filter_ := λ q, existsb (λ p, includes p "Betriebliche Kenntnisse") (categoryPath q);
        durationMin := 45 |};
     {| label := "Technik N (N)";
        count := 25;
        filter_ := λ q, existsb (λ p, includes p "Technische Kenntnisse") (categoryPath q)
                   && bool_decide (class q = "1");
        durationMin := 45 |};
     {| label := "Technik E (E)";
        count := 25;
        filter_ := λ q, existsb (λ p, includes p "Technische Kenntnisse") (categoryPath q)
                   && bool_decide (class q = "2");
        durationMin := 45 |};
     {| label := "Technik A (A)";
        count := 25;
        filter_ := λ q, existsb (λ p, includes p "Technische Kenntnisse") (categoryPath q)
                   && bool_decide (class q = "3");
        durationMin := 60 |}
   ]);
  ("N->E",
   [
     {| label := "Technik E (E)";
        count := 25;
        filter_ := λ q, existsb (λ p, includes p "Technische Kenntnisse") (categoryPath q)
                   && bool_decide (class q = "2");
        durationMin := 45 |}
   ]);
  ("N->A",
   [
     {| label := "Technik E (E)";
        count := 25;
        filter_ := λ q, existsb (λ p, includes p "Technische Kenntnisse") (categoryPath q)
                   && bool_decide (class q = "2");
        durationMin := 45 |};
     {| label := "Technik A (A)";
        count := 25;
        filter_ := λ q, existsb (λ p, includes p "Technische Kenntnisse") (categoryPath q)
                   && bool_decide (class q = "3");
        durationMin := 60 |}
   ]);
  ("E->A",
   [
     {| label := "Technik A (A)";
        count := 25;
        filter_ := λ q, existsb (λ p, includes p "Technische Kenntnisse") (categoryPath q)
                   && bool_decide (class q = "3");
        durationMin := 60 |}
   ])
].

(** [examConfig[examType]]; [None] is [undefined]. *)
Definition lookupConfig (examType : string) : option (list ExamPartConfig) :=
  snd <$> find (λ kv, bool_decide (kv.1 = examType)) examConfig.

(** [Object.keys(examConfig)] *)
Definition examTypes : list string := fst <$> examConfig.

(** ** The predicates the filters compute *)

Definition inCategory (cat : string) (q : ShuffledQuestion) : Prop :=
  ∃ p, p ∈ categoryPath q ∧ includes p cat = true.

(** ** The registry, written once per part

    The literal above spells every part out under every exam type.  The
    five distinct parts and the way the six schemes share them: *)

Definition inCategoryb (cat : string) (q : ShuffledQuestion) : bool :=
  existsb (λ p, includes p cat) (categoryPath q).

Definition vorschriften : ExamPartConfig :=
  {| label := "Vorschriften (V)"; count := 25;
     filter_ := λ q, inCategoryb "Vorschriften" q; durationMin := 45 |}.
Definition betrieb : ExamPartConfig :=
  {| label := "Betriebliche Kenntnisse (B)"; count := 25;
     filter_ := λ q, inCategoryb "Betriebliche Kenntnisse" q;
     durationMin := 45 |}.
Definition technik (name cls : string) (minutes : nat) : ExamPartConfig :=
  {| label := name; count := 25;
     filter_ := λ q, inCategoryb "Technische Kenntnisse" q
                     && bool_decide (class q = cls);
     durationMin := minutes |}.
Definition technikN := technik "Technik N (N)" "1" 45.
Definition technikE := technik "Technik E (E)" "2" 45.
Definition technikA := technik "Technik A (A)" "3" 60.

Definition schemeN : list ExamPartConfig := [vorschriften; betrieb; technikN].
Definition upgradeNE : list ExamPartConfig := [technikE].
Definition upgradeEA : list ExamPartConfig := [technikA].

Definition referenceConfig : list (string * list ExamPartConfig) :=
  [ ("N", schemeN);
    ("E", schemeN ++ upgradeNE);
    ("A", schemeN ++ upgradeNE ++ upgradeEA);
    ("N->E", upgradeNE);
    ("N->A", upgradeNE ++ upgradeEA);
    ("E->A", upgradeEA) ].

(** ** Theorems *)

Lemma examConfig_reference : examConfig = referenceConfig.
Proof. reflexivity. Qed.

Lemma examTypes_eq : examTypes = ["N"; "E"; "A"; "N->E"; "N->A"; "E->A"].
Proof. reflexivity. Qed.

Lemma examTypes_NoDup : NoDup examTypes.
Proof. by apply (bool_decide_unpack _). Qed.

Lemma lookupConfig_is_Some (examType : string) :
  is_Some (lookupConfig examType) ↔ examType ∈ examTypes.
Proof.
  unfold lookupConfig, examTypes. rewrite fmap_is_Some.
  induction examConfig as [|[k v] l IH]; simpl.
  - rewrite elem_of_nil. split; [by intros [? ?]|done].
  - rewrite elem_of_cons. case_bool_decide; simplify_eq/=.
    + split; eauto.
    + rewrite IH. split; [auto|]. intros [?|?]; [congruence|done].
Qed.

Lemma lookupConfig_elem_of (examType : string) parts :
  lookupConfig examType = Some parts → (examType, parts) ∈ examConfig.
Proof.
  unfold lookupConfig. intros Hl.
  apply fmap_Some in Hl as ([k v] & Hf & ->).
  apply find_some in Hf as [Hin Hk]. apply bool_decide_eq_true in Hk.
  simpl in *. subst. by apply list_elem_of_In.
Qed.

(** What holds of every part of every scheme. *)
Definition part_ok (part : ExamPartConfig) : Prop :=
  count part = 25 ∧
  durationMin part = (if bool_decide (label part = "Technik A (A)")
                      then 60 else 45).

#[export] Instance part_ok_dec part : Decision (part_ok part).
Proof. unfold part_ok. apply _. Defined.

Lemma examConfig_parts_ok : Forall (λ kv, Forall part_ok kv.2) examConfig.
Proof. by apply (bool_decide_unpack _). Qed.

Lemma examConfig_nonempty : Forall (λ kv, kv.2 ≠ []) examConfig.
Proof. repeat constructor; done. Qed.

Lemma examConfig_labels_NoDup : Forall (λ kv, NoDup (label <$> kv.2)) examConfig.
Proof. by apply (bool_decide_unpack _). Qed.

Lemma inCategoryb_spec cat q : inCategoryb cat q = true ↔ inCategory cat q.
Proof. apply existsb_includes_spec. Qed.

Lemma technik_filter_spec name cls minutes q :
  filter_ (technik name cls minutes) q = true
  ↔ inCategory "Technische Kenntnisse" q ∧ class q = cls.
Proof.
  simpl. by rewrite andb_true_iff, inCategoryb_spec, bool_decide_eq_true.
Qed.

Section lookup.
Context (examType : string) (parts : list ExamPartConfig).
Context (Hlookup : lookupConfig examType = Some parts).

Lemma lookupConfig_parts_ok : Forall part_ok parts.
Proof.
  apply lookupConfig_elem_of in Hlookup.
  by apply (proj1 (Forall_forall _ _) examConfig_parts_ok (examType, parts)).
Qed.

Lemma lookupConfig_nonempty : parts ≠ [].
Proof.
  apply lookupConfig_elem_of in Hlookup.
  by apply (proj1 (Forall_forall _ _) examConfig_nonempty (examType, parts)).
Qed.

Lemma lookupConfig_count part : part ∈ parts → count part = 25.
Proof.
  intros Hp. by apply (proj1 (Forall_forall _ _) lookupConfig_parts_ok part).
Qed.

Lemma lookupConfig_first : is_Some (parts !! 0).
Proof. pose proof lookupConfig_nonempty. by destruct parts; eauto. Qed.
End lookup.

(** The schemes are cumulative: [E] is [N] followed by the upgrade
    from [N] to [E], [A] is [E] followed by the upgrade from [E] to [A],
    and the upgrade from [N] to [A] is the two upgrades in a row. *)
Theorem examConfig_cumulative :
  ∃ n e a ne na ea,
    lookupConfig "N" = Some n ∧ lookupConfig "E" = Some e ∧
    lookupConfig "A" = Some a ∧ lookupConfig "N->E" = Some ne ∧
    lookupConfig "N->A" = Some na ∧ lookupConfig "E->A" = Some ea ∧
    e = n ++ ne ∧ a = e ++ ea ∧ a = n ++ na ∧ na = ne ++ ea.
Proof. by repeat eexists. Qed.

(** C38. Every part of every scheme asks 25 questions and lasts 45
    minutes, except the class A technical part, which lasts 60; no scheme
    is empty and no scheme names a part twice. *)
Theorem examConfig_parts (examType : string) (parts : list ExamPartConfig) :
  lookupConfig examType = Some parts →
  parts ≠ [] ∧ NoDup (label <$> parts) ∧ Forall part_ok parts.
Proof.
  intros Hl. split_and!; eauto using lookupConfig_nonempty, lookupConfig_parts_ok.
  apply lookupConfig_elem_of in Hl.
  by apply (proj1 (Forall_forall _ _) examConfig_labels_NoDup (examType, parts)).
Qed.

Lemma examConfig_parts_witness :
  [technikE; technikA] ≠ [] ∧ NoDup (label <$> [technikE; technikA]) ∧
  Forall part_ok [technikE; technikA].
Proof. by apply (examConfig_parts "N->A"). Defined.
