(* ===== verification/PartBuilder.v ===== *)
(** * PartBuilder: drawing the questions of one exam part

    The callback of [parts.map] in [startSimulation] (App.tsx, lines
    285-290): filter the catalogue with the part's predicate, shuffle, take
    the first [count] questions, and while the selection is short of
    [count] and the pool is not empty, append the pool's question at the
    selection's length modulo the pool's length.  The loop is defined by
    well-founded recursion on what is missing, [count - sel.length]; one
    pass of it is the relation [padStep], of which the function computes
    the normal form. *)

From Equations Require Import Equations.
From stdpp Require Import relations well_founded.
From S2P Require Import Prelude Random Shuffle Question JsString ExamConfig.

#[local] Open Scope rand_scope.

(** [while (sel.length < count && pool.length)
       sel.push(pool[sel.length % pool.length]);]
    An index modulo the length of a non-empty pool is in range, so the
    [None] branch is never taken ([padLoop_no_undefined]). *)
Equations? padLoop {A} (count : nat) (pool sel : list A) : list A
    by wf (count - length sel) lt :=
  padLoop count pool sel
    with decide (length sel < count ∧ length pool ≠ 0) => {
    | left _ with pool !! (length sel `mod` length pool) => {
        | Some q => padLoop count pool (sel ++ [q]);
        | None => sel };
    | right _ => sel }.
Proof. rewrite length_app. simpl. lia. Qed.

(** One pass through the loop: the guard holds and the body pushes the
    pool's question at the selection's length modulo the pool's length. *)
Inductive padStep {A} (count : nat) (pool : list A) : relation (list A) :=
  | padStep_push sel q :
      length sel < count → length pool ≠ 0 →
      pool !! (length sel `mod` length pool) = Some q →
      padStep count pool sel (sel ++ [q]).

(** The passes the loop makes from a selection [sel]. *)
Definition padPasses {A} (count : nat) (pool sel : list A) : nat :=
  if decide (length pool = 0) then 0 else count - length sel.

(** The body of [parts.map((part) => ...)]. *)
Definition buildPart `{ArraySort} (questions : list ShuffledQuestion)
    (part : ExamPartConfig) : Rand (list ExamQuestion) :=
  pool <~ shuffleArray (filter (λ q, filter_ part q) questions);;
  let sel := take (count part) pool in
  let sel := padLoop (count part) pool sel in
  ret ((λ q, {| partLabel := label part; eq_question := q |}) <$> sel).

(** [const pools = parts.map(...)] *)
Definition buildPools `{ArraySort} (questions : list ShuffledQuestion)
    (parts : list ExamPartConfig) : Rand (list (list ExamQuestion)) :=
  mapR (buildPart questions) parts.

(** ** Reference: cyclic repetition

    [cycleTo n pool] lists [pool[i mod |pool|]] for [i] below [n]; it is
    empty when the pool is. *)
Definition cycleTo {A} (n : nat) (pool : list A) : list A :=
  omap (λ i, pool !! (i `mod` length pool)) (seq 0 n).

(** A pool built for a part: empty, or of the part's size; its questions
    carry the part's label, satisfy its predicate and are well formed. *)
Definition pool_of (part : ExamPartConfig) (pool : list ExamQuestion) : Prop :=
  (pool = [] ∨ length pool = count part) ∧
  Forall (λ eq, partLabel eq = label part
                ∧ filter_ part (eq_question eq) = true
                ∧ wf_question (eq_question eq)) pool.

(** ** [cycleTo] *)

Section cycleTo.
Context {A : Type}.
Implicit Types (pool sel : list A) (n i : nat).

Lemma cycleTo_nil n : cycleTo n (@nil A) = [].
Proof. unfold cycleTo. by induction (seq 0 n). Qed.

Lemma cycleTo_S n pool q :
  pool !! (n `mod` length pool) = Some q →
  cycleTo (S n) pool = cycleTo n pool ++ [q].
Proof.
  intros Hq. unfold cycleTo. rewrite seq_S, omap_app. simpl. by rewrite Hq.
Qed.

Lemma length_cycleTo n pool : pool ≠ [] → length (cycleTo n pool) = n.
Proof.
  intros Hp. induction n as [|n IH]; [done|].
  destruct (lookup_mod_is_Some pool n Hp) as [q Hq].
  rewrite (cycleTo_S _ _ _ Hq), length_app, IH. simpl. lia.
Qed.

Lemma cycleTo_lookup n pool i :
  i < n → pool ≠ [] → cycleTo n pool !! i = pool !! (i `mod` length pool).
Proof.
  intros Hi Hp. induction n as [|n IH]; [lia|].
  destruct (lookup_mod_is_Some pool n Hp) as [q Hq].
  rewrite (cycleTo_S _ _ _ Hq).
  destruct (decide (i = n)) as [->|].
  - rewrite lookup_app_r; rewrite length_cycleTo by done; [|lia].
    by rewrite Nat.sub_diag.
  - rewrite lookup_app_l by (rewrite length_cycleTo by done; lia).
    apply IH. lia.
Qed.

(** Up to the pool's length, cycling is taking a prefix. *)
Lemma cycleTo_take n pool : n ≤ length pool → cycleTo n pool = take n pool.
Proof.
  intros Hn. destruct (decide (pool = [])) as [->|Hp].
  { by rewrite cycleTo_nil, take_nil. }
  apply list_eq. intros i. destruct (decide (i < n)).
  - rewrite cycleTo_lookup, lookup_take_lt, Nat.mod_small by (done || lia). done.
  - rewrite !lookup_ge_None_2; [done| |].
    + rewrite length_take. lia.
    + rewrite length_cycleTo by done. lia.
Qed.

Lemma cycleTo_elem_of n pool q : q ∈ cycleTo n pool → q ∈ pool.
Proof.
  unfold cycleTo. rewrite list_elem_of_omap.
  intros (i & _ & Hq). by eapply list_elem_of_lookup_2.
Qed.
End cycleTo.

(** ** The loop computes the cyclic repetition *)

Section padLoop.
Context {A : Type}.
Implicit Types (pool sel : list A) (count : nat).

Lemma padLoop_cycleTo count pool sel :
  length sel ≤ count → sel = cycleTo (length sel) pool →
  padLoop count pool sel = cycleTo count pool.
Proof.
  funelim (padLoop count pool sel); intros Hlen Hsel.
  - (* the loop is over *)
    destruct (decide (length pool = 0)) as [Hp%length_zero_iff_nil'|Hp].
    + subst pool. by rewrite cycleTo_nil in *.
    + by assert (length sel = count) as <- by lia.
  - (* one more question *)
    match goal with IH : _ → _ → padLoop _ _ _ = _ |- _ => apply IH end;
      rewrite length_app; simpl; [lia|].
    rewrite Nat.add_1_r. erewrite cycleTo_S by done. by rewrite <-Hsel.
  - (* the index is in range *)
    match goal with H : _ ∧ length pool ≠ 0 |- _ => pose proof (proj2 H) as Hp end.
    rewrite length_zero_iff_nil' in Hp.
    destruct (lookup_mod_is_Some pool (length sel) Hp) as [? ?]. congruence.
Qed.

(** *** The loop ends *)

Lemma padStep_measure count pool sel sel' :
  padStep count pool sel sel' → count - length sel' < count - length sel.
Proof. intros [? q ? _ _]. rewrite length_app. simpl. lia. Qed.

(** No run of the loop goes on for ever. *)
Lemma padStep_sn count pool sel : sn (padStep count pool) sel.
Proof.
  apply (wf_projected lt (λ sel, count - length sel)); [|apply lt_wf].
  intros sel1 sel2. apply padStep_measure.
Qed.

(** The loop has one way to go. *)
Lemma padStep_deterministic count pool sel sel1 sel2 :
  padStep count pool sel sel1 → padStep count pool sel sel2 → sel1 = sel2.
Proof. intros [] Hstep. inversion Hstep. by simplify_list_eq. Qed.

(** Where the function stops the loop cannot go on. *)
Lemma padLoop_nf count pool sel : nf (padStep count pool) (padLoop count pool sel).
Proof.
  funelim (padLoop count pool sel); [|done|]; intros [sel' Hstep];
    destruct Hstep; naive_solver.
Qed.

(** The function makes the passes of the loop, one by one. *)
Lemma padLoop_nsteps count pool sel :
  nsteps (padStep count pool) (padPasses count pool sel) sel
    (padLoop count pool sel).
Proof.
  funelim (padLoop count pool sel); unfold padPasses in *;
    destruct (decide (length pool = 0)) as [Hp|Hp];
    try (constructor || naive_solver).
  - replace (count - length sel) with 0 by lia. constructor.
  - match goal with
    | Hg : _ ∧ _, IH : nsteps _ _ _ _ |- _ =>
        pose proof (proj1 Hg) as Hlt; rewrite length_app in IH; simpl in IH
    end.
    replace (count - length sel) with (S (count - (length sel + 1))) by lia.
    eapply nsteps_l; [by apply padStep_push|done].
  - rewrite length_zero_iff_nil' in Hp.
    destruct (lookup_mod_is_Some pool (length sel) Hp) as [? ?]. congruence.
Qed.

(** The [None] branch of the loop is dead: a non-empty pool has a question
    at every index modulo its length. *)
Lemma padLoop_no_undefined pool sel :
  pool ≠ [] → is_Some (pool !! (length sel `mod` length pool)).
Proof. apply lookup_mod_is_Some. Qed.
End padLoop.

(** ** [buildPart] *)

Section buildPart.
Context `{ArraySort}.
Context (questions : list ShuffledQuestion) (part : ExamPartConfig) (g : Rng).

(** The questions the part's predicate accepts, and the pool: the same
    questions in the order the shuffle leaves them in. *)
Definition matching : list ShuffledQuestion :=
  filter (λ q, filter_ part q) questions.
Definition poolOf : list ShuffledQuestion := (shuffleArray matching g).1.

Definition tag (q : ShuffledQuestion) : ExamQuestion :=
  {| partLabel := label part; eq_question := q |}.

Lemma poolOf_Permutation : poolOf ≡ₚ matching.
Proof. apply shuffleArray_Permutation. Qed.

Lemma length_poolOf : length poolOf = length matching.
Proof. apply length_shuffleArray. Qed.

Lemma poolOf_nil_iff : poolOf = [] ↔ matching = [].
Proof. apply shuffleArray_nil_iff. Qed.

Lemma take_cycleTo {A} n (pool : list A) :
  take n pool = cycleTo (length (take n pool)) pool.
Proof.
  rewrite cycleTo_take by (rewrite length_take; lia).
  rewrite length_take. destruct (decide (n ≤ length pool)).
  - by rewrite Nat.min_l.
  - by rewrite Nat.min_r, !take_ge by lia.
Qed.

(** The selection is the pool repeated cyclically up to [count]. *)
Lemma buildPart_run :
  buildPart questions part g
  = (tag <$> cycleTo (count part) poolOf, (shuffleArray matching g).2).
Proof.
  unfold buildPart. rewrite bind_run. fold matching. fold poolOf. simpl.
  rewrite padLoop_cycleTo; [done| |apply take_cycleTo].
  rewrite length_take. lia.
Qed.

Lemma buildPart_length_nonempty :
  matching ≠ [] → length (buildPart questions part g).1 = count part.
Proof.
  intros Hm. rewrite buildPart_run. simpl.
  rewrite length_fmap, length_cycleTo; [done|]. by rewrite poolOf_nil_iff.
Qed.

Lemma buildPart_empty :
  matching = [] → (buildPart questions part g).1 = [].
Proof.
  intros Hm%poolOf_nil_iff. rewrite buildPart_run. simpl.
  by rewrite Hm, cycleTo_nil.
Qed.

Lemma buildPart_lookup i :
  i < count part → matching ≠ [] →
  (buildPart questions part g).1 !! i
  = tag <$> poolOf !! (i `mod` length matching).
Proof.
  intros Hi Hm. rewrite buildPart_run. simpl.
  rewrite list_lookup_fmap, cycleTo_lookup by (done || by rewrite poolOf_nil_iff).
  by rewrite length_poolOf.
Qed.

Lemma buildPart_elem_of eq :
  eq ∈ (buildPart questions part g).1 →
  partLabel eq = label part ∧ filter_ part (eq_question eq) = true ∧
  eq_question eq ∈ questions.
Proof.
  rewrite buildPart_run. simpl. rewrite list_elem_of_fmap.
  intros (q & -> & Hq%cycleTo_elem_of). simpl.
  rewrite poolOf_Permutation in Hq.
  apply list_elem_of_filter in Hq as [Hf Hq]. by destruct (filter_ part q).
Qed.

(** With enough matching questions nothing is repeated. *)
Lemma buildPart_NoDup :
  count part ≤ length matching → NoDup questions →
  NoDup (buildPart questions part g).1.
Proof.
  intros Hc Hnd. rewrite buildPart_run. simpl.
  rewrite cycleTo_take by by rewrite length_poolOf.
  apply NoDup_fmap_2; [by intros ?? [=]|].
  eapply sublist_NoDup; [|apply sublist_take].
  rewrite poolOf_Permutation. by apply NoDup_filter.
Qed.

(** With too few, every matching question is asked. *)
Lemma buildPart_all_asked q :
  length matching ≤ count part → q ∈ matching →
  tag q ∈ (buildPart questions part g).1.
Proof.
  intros Hc Hq. rewrite <-poolOf_Permutation in Hq.
  apply list_elem_of_lookup in Hq as [i Hi].
  pose proof (lookup_lt_Some _ _ _ Hi) as Hlt.
  assert (matching ≠ []) as Hm.
  { rewrite <-poolOf_nil_iff. intros Hp. by rewrite Hp in Hi. }
  rewrite length_poolOf in Hlt.
  apply list_elem_of_lookup. exists i.
  rewrite buildPart_lookup, Nat.mod_small, Hi by (done || lia). done.
Qed.
End buildPart.

(** ** [buildPools] *)

Section buildPools.
Context `{ArraySort}.
Implicit Types (questions : list ShuffledQuestion) (g : Rng).
Implicit Types (parts : list ExamPartConfig) (part : ExamPartConfig).

Lemma length_buildPools questions parts g :
  length (buildPools questions parts g).1 = length parts.
Proof. apply length_mapR. Qed.

Lemma buildPools_lookup questions parts g i pool :
  (buildPools questions parts g).1 !! i = Some pool →
  ∃ part g', parts !! i = Some part ∧ pool = (buildPart questions part g').1.
Proof. apply mapR_lookup. Qed.

Lemma buildPart_pool_of questions part g :
  Forall wf_question questions → pool_of part (buildPart questions part g).1.
Proof.
  intros Hwf. split.
  - destruct (decide (matching questions part = [])) as [Hm|Hm].
    + left. by apply buildPart_empty.
    + right. by apply buildPart_length_nonempty.
  - apply Forall_forall. intros eq (? & ? & Hq)%buildPart_elem_of.
    split_and!; [done..|]. by apply (proj1 (Forall_forall _ _) Hwf).
Qed.

Lemma buildPools_pool_of questions parts g :
  Forall wf_question questions →
  Forall2 pool_of parts (buildPools questions parts g).1.
Proof.
  intros Hwf. apply Forall2_same_length_lookup_2.
  { by rewrite length_buildPools. }
  intros i part pool Hpart (part' & g' & Hpart' & ->)%buildPools_lookup.
  simplify_eq. by apply buildPart_pool_of.
Qed.

(** When every part has a matching question every pool has the part's
    size. *)
Lemma buildPools_lengths questions parts g :
  Forall (λ part, matching questions part ≠ []) parts →
  length <$> (buildPools questions parts g).1 = count <$> parts.
Proof.
  intros Hm. apply list_eq_same_length with (length parts);
    rewrite ?length_fmap, ?length_buildPools; [done..|].
  intros i n m _. rewrite !list_lookup_fmap.
  destruct (_ !! i) as [pool|] eqn:Hpool; [simpl|done].
  apply buildPools_lookup in Hpool as (part & g' & Hpart & ->).
  rewrite Hpart. simpl. intros [= <-] [= <-].
  apply buildPart_length_nonempty.
  by apply (proj1 (Forall_lookup _ _) Hm i).
Qed.

Lemma buildPools_lookup_is_Some questions parts g i :
  is_Some ((buildPools questions parts g).1 !! i) ↔ i < length parts.
Proof. by rewrite lookup_lt_is_Some, length_buildPools. Qed.
End buildPools.

(** C3. A part is built by cyclic repetition of the shuffled pool: question
    [i] of the part is the pool's question at [i] modulo the pool's length,
    tagged with the part's label, the pool being the questions the part's
    predicate accepts in some order. *)
Theorem buildPart_cyclic `{ArraySort} (questions : list ShuffledQuestion)
    (part : ExamPartConfig) (g : Rng) :
  ∃ pool,
    pool ≡ₚ filter (λ q, filter_ part q) questions ∧
    (buildPart questions part g).1 = tag part <$> cycleTo (count part) pool.
Proof.
  exists (poolOf questions part g). split; [apply poolOf_Permutation|].
  by rewrite buildPart_run.
Qed.

(** C4. A part has exactly [count] questions when some question of the
    catalogue satisfies its predicate, and none at all otherwise: the
    guard [pool.length] of the loop keeps an empty pool from being
    indexed. *)
Theorem buildPart_length `{ArraySort} (questions : list ShuffledQuestion)
    (part : ExamPartConfig) (g : Rng) :
  length (buildPart questions part g).1
  = if decide (filter (λ q, filter_ part q) questions = []) then 0
    else count part.
Proof.
  case_decide as Hm.
  - by rewrite buildPart_empty.
  - by rewrite buildPart_length_nonempty.
Qed.

(** C37. Every question of a part carries the part's label, satisfies the
    part's predicate and comes from the catalogue. *)
Theorem buildPart_sound `{ArraySort} (questions : list ShuffledQuestion)
    (part : ExamPartConfig) (g : Rng) :
  Forall (λ eq, partLabel eq = label part ∧
                filter_ part (eq_question eq) = true ∧
                eq_question eq ∈ questions)
         (buildPart questions part g).1.
Proof. apply Forall_forall. intros eq. apply buildPart_elem_of. Qed.

(** C5. The padding loop ends: no run of it goes on for ever, it makes
    [count - sel.length] passes when the pool is not empty and none when
    it is, and where it stops, at the list the function returns, the
    guard is false. *)
Theorem padLoop_terminates {A} (count : nat) (pool sel : list A) :
  sn (padStep count pool) sel
  ∧ nsteps (padStep count pool) (padPasses count pool sel) sel
      (padLoop count pool sel)
  ∧ nf (padStep count pool) (padLoop count pool sel).
Proof.
  split_and!; [apply padStep_sn|apply padLoop_nsteps|apply padLoop_nf].
Qed.

(** Two questions padded to five: three passes. *)
Example padLoop_example :
  padLoop 5 ["a"; "b"] ["a"; "b"] = ["a"; "b"; "a"; "b"; "a"]
  ∧ padPasses 5 ["a"; "b"] ["a"; "b"] = 3.
Proof. by vm_compute. Qed.
