(* ===== verification/Scorer.v ===== *)
(** * Scorer: pass marks and percentages

    The arithmetic of the settings card, the part summary and the final
    result (App.tsx, lines 429-432, 553, 567-571).  A JavaScript number is
    a [Number]: a rational, [Infinity] or [NaN]; a division by zero gives
    one of the last two.  Finite quotients are exact rationals here.  The
    engine computes them in binary floating point; for the 25 questions
    every configured part has, [corr / 25] is compared with [0.75], which
    is a binary fraction, and [corr / 25 * 100] is within [1e-13] of the
    integer [4 * corr], so both computations give what the exact ones
    give. *)

From Stdlib Require Import QArith Qround.
From S2P Require Import Prelude Random Shuffle Question JsString ExamConfig.

Close Scope Q_scope.

(** ** Numbers *)

Inductive Number : Type :=
  | Finite (q : Q)
  | Infinity
  | NaN.

(** [n / d] for two array lengths. *)
Definition divide (n d : nat) : Number :=
  match d with
  | 0 => if decide (n = 0) then NaN else Infinity
  | S _ => Finite (Z.of_nat n # Pos.of_nat d)
  end.

(** [x * 100] *)
Definition times100 (x : Number) : Number :=
  match x with
  | Finite q => Finite (q * 100)%Q
  | Infinity => Infinity
  | NaN => NaN
  end.

(** [x >= y] for a finite [y]; a comparison with [NaN] is false. *)
Definition geq (x : Number) (y : Q) : bool :=
  match x with
  | Finite q => Qle_bool y q
  | Infinity => true
  | NaN => false
  end.

(** [Math.round(x)]: the integer nearest to [x], a tie going up. *)
Definition Math_round (x : Number) : Number :=
  match x with
  | Finite q => Finite (inject_Z (Qfloor (q + (1 # 2))%Q))
  | Infinity => Infinity
  | NaN => NaN
  end.

(** ** The scorer *)

(** [res.filter((x) => x).length] *)
Definition correctCount (res : list bool) : nat :=
  length (filter (λ x, x = true) res).

(** [const passed = res.length === part.count &&
       res.filter((x) => x).length / part.count >= 0.75;] *)
Definition passed (res : list bool) (part : ExamPartConfig) : bool :=
  bool_decide (length res = count part)
  && geq (divide (correctCount res) (count part)) (3 # 4).

(** The verdict of the settings card: shown only when
    [res.length === part.count]. *)
Inductive Verdict := Bestanden | NichtBestanden.

Definition verdict (res : list bool) (part : ExamPartConfig)
    : option Verdict :=
  if bool_decide (length res = count part)
  then Some (if passed res part then Bestanden else NichtBestanden)
  else None.

(** [Math.round((corr / _.length) * 100)], with [corr] the correct answers
    and [_] the questions of a part. *)
Definition percent (corr len : nat) : Number :=
  Math_round (times100 (divide corr len)).

(** ** Exact characterisations *)

Lemma correctCount_le (res : list bool) : correctCount res ≤ length res.
Proof. apply length_filter. Qed.

Lemma correctCount_app (res1 res2 : list bool) :
  correctCount (res1 ++ res2) = correctCount res1 + correctCount res2.
Proof. unfold correctCount. by rewrite filter_app, length_app. Qed.

Lemma correctCount_snoc (res : list bool) (b : bool) :
  correctCount (res ++ [b]) = correctCount res + (if b then 1 else 0).
Proof. rewrite correctCount_app. by destruct b. Qed.

Lemma correctCount_replicate (n : nat) (b : bool) :
  correctCount (replicate n b) = if b then n else 0.
Proof.
  induction n as [|n IH]; [by destruct b|].
  replace (replicate (S n) b) with ([b] ++ replicate n b) by done.
  rewrite correctCount_app, IH. by destruct b.
Qed.

Lemma Zpos_of_nat (d : nat) : d ≠ 0 → Z.pos (Pos.of_nat d) = Z.of_nat d.
Proof. intros. by rewrite <-positive_nat_Z, Nat2Pos.id. Qed.

Lemma geq_divide (n d : nat) (a b : positive) :
  d ≠ 0 →
  geq (divide n d) (Z.pos a # b) = true
  ↔ (Z.pos a * Z.of_nat d ≤ Z.of_nat n * Z.pos b)%Z.
Proof.
  intros Hd. destruct d as [|d]; [done|]. unfold divide, geq.
  rewrite Qle_bool_iff. unfold Qle. simpl Qnum. simpl Qden.
  by rewrite Zpos_of_nat.
Qed.

Lemma passed_iff (res : list bool) (part : ExamPartConfig) :
  passed res part = true
  ↔ length res = count part ∧ count part ≠ 0
    ∧ 3 * count part ≤ 4 * correctCount res.
Proof.
  unfold passed. rewrite andb_true_iff, bool_decide_eq_true.
  destruct (decide (count part = 0)) as [H0|H0].
  - pose proof (correctCount_le res). split; [|by intros (? & ? & ?)].
    intros [Hl Hg]. rewrite H0 in *.
    replace (correctCount res) with 0 in Hg by lia. done.
  - rewrite geq_divide by done. split; intros (? & ?); split_and?; (done || lia).
Qed.

Lemma percent_nonzero (corr len : nat) :
  len ≠ 0 →
  percent corr len
  = Finite (inject_Z ((200 * Z.of_nat corr + Z.of_nat len)
                      / (2 * Z.of_nat len))).
Proof.
  intros Hl. destruct len as [|len]; [done|].
  unfold percent, divide, times100, Math_round. do 2 f_equal.
  unfold Qfloor, Qplus, Qmult. simpl Qnum. simpl Qden.
  rewrite !Pos2Z.inj_mul, Zpos_of_nat by done. f_equal; lia.
Qed.

Lemma percent_undefined : percent 0 0 = NaN.
Proof. done. Qed.

Lemma percent_25 (corr : nat) :
  percent corr 25 = Finite (inject_Z (4 * Z.of_nat corr)).
Proof.
  rewrite percent_nonzero by done. do 2 f_equal.
  change (Z.of_nat 25) with 25%Z.
  replace (200 * Z.of_nat corr + 25)%Z
    with (25 + 4 * Z.of_nat corr * (2 * 25))%Z by lia.
  by rewrite Z.div_add.
Qed.

Lemma verdict_Some (res : list bool) (part : ExamPartConfig) v :
  verdict res part = Some v
  ↔ length res = count part
    ∧ v = (if passed res part then Bestanden else NichtBestanden).
Proof.
  unfold verdict. case_bool_decide; [|split; [done|by intros [? _]]].
  split; [by intros [= <-]|by intros [_ ->]].
Qed.

(** One more correct answer never turns a pass into a fail. *)
Lemma passed_mono (res res' : list bool) (part : ExamPartConfig) :
  length res = length res' → correctCount res ≤ correctCount res' →
  passed res part = true → passed res' part = true.
Proof. rewrite !passed_iff. lia. Qed.

(** Answers that are all alike pass a configured part exactly when they
    are right. *)
Lemma passed_replicate (examType : string) (parts : list ExamPartConfig)
    (part : ExamPartConfig) (b : bool) :
  lookupConfig examType = Some parts → part ∈ parts →
  passed (replicate (count part) b) part = b.
Proof.
  intros Hl Hp. pose proof (lookupConfig_count _ _ Hl _ Hp) as Hc.
  apply eq_true_iff_eq. rewrite passed_iff, correctCount_replicate.
  rewrite length_replicate, Hc. destruct b; split; (done || lia).
Qed.

(** C7. A part is passed exactly when every one of its [count] questions
    was resolved, [count] is not zero, and at least three quarters of the
    answers were right. *)
Theorem passed_threshold (res : list bool) (part : ExamPartConfig) :
  passed res part = true
  ↔ length res = count part ∧ count part ≠ 0
    ∧ 3 * count part ≤ 4 * correctCount res.
Proof. apply passed_iff. Qed.

(** For every part of every exam scheme the pass mark is 19 right
    answers out of 25 resolved questions. *)
Theorem passed_configured (examType : string) (parts : list ExamPartConfig)
    (part : ExamPartConfig) (res : list bool) :
  lookupConfig examType = Some parts → part ∈ parts →
  passed res part = true ↔ length res = 25 ∧ 19 ≤ correctCount res.
Proof.
  intros Hl Hp. rewrite passed_iff, (lookupConfig_count _ _ Hl _ Hp). lia.
Qed.

Lemma passed_configured_witness :
  passed (replicate 19 true ++ replicate 6 false) technikE = true
  ↔ length (replicate 19 true ++ replicate 6 false) = 25
    ∧ 19 ≤ correctCount (replicate 19 true ++ replicate 6 false).
Proof.
  apply (passed_configured "N->E" [technikE]); [reflexivity|constructor].
Defined.

(** The percentage of the result view is the quotient rounded to the
    nearest integer, a tie going up; it is [NaN] for a part without
    questions, and four times the number of right answers for a part of
    25. *)
Theorem percent_spec (corr len : nat) :
  percent corr len
  = match len with
    | 0 => if decide (corr = 0) then NaN else Infinity
    | S _ => Finite (inject_Z ((200 * Z.of_nat corr + Z.of_nat len)
                               / (2 * Z.of_nat len)))
    end
  ∧ percent corr 25 = Finite (inject_Z (4 * Z.of_nat corr)).
Proof.
  split; [|apply percent_25]. destruct len as [|len].
  - unfold percent. simpl. by case_decide.
  - by rewrite percent_nonzero.
Qed.

(** The boundary cases of the pass mark and the percentages of a result
    view with 20 of 25 and 25 of 25 right answers. *)
Example passed_19_of_25 :
  passed (replicate 19 true ++ replicate 6 false) technikE = true.
Proof. by vm_compute. Qed.

Example passed_18_of_25 :
  passed (replicate 18 true ++ replicate 7 false) technikE = false.
Proof. by vm_compute. Qed.

(** The threshold is inclusive: three of four answers right pass a part of
    four questions. *)
Example passed_3_of_4 :
  passed [true; true; true; false]
    {| label := "Teil"; filter_ := λ _, true; count := 4; durationMin := 1 |}
  = true.
Proof. by vm_compute. Qed.

(** A part with 20 of 25 right answers is passed. *)
Example passed_20_of_25 :
  passed (replicate 20 true ++ replicate 5 false) technikE = true.
Proof. by vm_compute. Qed.

Example percent_20_25 : percent 20 25 = Finite (inject_Z 80).
Proof. by vm_compute. Qed.

Example percent_25_25 : percent 25 25 = Finite (inject_Z 100).
Proof. by vm_compute. Qed.
