(* ===== verification/State.v ===== *)
(** * State: the component's state variables

    The [useState] variables of [App] (App.tsx, lines 115-132) are the
    fields of [Vars]; the setter of each is a function that replaces that
    field and keeps the others.  [State] adds what is not React state: the
    interval behind [timerRef] together with the render whose [handleNext]
    its callback closed over, the stream behind [Math.random], and whether
    the catalogue has been fetched.

    A handler is a closure of the render it was created in.  It reads the
    variables of that render, and its setters update the state current at
    the time it runs; the two differ when the handler is called from the
    interval, which keeps the closure of the render that armed it.  So
    every handler takes the render it closes over, a [Vars], and the
    current [State]. *)

From stdpp Require Import gmap.
From S2P Require Import Prelude Random Shuffle Question JsString ExamConfig.

(** The values of [mode]. *)
Inductive Mode := lernmodus | setup | simulation | partSummary | result.

#[export] Instance Mode_eq_dec : EqDecision Mode.
Proof. solve_decision. Defined.

(** The [useState] variables. *)
Record Vars := {
  questions : list ShuffledQuestion;
  mode : Mode;
  examType : string;
  simQuestions : list (list ExamQuestion);
  partIndex : nat;
  qIndex : nat;
  selected : option string;
  showSolution : bool;
  results : list (list bool);
  timeLeft : nat;
  lernIndex : nat;
  selectedCategory : string;
  selectedClass : string;
  selectedAnswer : gmap string string;
}.

(** The variables at mount: the initial values handed to [useState]. *)
Definition initialVars : Vars :=
  {| questions := []; mode := lernmodus; examType := "N";
     simQuestions := []; partIndex := 0; qIndex := 0; selected := None;
     showSolution := false; results := []; timeLeft := 0; lernIndex := 0;
     selectedCategory := EmptyString; selectedClass := EmptyString;
     selectedAnswer := ∅ |}.

(** ** Setters *)

Definition setQuestions (x : list ShuffledQuestion) (v : Vars) : Vars :=
  {| questions := x; mode := mode v; examType := examType v;
     simQuestions := simQuestions v; partIndex := partIndex v;
     qIndex := qIndex v; selected := selected v;
     showSolution := showSolution v; results := results v;
     timeLeft := timeLeft v; lernIndex := lernIndex v;
     selectedCategory := selectedCategory v;
     selectedClass := selectedClass v; selectedAnswer := selectedAnswer v |}.

Definition setMode (x : Mode) (v : Vars) : Vars :=
  {| questions := questions v; mode := x; examType := examType v;
     simQuestions := simQuestions v; partIndex := partIndex v;
     qIndex := qIndex v; selected := selected v;
     showSolution := showSolution v; results := results v;
     timeLeft := timeLeft v; lernIndex := lernIndex v;
     selectedCategory := selectedCategory v;
     selectedClass := selectedClass v; selectedAnswer := selectedAnswer v |}.

Definition setExamType (x : string) (v : Vars) : Vars :=
  {| questions := questions v; mode := mode v; examType := x;
     simQuestions := simQuestions v; partIndex := partIndex v;
     qIndex := qIndex v; selected := selected v;
     showSolution := showSolution v; results := results v;
     timeLeft := timeLeft v; lernIndex := lernIndex v;
     selectedCategory := selectedCategory v;
     selectedClass := selectedClass v; selectedAnswer := selectedAnswer v |}.

Definition setSimQuestions (x : list (list ExamQuestion)) (v : Vars) : Vars :=
  {| questions := questions v; mode := mode v; examType := examType v;
     simQuestions := x; partIndex := partIndex v; qIndex := qIndex v;
     selected := selected v; showSolution := showSolution v;
     results := results v; timeLeft := timeLeft v; lernIndex := lernIndex v;
     selectedCategory := selectedCategory v;
     selectedClass := selectedClass v; selectedAnswer := selectedAnswer v |}.

Definition setPartIndex (x : nat) (v : Vars) : Vars :=
  {| questions := questions v; mode := mode v; examType := examType v;
     simQuestions := simQuestions v; partIndex := x; qIndex := qIndex v;
     selected := selected v; showSolution := showSolution v;
     results := results v; timeLeft := timeLeft v; lernIndex := lernIndex v;
     selectedCategory := selectedCategory v;
     selectedClass := selectedClass v; selectedAnswer := selectedAnswer v |}.

Definition setQIndex (x : nat) (v : Vars) : Vars :=
  {| questions := questions v; mode := mode v; examType := examType v;
     simQuestions := simQuestions v; partIndex := partIndex v; qIndex := x;
     selected := selected v; showSolution := showSolution v;
     results := results v; timeLeft := timeLeft v; lernIndex := lernIndex v;
     selectedCategory := selectedCategory v;
     selectedClass := selectedClass v; selectedAnswer := selectedAnswer v |}.

Definition setSelected (x : option string) (v : Vars) : Vars :=
  {| questions := questions v; mode := mode v; examType := examType v;
     simQuestions := simQuestions v; partIndex := partIndex v;
     qIndex := qIndex v; selected := x; showSolution := showSolution v;
     results := results v; timeLeft := timeLeft v; lernIndex := lernIndex v;
     selectedCategory := selectedCategory v;
     selectedClass := selectedClass v; selectedAnswer := selectedAnswer v |}.

Definition setShowSolution (x : bool) (v : Vars) : Vars :=
  {| questions := questions v; mode := mode v; examType := examType v;
     simQuestions := simQuestions v; partIndex := partIndex v;
     qIndex := qIndex v; selected := selected v; showSolution := x;
     results := results v; timeLeft := timeLeft v; lernIndex := lernIndex v;
     selectedCategory := selectedCategory v;
     selectedClass := selectedClass v; selectedAnswer := selectedAnswer v |}.

Definition setResults (x : list (list bool)) (v : Vars) : Vars :=
  {| questions := questions v; mode := mode v; examType := examType v;
     simQuestions := simQuestions v; partIndex := partIndex v;
     qIndex := qIndex v; selected := selected v;
     showSolution := showSolution v; results := x; timeLeft := timeLeft v;
     lernIndex := lernIndex v; selectedCategory := selectedCategory v;
     selectedClass := selectedClass v; selectedAnswer := selectedAnswer v |}.

Definition setTimeLeft (x : nat) (v : Vars) : Vars :=
  {| questions := questions v; mode := mode v; examType := examType v;
     simQuestions := simQuestions v; partIndex := partIndex v;
     qIndex := qIndex v; selected := selected v;
     showSolution := showSolution v; results := results v; timeLeft := x;
     lernIndex := lernIndex v; selectedCategory := selectedCategory v;
     selectedClass := selectedClass v; selectedAnswer := selectedAnswer v |}.

Definition setLernIndex (x : nat) (v : Vars) : Vars :=
  {| questions := questions v; mode := mode v; examType := examType v;
     simQuestions := simQuestions v; partIndex := partIndex v;
     qIndex := qIndex v; selected := selected v;
     showSolution := showSolution v; results := results v;
     timeLeft := timeLeft v; lernIndex := x;
     selectedCategory := selectedCategory v;
     selectedClass := selectedClass v; selectedAnswer := selectedAnswer v |}.

Definition setSelectedCategory (x : string) (v : Vars) : Vars :=
  {| questions := questions v; mode := mode v; examType := examType v;
     simQuestions := simQuestions v; partIndex := partIndex v;
     qIndex := qIndex v; selected := selected v;
     showSolution := showSolution v; results := results v;
     timeLeft := timeLeft v; lernIndex := lernIndex v; selectedCategory := x;
     selectedClass := selectedClass v; selectedAnswer := selectedAnswer v |}.

Definition setSelectedClass (x : string) (v : Vars) : Vars :=
  {| questions := questions v; mode := mode v; examType := examType v;
     simQuestions := simQuestions v; partIndex := partIndex v;
     qIndex := qIndex v; selected := selected v;
     showSolution := showSolution v; results := results v;
     timeLeft := timeLeft v; lernIndex := lernIndex v;
     selectedCategory := selectedCategory v; selectedClass := x;
     selectedAnswer := selectedAnswer v |}.

Definition setSelectedAnswer (x : gmap string string) (v : Vars) : Vars :=
  {| questions := questions v; mode := mode v; examType := examType v;
     simQuestions := simQuestions v; partIndex := partIndex v;
     qIndex := qIndex v; selected := selected v;
     showSolution := showSolution v; results := results v;
     timeLeft := timeLeft v; lernIndex := lernIndex v;
     selectedCategory := selectedCategory v;
     selectedClass := selectedClass v; selectedAnswer := x |}.

(** ** The state around the variables *)

Record State := {
  vars : Vars;
  (** the live interval of [timerRef], as the render its callback closes
      over; [None] when no interval is running *)
  timer : option Vars;
  (** the numbers [Math.random] is going to return *)
  rng : Rng;
  (** whether the promise of [fetch] has resolved *)
  fetched : bool;
}.

Definition initialState (g : Rng) : State :=
  {| vars := initialVars; timer := None; rng := g; fetched := false |}.

(** Apply queued setters to the variables. *)
Definition update (f : Vars → Vars) (s : State) : State :=
  {| vars := f (vars s); timer := timer s; rng := rng s;
     fetched := fetched s |}.

Definition setTimer (t : option Vars) (s : State) : State :=
  {| vars := vars s; timer := t; rng := rng s; fetched := fetched s |}.

Definition setRng (g : Rng) (s : State) : State :=
  {| vars := vars s; timer := timer s; rng := g; fetched := fetched s |}.

Definition setFetched (b : bool) (s : State) : State :=
  {| vars := vars s; timer := timer s; rng := rng s; fetched := b |}.

(** [simQuestions[partIndex]] of a render. *)
Definition currentPart (v : Vars) : option (list ExamQuestion) :=
  simQuestions v !! partIndex v.

(** [const current = mode === "simulation" ?
       simQuestions[partIndex][qIndex] : undefined;] *)
Definition current (v : Vars) : option ExamQuestion :=
  if decide (mode v = simulation)
  then currentPart v ≫= λ part, part !! qIndex v
  else None.

(** ** Lemmas *)

Lemma update_update (f h : Vars → Vars) (s : State) :
  update f (update h s) = update (f ∘ h) s.
Proof. done. Qed.

Lemma vars_update (f : Vars → Vars) (s : State) : vars (update f s) = f (vars s).
Proof. done. Qed.

Lemma timer_update (f : Vars → Vars) (s : State) : timer (update f s) = timer s.
Proof. done. Qed.

Lemma rng_update (f : Vars → Vars) (s : State) : rng (update f s) = rng s.
Proof. done. Qed.

Lemma current_Some (v : Vars) (eq : ExamQuestion) :
  current v = Some eq
  ↔ mode v = simulation
    ∧ ∃ part, simQuestions v !! partIndex v = Some part
              ∧ part !! qIndex v = Some eq.
Proof.
  unfold current, currentPart. case_decide as Hm.
  - rewrite bind_Some. split; [by intros (part & ? & ?); eauto|].
    intros [_ (part & ? & ?)]. eauto.
  - split; [done|]. by intros [? _].
Qed.

#[export] Hint Rewrite vars_update timer_update rng_update : afu_rw.
