(* ===== verification/Simulation.v ===== *)
(** * Simulation: the handlers of the exam simulation

    [enterSetup], [startSimulation], the interval effect, [handleResolve],
    [handleNext] and [handleContinue] (App.tsx, lines 278-342).  Each
    handler takes the render [r] it closes over and the current state [s];
    what the source reads as a plain variable is read from [r], and a
    setter called with a function ([setQIndex((i) => i + 1)]) reads the
    variable of [s].  [None] is a [TypeError]: a property of [undefined]
    was read. *)

From stdpp Require Import gmap.
From S2P Require Import Prelude Random Shuffle Question JsString ExamConfig.
From S2P Require Import PartBuilder State.

(** [const enterSetup = () => {...}] *)
Definition enterSetup (r : Vars) (s : State) : option State :=
  Some (update (setResults [] ∘ setMode setup) s).

(** The [onClick] of the button Lernmodus. *)
Definition clickLernmodus (r : Vars) (s : State) : option State :=
  Some (update (setSimQuestions [] ∘ setMode lernmodus) s).

(** The [onChange] of the exam type selector. *)
Definition changeExamType (value : string) (r : Vars) (s : State)
    : option State :=
  Some (update (setExamType value) s).

(** [const startSimulation = () => {...}] *)
Definition startSimulation `{ArraySort} (r : Vars) (s : State)
    : option State :=
  parts ← lookupConfig (examType r);
  let '(pools, g) := buildPools (questions r) parts (rng s) in
  first ← parts !! 0;
  Some (setRng g
          (update (setTimeLeft (durationMin first * 60)
                   ∘ setMode simulation
                   ∘ setShowSolution false
                   ∘ setSelected None
                   ∘ setQIndex 0
                   ∘ setPartIndex 0
                   ∘ setResults ((λ _, []) <$> pools)
                   ∘ setSimQuestions pools) s)).

(** [c[partIndex].push(correct)] on the copy [c] of the results. *)
Definition pushResult (i : nat) (correct : bool) (res : list (list bool))
    : option (list (list bool)) :=
  arr ← res !! i; Some (<[i := arr ++ [correct]]> res).

(** [const handleResolve = () => {...}] *)
Definition handleResolve (r : Vars) (s : State) : option State :=
  if falsy (selected r) then Some s else
  part ← simQuestions r !! partIndex r;
  eq ← part !! qIndex r;
  let correct := default false (findCorrect (eq_question eq) (selected r)) in
  res ← pushResult (partIndex r) correct (results (vars s));
  Some (update (setShowSolution true ∘ setResults res) s).

(** [const handleNext = () => {...}] *)
Definition handleNext (r : Vars) (s : State) : option State :=
  part ← simQuestions r !! partIndex r;
  if decide (qIndex r + 1 < length part)
  then Some (update (setShowSolution false
                     ∘ setSelected None
                     ∘ setQIndex (qIndex (vars s) + 1)) s)
  else Some (update (setMode partSummary) s).

(** [const handleContinue = () => {...}] *)
Definition handleContinue (r : Vars) (s : State) : option State :=
  let next := partIndex r + 1 in
  if decide (next < length (simQuestions r))
  then parts ← lookupConfig (examType r);
       part ← parts !! next;
       Some (update (setTimeLeft (durationMin part * 60)
                     ∘ setMode simulation
                     ∘ setShowSolution false
                     ∘ setSelected None
                     ∘ setQIndex 0
                     ∘ setPartIndex next) s)
  else Some (setTimer None (update (setMode result) s)).

(** The [onClick] of an answer button: [setSelected(opt.id)]. *)
Definition clickAnswer (optId : string) (r : Vars) (s : State)
    : option State :=
  Some (update (setSelected (Some optId)) s).

(** ** The interval

    The callback of [setInterval]:
    [setTimeLeft((t) => (t > 1 ? t - 1 : (handleNext(), 0)))], where
    [handleNext] is the one of the render that armed the interval. *)
Definition tick (s : State) : option State :=
  r ← timer s;
  if decide (1 < timeLeft (vars s))
  then Some (update (setTimeLeft (timeLeft (vars s) - 1)) s)
  else s' ← handleNext r s; Some (update (setTimeLeft 0) s').

(** The effect with dependencies [[mode, partIndex]], run after a render
    whose variables are those of [s], the previous render having had the
    variables [old].  When a dependency changed, the cleanup the previous
    run returned clears the interval, and the effect arms a new one if the
    mode is [simulation]. *)
Definition runEffect (old : Vars) (s : State) : State :=
  if decide (mode old = mode (vars s) ∧ partIndex old = partIndex (vars s))
  then s
  else
    let s := if decide (mode old = simulation) then setTimer None s else s in
    if decide (mode (vars s) = simulation)
    then setTimer (Some (vars s)) s
    else s.
