(* ===== verification/Categories.v ===== *)
(** * Categories: the options of the category selector

    [getIndentedCategories] (App.tsx, lines 348-363) collects every prefix
    of every question's category path in a [Map] from the prefix, joined
    with [" > "], to its depth, and turns each entry into an option whose
    value is the last piece of the joined prefix.  The class selector
    lists the classes of the catalogue (line 617). *)

From Stdlib Require Import Ascii.
From S2P Require Import Prelude Random Shuffle Question JsString JsText JsMap.

(** An element of the array [getIndentedCategories] returns.  The fields
    are [value], [label] and [depth] in the source; [value] is what
    [pop] returns. *)
Record CategoryOption := {
  co_value : option string;
  co_label : string;
  co_depth : nat;
}.

#[export] Instance CategoryOption_eq_dec : EqDecision CategoryOption.
Proof. solve_decision. Defined.

(** The key of the prefix of [path] that ends at [idx]:
    [path.slice(0, idx + 1).join(" > ")]. *)
Definition category (path : list string) (idx : nat) : string :=
  join arrow (take (idx + 1) path).

(** [q.categoryPath.forEach((_, idx, path) => {...})] *)
Definition setPrefixes (path : list string) (m : list (string * nat))
    : list (string * nat) :=
  foldl (λ m idx, map_set (category path idx) idx m) m (seq 0 (length path)).

(** [categoriesMap] after [questions.forEach(...)]. *)
Definition categoriesMap (questions : list ShuffledQuestion)
    : list (string * nat) :=
  foldl (λ m q, setPrefixes (categoryPath q) m) [] questions.

(** [const getIndentedCategories = () => {...}] *)
Definition getIndentedCategories (questions : list ShuffledQuestion)
    : list CategoryOption :=
  (λ '(category, depth),
     {| co_value := pop (split arrow category);
        co_label := category;
        co_depth := depth |}) <$> categoriesMap questions.

(** [Array.from(new Set(questions.map((q) => q.class)))] *)
Definition classes (questions : list ShuffledQuestion) : list string :=
  Set_of ((λ q : ShuffledQuestion, class q) <$> questions).

(** The value of the [<option>] of a category. *)
Definition optionValue (o : CategoryOption) : string :=
  default "undefined" (co_value o).

(** The values the category selector can take: the empty value of the
    first option and those of the categories. *)
Definition categoryValues (questions : list ShuffledQuestion) : list string :=
  EmptyString :: (optionValue <$> getIndentedCategories questions).

(** The values the class selector can take. *)
Definition classValues (questions : list ShuffledQuestion) : list string :=
  EmptyString :: classes questions.

(** ** Folds that keep an invariant *)

Section foldl.
Context {A B : Type} (f : A → B → A).

Lemma foldl_invariant (P : A → Prop) (l : list B) (a : A) :
  P a → (∀ a x, x ∈ l → P a → P (f a x)) → P (foldl f a l).
Proof.
  revert a. induction l as [|x l IH]; intros a Ha Hf; [done|]. simpl.
  apply IH; [apply Hf; [by left|done]|]. intros a' y Hy. apply Hf. by right.
Qed.

(** What one step establishes and every step keeps holds at the end. *)
Lemma foldl_established (Q : A → Prop) (l : list B) (a : A) (x : B) :
  x ∈ l → (∀ a, Q (f a x)) → (∀ a y, Q a → Q (f a y)) →
  Q (foldl f a l).
Proof.
  intros Hx Hnew Hkeep. revert a.
  induction l as [|y l IH]; intros a; [by apply elem_of_nil in Hx|]. simpl.
  apply elem_of_cons in Hx as [<-|Hx]; [|by apply IH].
  apply foldl_invariant; [apply Hnew|]. intros. by apply Hkeep.
Qed.
End foldl.

(** ** The entries of the map *)

Section categoriesMap.
Implicit Types (questions : list ShuffledQuestion) (path : list string).
Implicit Types (m : list (string * nat)) (k : string) (d : nat).

(** The entry [(k, d)] stands for the prefix of length [d + 1] of the path
    of a question. *)
Definition entry_of questions k d : Prop :=
  ∃ q, q ∈ questions ∧ d < length (categoryPath q)
       ∧ k = category (categoryPath q) d.

Lemma setPrefixes_entries (P : string → nat → Prop) path m :
  (∀ k d, (k, d) ∈ m → P k d) →
  (∀ d, d < length path → P (category path d) d) →
  ∀ k d, (k, d) ∈ setPrefixes path m → P k d.
Proof.
  intros Hm Hpath. unfold setPrefixes.
  apply (foldl_invariant _ (λ m, ∀ k d, (k, d) ∈ m → P k d)); [done|].
  intros m' idx Hidx%elem_of_seq Hm' k d
    [[-> ->]|Hin]%map_set_elem_of; [apply Hpath; lia|by apply Hm'].
Qed.

Lemma categoriesMap_entry_of questions k d :
  (k, d) ∈ categoriesMap questions → entry_of questions k d.
Proof.
  revert k d. unfold categoriesMap.
  apply (foldl_invariant _ (λ m, ∀ k d, (k, d) ∈ m → entry_of questions k d)).
  { intros k d Hin. by apply elem_of_nil in Hin. }
  intros m q Hq Hm. apply setPrefixes_entries; [done|].
  intros d Hd. by exists q.
Qed.

Lemma setPrefixes_NoDup path m : NoDup m.*1 → NoDup (setPrefixes path m).*1.
Proof.
  intros Hm. unfold setPrefixes.
  apply (foldl_invariant _ (λ m, NoDup m.*1)); [done|].
  intros. by apply map_set_NoDup.
Qed.

Lemma categoriesMap_NoDup questions : NoDup (categoriesMap questions).*1.
Proof.
  unfold categoriesMap. apply (foldl_invariant _ (λ m, NoDup m.*1)).
  - apply NoDup_nil_2.
  - intros. by apply setPrefixes_NoDup.
Qed.

Lemma setPrefixes_keeps path m k : k ∈ m.*1 → k ∈ (setPrefixes path m).*1.
Proof.
  intros Hk. unfold setPrefixes.
  apply (foldl_invariant _ (λ m, k ∈ m.*1)); [done|].
  intros. apply map_set_key_elem_of. by right.
Qed.

Lemma setPrefixes_has path m d :
  d < length path → category path d ∈ (setPrefixes path m).*1.
Proof.
  intros Hd. unfold setPrefixes.
  apply (foldl_established _ (λ m, category path d ∈ m.*1) _ _ d).
  - apply elem_of_seq. lia.
  - intros. apply map_set_key_elem_of. by left.
  - intros. apply map_set_key_elem_of. by right.
Qed.

(** Every prefix of every path has an entry. *)
Lemma categoriesMap_complete questions q d :
  q ∈ questions → d < length (categoryPath q) →
  category (categoryPath q) d ∈ (categoriesMap questions).*1.
Proof.
  intros Hq Hd. unfold categoriesMap.
  apply (foldl_established _
           (λ m, category (categoryPath q) d ∈ m.*1) _ _ q); [done|..].
  - intros. by apply setPrefixes_has.
  - intros. by apply setPrefixes_keeps.
Qed.
End categoriesMap.

(** ** The options *)

Section options.
Implicit Types (questions : list ShuffledQuestion) (o : CategoryOption).

(** No title of the catalogue contains the character [>]. *)
Definition plain questions : Prop :=
  Forall (λ q : ShuffledQuestion,
            Forall (λ t, without ">"%char t = true) (categoryPath q)) questions.

Lemma last_take_S {A} (l : list A) (d : nat) :
  d < length l → last (take (S d) l) = l !! d.
Proof.
  intros Hd. rewrite last_lookup, length_take, lookup_take_lt by lia.
  f_equal. lia.
Qed.

(** The value of the option of a prefix without [>] is the prefix's last
    title. *)
Lemma pop_category path d :
  d < length path → Forall (λ t, without ">"%char t = true) path →
  pop (split arrow (category path d)) = path !! d.
Proof.
  intros Hd Hfree. unfold category. rewrite Nat.add_1_r.
  rewrite pop_split_join, last_take_S; [done..| |by apply Forall_take].
  destruct path; [simpl in Hd; lia|done].
Qed.

Lemma getIndentedCategories_elem_of questions o :
  o ∈ getIndentedCategories questions
  ↔ (co_label o, co_depth o) ∈ categoriesMap questions
    ∧ co_value o = pop (split arrow (co_label o)).
Proof.
  unfold getIndentedCategories. rewrite list_elem_of_fmap. split.
  - by intros ([k d] & -> & Hin).
  - intros [Hin Hv]. exists (co_label o, co_depth o). split; [|done].
    destruct o. simpl in *. by subst.
Qed.

(** When no title contains [>] the value of an option is a title on the
    path of some question. *)
Lemma optionValue_path questions o :
  plain questions → o ∈ getIndentedCategories questions →
  ∃ q : ShuffledQuestion, q ∈ questions ∧ optionValue o ∈ categoryPath q.
Proof.
  intros Hplain [(q & Hq & Hd & Hk)%categoriesMap_entry_of Hv]
    %getIndentedCategories_elem_of.
  exists q. split; [done|]. unfold optionValue.
  rewrite Hv, Hk, pop_category
    by (done || by apply (proj1 (Forall_forall _ _) Hplain)).
  destruct (lookup_lt_is_Some_2 _ _ Hd) as [t Ht]. rewrite Ht. simpl.
  by eapply list_elem_of_lookup_2.
Qed.

Lemma getIndentedCategories_labels questions :
  co_label <$> getIndentedCategories questions = (categoriesMap questions).*1.
Proof.
  unfold getIndentedCategories. rewrite <-list_fmap_compose.
  apply list_fmap_ext. by intros ? [? ?].
Qed.
End options.

(** C32. Every option of the category selector stands for a section of the
    catalogue: its label is the path of a question down to some depth,
    joined with [" > "], its depth is that depth, and, when no title
    contains the character [>], its value is the title of the section at
    that depth. *)
Theorem getIndentedCategories_sound (questions : list ShuffledQuestion)
    (o : CategoryOption) :
  o ∈ getIndentedCategories questions →
  ∃ q, q ∈ questions ∧ co_depth o < length (categoryPath q)
       ∧ co_label o = category (categoryPath q) (co_depth o)
       ∧ (plain questions → co_value o = categoryPath q !! co_depth o).
Proof.
  intros [(q & Hq & Hd & Hk)%categoriesMap_entry_of Hv]
    %getIndentedCategories_elem_of.
  exists q. split_and!; [done..|]. intros Hplain.
  rewrite Hv, Hk. apply pop_category; [done|].
  by apply (proj1 (Forall_forall _ _) Hplain).
Qed.

(** C34. The label of a category and its path are two forms of the same
    thing: splitting any label at the separator and joining the pieces
    gives the label back, and splitting the label of a prefix of a path
    gives the prefix back, its last title being the option's value, when
    no title of the path contains the character [>]. *)
Theorem category_roundtrip (label : string) (path : list string) (idx : nat) :
  join arrow (split arrow label) = label
  ∧ (idx < length path → Forall (λ t, without ">"%char t = true) path →
     split arrow (category path idx) = take (idx + 1) path
     ∧ pop (split arrow (category path idx)) = path !! idx).
Proof.
  split; [by apply join_split|]. intros Hidx Hfree.
  split; [|by apply pop_category]. unfold category.
  apply split_join; [|by apply Forall_take].
  destruct path; [simpl in Hidx; lia|]. by rewrite Nat.add_1_r.
Qed.

Lemma category_roundtrip_witness :
  join arrow (split arrow "Technik > Grundlagen") = "Technik > Grundlagen"
  ∧ split arrow (category ["Technik"; "Grundlagen"; "Strom"] 1)
    = ["Technik"; "Grundlagen"]
  ∧ pop (split arrow (category ["Technik"; "Grundlagen"; "Strom"] 1))
    = Some "Grundlagen".
Proof.
  destruct (category_roundtrip "Technik > Grundlagen"
              ["Technik"; "Grundlagen"; "Strom"] 1) as [Hjoin Hsplit].
  split; [exact Hjoin|]. apply Hsplit; [simpl; lia|]. by repeat constructor.
Defined.

(** A question of a small catalogue, for the examples. *)
Definition sampleQuestion (n : string) (path : list string)
    : ShuffledQuestion :=
  {| base := {| number := n; class := "1"; question := "Frage";
                answer_a := "a"; answer_b := "b"; answer_c := "c";
                answer_d := "d"; picture_question := None;
                picture_a := None; picture_b := None; picture_c := None;
                picture_d := None |};
     categoryPath := path;
     answers := [] |}.

Definition sampleQuestions : list ShuffledQuestion :=
  [ sampleQuestion "TA101" ["Fragen"; "Technik"; "Grundlagen"];
    sampleQuestion "TB101" ["Fragen"; "Technik"; "Bauteile"];
    sampleQuestion "VA101" ["Fragen"; "Vorschriften"] ].

Example getIndentedCategories_sample :
  getIndentedCategories sampleQuestions
  = [ {| co_value := Some "Fragen"; co_label := "Fragen"; co_depth := 0 |};
      {| co_value := Some "Technik"; co_label := "Fragen > Technik";
         co_depth := 1 |};
      {| co_value := Some "Grundlagen";
         co_label := "Fragen > Technik > Grundlagen"; co_depth := 2 |};
      {| co_value := Some "Bauteile";
         co_label := "Fragen > Technik > Bauteile"; co_depth := 2 |};
      {| co_value := Some "Vorschriften"; co_label := "Fragen > Vorschriften";
         co_depth := 1 |} ].
Proof. by vm_compute. Qed.

(** A title that contains the separator is cut: the option's value is
    the text after the last separator, which is the title of no
    section. *)
Example getIndentedCategories_cut :
  getIndentedCategories
    [sampleQuestion "TA101" ["Technik"; "Sender > Empfaenger"]]
  = [ {| co_value := Some "Technik"; co_label := "Technik"; co_depth := 0 |};
      {| co_value := Some "Empfaenger";
         co_label := "Technik > Sender > Empfaenger"; co_depth := 1 |} ].
Proof. by vm_compute. Qed.

Lemma getIndentedCategories_sound_witness :
  let o := {| co_value := Some "Technik"; co_label := "Fragen > Technik";
              co_depth := 1 |} in
  ∃ q, q ∈ sampleQuestions ∧ co_depth o < length (categoryPath q)
       ∧ co_label o = category (categoryPath q) (co_depth o)
       ∧ (plain sampleQuestions → co_value o = categoryPath q !! co_depth o).
Proof.
  intros o. apply (getIndentedCategories_sound sampleQuestions o).
  by apply (bool_decide_unpack _).
Defined.

(** C33. The selector has an option for every section that holds a
    question or an ancestor of one, and no two options have the same
    label. *)
Theorem getIndentedCategories_complete (questions : list ShuffledQuestion)
    (q : ShuffledQuestion) (d : nat) :
  q ∈ questions → d < length (categoryPath q) →
  category (categoryPath q) d ∈ co_label <$> getIndentedCategories questions
  ∧ NoDup (co_label <$> getIndentedCategories questions).
Proof.
  rewrite getIndentedCategories_labels. split.
  - by apply categoriesMap_complete.
  - apply categoriesMap_NoDup.
Qed.

Lemma getIndentedCategories_complete_witness :
  let q := sampleQuestion "TB101" ["Fragen"; "Technik"; "Bauteile"] in
  category (categoryPath q) 1
  ∈ co_label <$> getIndentedCategories sampleQuestions
  ∧ NoDup (co_label <$> getIndentedCategories sampleQuestions).
Proof.
  intros q. apply (getIndentedCategories_complete sampleQuestions q 1).
  - by apply (bool_decide_unpack _).
  - simpl. lia.
Defined.
