(* ===== verification/Lernmodus.v ===== *)
(** * Lernmodus: the practice mode

    [filteredQuestions] (App.tsx, lines 152-158), [handleAnswerCheck]
    (lines 160-165) and the handlers written inline in the practice card:
    the two selectors (lines 592-595 and 610-613) and the button for the
    next question (lines 687-690). *)

From stdpp Require Import gmap.
From S2P Require Import Prelude Random Shuffle Question JsString ExamConfig.
From S2P Require Import State.

(** The callback of [questions.filter]: an empty selection is falsy and
    matches everything. *)
Definition matchesFilter (selectedCategory selectedClass : string)
    (q : ShuffledQuestion) : bool :=
  let matchesCategory :=
    if decide (selectedCategory = EmptyString) then true
    else array_includes (categoryPath q) selectedCategory in
  let matchesClass :=
    if decide (selectedClass = EmptyString) then true
    else bool_decide (class q = selectedClass) in
  matchesCategory && matchesClass.

(** [const filteredQuestions = useMemo(...)] *)
Definition filteredQuestions (v : Vars) : list ShuffledQuestion :=
  filter (λ q, matchesFilter (selectedCategory v) (selectedClass v) q)
         (questions v).

(** [const handleAnswerCheck = (question, answerId) => {...}] *)
Definition handleAnswerCheck (question : ShuffledQuestion)
    (answerId : string) (r : Vars) (s : State) : option State :=
  Some (update (setSelectedAnswer
                  (<[number question := answerId]> (selectedAnswer (vars s))))
               s).

(** The [onClick] of an answer button of the practice card:
    [handleAnswerCheck(filteredQuestions[lernIndex], opt.id)]. *)
Definition clickLernAnswer (optId : string) (r : Vars) (s : State)
    : option State :=
  question ← filteredQuestions r !! lernIndex r;
  handleAnswerCheck question optId r s.

(** The [onChange] of the category selector. *)
Definition changeCategory (value : string) (r : Vars) (s : State)
    : option State :=
  Some (update (setLernIndex 0 ∘ setSelectedCategory value) s).

(** The [onChange] of the class selector. *)
Definition changeClass (value : string) (r : Vars) (s : State)
    : option State :=
  Some (update (setLernIndex 0 ∘ setSelectedClass value) s).

(** The [onClick] of the button for the next question:
    [setLernIndex((prev) => (prev + 1) % filteredQuestions.length)].
    The page renders the button only when the list is not empty (line
    627).  For an empty list the engine's remainder is [NaN], which a
    natural number cannot hold: the remainder is then the one of [nat],
    the dividend, and no theorem reads the index of such a state. *)
Definition clickNextQuestion (r : Vars) (s : State) : option State :=
  Some (update (setSelectedAnswer ∅
                ∘ setLernIndex ((lernIndex (vars s) + 1)
                                `mod` length (filteredQuestions r))) s).

(** The verdict line under the answers:
    [answers.find((a) => a.id === selectedAnswer[number])?.isCorrect]. *)
Definition lernVerdict (v : Vars) (question : ShuffledQuestion)
    : option bool :=
  match selectedAnswer v !! number question with
  | Some answerId =>
      if decide (answerId = EmptyString) then None
      else Some (default false (findCorrect question (Some answerId)))
  | None => None
  end.

(** ** Lemmas *)

Lemma matchesFilter_all (q : ShuffledQuestion) :
  matchesFilter EmptyString EmptyString q = true.
Proof. done. Qed.

Lemma matchesFilter_spec cat cls (q : ShuffledQuestion) :
  matchesFilter cat cls q = true
  ↔ (cat = EmptyString ∨ cat ∈ categoryPath q)
    ∧ (cls = EmptyString ∨ class q = cls).
Proof.
  unfold matchesFilter. rewrite andb_true_iff.
  repeat case_decide; rewrite ?array_includes_spec, ?bool_decide_eq_true;
    naive_solver.
Qed.

Lemma filteredQuestions_unfiltered (v : Vars) :
  selectedCategory v = EmptyString → selectedClass v = EmptyString →
  filteredQuestions v = questions v.
Proof.
  intros Hc Hk. unfold filteredQuestions. rewrite Hc, Hk.
  induction (questions v) as [|q l IH]; [done|].
  by rewrite filter_cons_True, IH.
Qed.

Lemma filteredQuestions_elem_of (v : Vars) (q : ShuffledQuestion) :
  q ∈ filteredQuestions v
  ↔ q ∈ questions v
    ∧ (selectedCategory v = EmptyString
       ∨ selectedCategory v ∈ categoryPath q)
    ∧ (selectedClass v = EmptyString ∨ class q = selectedClass v).
Proof.
  unfold filteredQuestions. rewrite list_elem_of_filter.
  rewrite <-matchesFilter_spec. destruct (matchesFilter _ _ q); naive_solver.
Qed.

(** The next index stays inside a non-empty list. *)
Lemma clickNextQuestion_in_range (r : Vars) (s s' : State) :
  filteredQuestions r ≠ [] → clickNextQuestion r s = Some s' →
  lernIndex (vars s') < length (filteredQuestions r).
Proof.
  intros Hne [= <-]. simpl. apply Nat.mod_upper_bound.
  by rewrite length_zero_iff_nil'.
Qed.
