(* ===== verification/App.v ===== *)
(** * App: events, dispatch and the reachable states

    What the user and the environment can do to the component, as events;
    when the rendered page offers each of them ([enabled], from the
    conditions of the JSX, App.tsx lines 365-702); what each does
    ([handle], the handler the element is wired to); and the step of the
    whole component: the handler runs on the current render, React renders
    again, and the interval effect runs ([dispatch]). *)

From stdpp Require Import gmap.
From S2P Require Import Prelude Random Shuffle Question JsString ExamConfig.
From S2P Require Import PartBuilder Scorer State Simulation Categories.
From S2P Require Import Lernmodus.

Inductive Event : Type :=
  | Fetched (sections : list Section_)
  | ClickLernmodus
  | ClickPruefungssimulation
  | ChangeExamType (value : string)
  | ClickStart
  | ClickAnswer (optId : string)
  | ClickAufloesen
  | ClickWeiter
  | ClickContinue
  | Tick
  | ChangeCategory (value : string)
  | ChangeClass (value : string)
  | ClickLernAnswer (optId : string)
  | ClickNextQuestion.

(** The ids on the answer buttons of a question. *)
Definition buttonIds (q : ShuffledQuestion) : list string := id <$> answers q.

(** ** What the page offers

    Each card of the page offers the events of its controls, under the
    conditions it renders them with. *)

(** The two buttons above the cards. *)
Definition navOffers (e : Event) : Prop :=
  match e with
  | ClickLernmodus | ClickPruefungssimulation => True
  | _ => False
  end.

(** The settings card: the selector and the start button are rendered in
    [setup] only; the options of the selector are the exam types. *)
Definition settingsOffers (v : Vars) (e : Event) : Prop :=
  match e with
  | ChangeExamType value => mode v = setup ∧ value ∈ examTypes
  | ClickStart => mode v = setup
  | _ => False
  end.

(** The question card, rendered when [current] is defined: the answer
    buttons are disabled once the solution is shown, the button Auflösen
    is rendered while it is not and is disabled without a selection, the
    button to go on is rendered once it is. *)
Definition questionOffers (v : Vars) (e : Event) : Prop :=
  match current v with
  | Some eq =>
      match e with
      | ClickAnswer optId =>
          showSolution v = false ∧ optId ∈ buttonIds (eq_question eq)
      | ClickAufloesen => showSolution v = false ∧ falsy (selected v) = false
      | ClickWeiter => showSolution v = true
      | _ => False
      end
  | None => False
  end.

(** The part summary. *)
Definition summaryOffers (v : Vars) (e : Event) : Prop :=
  match e with
  | ClickContinue => mode v = partSummary
  | _ => False
  end.

(** The practice card: the selectors with the values of their options,
    the answer buttons and the button for the next question when a
    question is shown. *)
Definition lernOffers (v : Vars) (e : Event) : Prop :=
  mode v = lernmodus ∧
  match e with
  | ChangeCategory value => value ∈ categoryValues (questions v)
  | ChangeClass value => value ∈ classValues (questions v)
  | ClickLernAnswer optId =>
      match filteredQuestions v !! lernIndex v with
      | Some q => optId ∈ buttonIds q
      | None => False
      end
  | ClickNextQuestion => filteredQuestions v ≠ []
  | _ => False
  end.

(** When an event can happen: the fetch resolves once, the interval fires
    while it is armed, and the user can do what some card offers. *)
Definition enabled (s : State) (e : Event) : Prop :=
  match e with
  | Fetched _ => fetched s = false
  | Tick => is_Some (timer s)
  | _ => navOffers e ∨ settingsOffers (vars s) e ∨ questionOffers (vars s) e
         ∨ summaryOffers (vars s) e ∨ lernOffers (vars s) e
  end.

#[export] Instance questionOffers_dec v e : Decision (questionOffers v e).
Proof. unfold questionOffers. destruct (current v), e; apply _. Defined.

#[export] Instance lernOffers_dec v e : Decision (lernOffers v e).
Proof.
  unfold lernOffers. destruct e; try apply _.
  destruct (filteredQuestions v !! lernIndex v); apply _.
Defined.

#[export] Instance enabled_dec s e : Decision (enabled s e).
Proof. unfold enabled, navOffers, settingsOffers, summaryOffers.
  destruct e; apply _. Defined.

(** The [.then] callback of the fetch:
    [setQuestions(extract(data.sections).map(shuffleAnswers))]. *)
Definition onFetched `{ArraySort} (sections : list Section_) (s : State)
    : option State :=
  let '(qs, g) := loadQuestions sections (rng s) in
  Some (setFetched true (setRng g (update (setQuestions qs) s))).

(** The handler an event is wired to, on the current render. *)
Definition handle `{ArraySort} (e : Event) (s : State) : option State :=
  let r := vars s in
  match e with
  | Fetched sections => onFetched sections s
  | ClickLernmodus => clickLernmodus r s
  | ClickPruefungssimulation => enterSetup r s
  | ChangeExamType value => changeExamType value r s
  | ClickStart => startSimulation r s
  | ClickAnswer optId => clickAnswer optId r s
  | ClickAufloesen => handleResolve r s
  | ClickWeiter => handleNext r s
  | ClickContinue => handleContinue r s
  | Tick => tick s
  | ChangeCategory value => changeCategory value r s
  | ChangeClass value => changeClass value r s
  | ClickLernAnswer optId => clickLernAnswer optId r s
  | ClickNextQuestion => clickNextQuestion r s
  end.

(** One event: the handler, the render, the effect. *)
Definition dispatch `{ArraySort} (e : Event) (s : State) : option State :=
  s' ← handle e s; Some (runEffect (vars s) s').

Definition step `{ArraySort} (s : State) (e : Event) (s' : State) : Prop :=
  enabled s e ∧ dispatch e s = Some s'.

(** The states the component can be in, from the mount on. *)
Inductive reachable `{ArraySort} : State → Prop :=
  | reachable_init g : reachable (initialState g)
  | reachable_step s e s' : reachable s → step s e s' → reachable s'.

(** Running a list of events, each of which must be offered. *)
Fixpoint run `{ArraySort} (es : list Event) (s : State) : option State :=
  match es with
  | [] => Some s
  | e :: es =>
      if decide (enabled s e) then dispatch e s ≫= run es else None
  end.

(** ** When each event is offered *)

Section enabled.
Implicit Types (s : State).

Ltac solve_enabled :=
  unfold enabled, navOffers, settingsOffers, questionOffers, summaryOffers,
    lernOffers;
  repeat case_match; naive_solver.

Lemma enabled_ChangeExamType s value :
  enabled s (ChangeExamType value)
  ↔ mode (vars s) = setup ∧ value ∈ examTypes.
Proof. solve_enabled. Qed.

Lemma enabled_ClickStart s : enabled s ClickStart ↔ mode (vars s) = setup.
Proof. solve_enabled. Qed.

Lemma enabled_ClickAnswer s optId :
  enabled s (ClickAnswer optId)
  ↔ ∃ eq, current (vars s) = Some eq ∧ showSolution (vars s) = false
          ∧ optId ∈ buttonIds (eq_question eq).
Proof. solve_enabled. Qed.

Lemma enabled_ClickAufloesen s :
  enabled s ClickAufloesen
  ↔ is_Some (current (vars s)) ∧ showSolution (vars s) = false
    ∧ falsy (selected (vars s)) = false.
Proof. unfold is_Some. solve_enabled. Qed.

Lemma enabled_ClickWeiter s :
  enabled s ClickWeiter
  ↔ is_Some (current (vars s)) ∧ showSolution (vars s) = true.
Proof. unfold is_Some. solve_enabled. Qed.

Lemma enabled_ClickContinue s :
  enabled s ClickContinue ↔ mode (vars s) = partSummary.
Proof. solve_enabled. Qed.

Lemma enabled_ChangeCategory s value :
  enabled s (ChangeCategory value)
  ↔ mode (vars s) = lernmodus ∧ value ∈ categoryValues (questions (vars s)).
Proof. solve_enabled. Qed.

Lemma enabled_ChangeClass s value :
  enabled s (ChangeClass value)
  ↔ mode (vars s) = lernmodus ∧ value ∈ classValues (questions (vars s)).
Proof. solve_enabled. Qed.

Lemma enabled_ClickLernAnswer s optId :
  enabled s (ClickLernAnswer optId)
  ↔ mode (vars s) = lernmodus
    ∧ ∃ q, filteredQuestions (vars s) !! lernIndex (vars s) = Some q
           ∧ optId ∈ buttonIds q.
Proof. solve_enabled. Qed.

Lemma enabled_ClickNextQuestion s :
  enabled s ClickNextQuestion
  ↔ mode (vars s) = lernmodus ∧ filteredQuestions (vars s) ≠ [].
Proof. solve_enabled. Qed.
End enabled.
