(* ===== verification/View.v ===== *)
(** * View: what the component renders

    The JSX the component returns (App.tsx, lines 344-346 and 365-702) as
    a value: which cards are on the page, what they show, and which event
    each control is wired to.  Styles are left out except for the colour
    of an answer button, which tells the candidate which answer is right.
    The text of a question and of an answer is the HTML [renderMath]
    makes of it, with katex behind its interface.  A property read from
    [undefined] while rendering is a [TypeError], which takes the whole
    page down: [render] is [None] then. *)

From stdpp Require Import gmap.
From Stdlib Require Import Ascii.
From S2P Require Import Prelude Random Shuffle Question JsString JsText JsMap.
From S2P Require Import ExamConfig PartBuilder Scorer State Simulation.
From S2P Require Import Categories Lernmodus App Math Presentation.

(** ** The elements of the page *)

(** The background colours of an answer button: [#3182ce], [#2c5282],
    [#38a169] and [#e53e3e]. *)
Inductive Colour := Blue | DarkBlue | Green | Red.

#[export] Instance Colour_eq_dec : EqDecision Colour.
Proof. solve_decision. Defined.

(** The colour as the style has it. *)
Definition hex (colour : Colour) : string :=
  match colour with
  | Blue => "#3182ce"
  | DarkBlue => "#2c5282"
  | Green => "#38a169"
  | Red => "#e53e3e"
  end.

(** A [<button>] with a text. *)
Record PlainButton := {
  pb_text : string;
  pb_disabled : bool;
  pb_onClick : Event;
}.

(** A [<Button>] that holds an answer, with the style of the [<button>]
    it becomes. *)
Record AnswerButton := {
  ab_key : string;
  ab_disabled : bool;
  ab_onClick : Event;
  ab_colour : Colour;
  ab_style : Style;
  ab_letter : string;
  ab_text : string;
  ab_picture : option string;
}.

(** A [<select>] with its [<option>]s, each a value and a text. *)
Record Select := {
  sel_value : string;
  sel_options : list (string * string);
  sel_onChange : string → Event;
}.

(** A line of the list of parts in the settings card. *)
Record PartRow := {
  pr_label : string;
  pr_count : nat;
  pr_durationMin : nat;
  pr_verdict : option Verdict;
}.

Record SettingsCard := {
  sc_examType : Select + string;
  sc_start : option PlainButton;
  sc_rows : list PartRow;
}.

(** What is under the answers of the question card. *)
Inductive Footer :=
  | Unresolved (aufloesen : PlainButton)
  | Resolved (richtig : bool) (weiter : PlainButton).

Record QuestionCard := {
  qc_number : string;
  qc_partLabel : string;
  qc_minutes : string;
  qc_seconds : string;
  qc_position : nat;
  qc_total : nat;
  qc_question : string;
  qc_picture : option string;
  qc_answers : list AnswerButton;
  qc_footer : Footer;
}.

Record SummaryCard := {
  sm_label : string;
  sm_correct : nat;
  sm_total : nat;
  sm_weiter : PlainButton;
}.

(** A line of the result. *)
Record ResultRow := {
  rr_label : string;
  rr_correct : nat;
  rr_total : nat;
  rr_percent : Number;
}.

(** The question of the practice card. *)
Record LernQuestion := {
  lq_number : string;
  lq_question : string;
  lq_picture : option string;
  lq_answers : list AnswerButton;
  lq_verdict : option bool;
  lq_next : PlainButton;
}.

Record LernCard := {
  lc_category : Select;
  lc_class : Select;
  lc_question : option LernQuestion;
}.

Record View := {
  nav : list PlainButton;
  settingsCard : option SettingsCard;
  questionCard : option QuestionCard;
  summaryCard : option SummaryCard;
  resultCard : option (list ResultRow);
  lernCard : option LernCard;
}.

(** ** Pieces *)

(** [cond && <element>]: the element is evaluated only under the
    condition. *)
Definition when {A} (cond : bool) (element : option A) : option (option A) :=
  if cond then Some <$> element else Some None.

(** [x && <img src=...>] for an optional field [x]: shown when truthy. *)
Definition truthy (x : option string) : option string :=
  if falsy x then None else x.

(** [question[`picture_${id.toLowerCase()}`]] *)
Definition pictureOf (q : Question) (optId : string) : option string :=
  let field := toLowerCase optId in
  if decide (field = "a") then picture_a q
  else if decide (field = "b") then picture_b q
  else if decide (field = "c") then picture_c q
  else if decide (field = "d") then picture_d q
  else if decide (field = "question") then picture_question q
  else None.

(** [`${String.fromCharCode(65 + index)}:`] *)
Definition letter (index : nat) : string := fromCharCode (65 + index) +:+ ":".

(** The non-breaking space, U+00A0, in UTF-8. *)
Definition nbsp : string :=
  String (ascii_of_nat 194) (String (ascii_of_nat 160) EmptyString).

(** [s.repeat(n)] *)
Definition repeat_ (s : string) (n : nat) : string :=
  foldr String.append EmptyString (replicate n s).

(** ** The cards *)

Section cards.
Context `{Katex}.

(** The two buttons at the top (lines 383-396). *)
Definition renderNav : list PlainButton :=
  [ {| pb_text := "Lernmodus"; pb_disabled := false;
       pb_onClick := ClickLernmodus |};
    {| pb_text := "Prüfungssimulation"; pb_disabled := false;
       pb_onClick := ClickPruefungssimulation |} ].

(** A line of the parts list (lines 428-459). *)
Definition renderPartRow (v : Vars) (idx : nat) (part : ExamPartConfig)
    : PartRow :=
  let res := default [] (results v !! idx) in
  {| pr_label := label part; pr_count := count part;
     pr_durationMin := durationMin part; pr_verdict := verdict res part |}.

(** The settings card (lines 398-461). *)
Definition renderSettings (v : Vars) : option SettingsCard :=
  parts ← lookupConfig (examType v);
  Some {|
    sc_examType :=
      if decide (mode v = setup)
      then inl {| sel_value := examType v;
                  sel_options := (λ key, (key, key)) <$> examTypes;
                  sel_onChange := ChangeExamType |}
      else inr (examType v);
    sc_start :=
      if decide (mode v = setup)
      then Some {| pb_text := "Start"; pb_disabled := false;
                   pb_onClick := ClickStart |}
      else None;
    sc_rows := imap (renderPartRow v) parts |}.

(** The background of an answer button of the question card (lines
    494-502). *)
Definition answerColour (v : Vars) (opt : AnswerOption) : Colour :=
  if negb (showSolution v)
  then if decide (Some (id opt) = selected v) then DarkBlue else Blue
  else if isCorrect opt then Green
  else if decide (Some (id opt) = selected v) then Red else Blue.

(** An answer button of the question card (lines 489-520). *)
Definition renderAnswer (v : Vars) (q : ShuffledQuestion) (index : nat)
    (opt : AnswerOption) : AnswerButton :=
  {| ab_key := id opt;
     ab_disabled := showSolution v;
     ab_onClick := ClickAnswer (id opt);
     ab_colour := answerColour v opt;
     ab_style :=
       Button (showSolution v)
         (Some [ ("backgroundColor", hex (answerColour v opt));
                 ("color", "white") ]);
     ab_letter := letter index;
     ab_text := renderMath (text opt);
     ab_picture := truthy (pictureOf q (id opt)) |}.

(** What is under the answers (lines 522-544). *)
Definition renderFooter (v : Vars) (q : ShuffledQuestion) : Footer :=
  if negb (showSolution v)
  then Unresolved {| pb_text := "Auflösen";
                     pb_disabled := falsy (selected v);
                     pb_onClick := ClickAufloesen |}
  else Resolved (default false (findCorrect q (selected v)))
         {| pb_text := "Weiter zur Auswertung"; pb_disabled := false;
            pb_onClick := ClickWeiter |}.

(** The question card (lines 464-545); [part] is [simQuestions[partIndex]],
    which line 344 has read already. *)
Definition renderQuestion (v : Vars) (part : list ExamQuestion)
    (cur : ExamQuestion) : QuestionCard :=
  let q := eq_question cur in
  {| qc_number := number q;
     qc_partLabel := partLabel cur;
     qc_minutes := padStart 2 "0" (toString (timeLeft v / 60));
     qc_seconds := padStart 2 "0" (toString (timeLeft v `mod` 60));
     qc_position := qIndex v + 1;
     qc_total := length part;
     qc_question := renderMath (question q);
     qc_picture := truthy (picture_question q);
     qc_answers := imap (renderAnswer v q) (answers q);
     qc_footer := renderFooter v q |}.

(** The part summary (lines 548-561). *)
Definition renderSummary (v : Vars) : option SummaryCard :=
  parts ← lookupConfig (examType v);
  part ← parts !! partIndex v;
  res ← results v !! partIndex v;
  questions ← simQuestions v !! partIndex v;
  Some {| sm_label := label part;
          sm_correct := correctCount res;
          sm_total := length questions;
          sm_weiter := {| pb_text := "Weiter"; pb_disabled := false;
                          pb_onClick := ClickContinue |} |}.

(** A line of the result (lines 566-574). *)
Definition renderResultRow (v : Vars) (i : nat) (questions : list ExamQuestion)
    : option ResultRow :=
  res ← results v !! i;
  let corr := correctCount res in
  parts ← lookupConfig (examType v);
  part ← parts !! i;
  Some {| rr_label := label part; rr_correct := corr;
          rr_total := length questions;
          rr_percent := percent corr (length questions) |}.

(** The result (lines 564-575). *)
Definition renderResult (v : Vars) : option (list ResultRow) :=
  mapM (λ row, row) (imap (renderResultRow v) (simQuestions v)).

(** The background of an answer button of the practice card (lines
    647-652). *)
Definition lernColour (v : Vars) (q : ShuffledQuestion)
    (opt : AnswerOption) : Colour :=
  if decide (selectedAnswer v !! number q = Some (id opt))
  then if isCorrect opt then Green else Red
  else Blue.

(** An answer button of the practice card (lines 643-673). *)
Definition renderLernAnswer (v : Vars) (q : ShuffledQuestion) (index : nat)
    (opt : AnswerOption) : AnswerButton :=
  {| ab_key := id opt;
     ab_disabled := false;
     ab_onClick := ClickLernAnswer (id opt);
     ab_colour := lernColour v q opt;
     ab_style :=
       Button false
         (Some [ ("backgroundColor", hex (lernColour v q opt));
                 ("color", "white"); ("whiteSpace", "normal");
                 ("lineHeight", "1.2"); ("display", "flex");
                 ("flexDirection", "row"); ("alignItems", "center");
                 ("gap", "8px"); ("justifyContent", "flex-start") ]);
     ab_letter := letter index;
     ab_text := renderMath (text opt);
     ab_picture := truthy (pictureOf q (id opt)) |}.

(** The question of the practice card (lines 628-693). *)
Definition renderLernQuestion (v : Vars) (q : ShuffledQuestion)
    : LernQuestion :=
  {| lq_number := number q;
     lq_question := renderMath (question q);
     lq_picture := truthy (picture_question q);
     lq_answers := imap (renderLernAnswer v q) (answers q);
     lq_verdict := lernVerdict v q;
     lq_next := {| pb_text := "Nächste Frage"; pb_disabled := false;
                   pb_onClick := ClickNextQuestion |} |}.

(** An option of the category selector (lines 600-602). *)
Definition renderCategory (o : CategoryOption) : string * string :=
  (optionValue o, repeat_ nbsp (co_depth o * 4) +:+ optionValue o).

(** The practice card (lines 578-699). *)
Definition renderLern (v : Vars) : option LernCard :=
  question ←
    (if decide (0 < length (filteredQuestions v))
     then q ← filteredQuestions v !! lernIndex v;
          Some (Some (renderLernQuestion v q))
     else Some None);
  Some {|
    lc_category :=
      {| sel_value := selectedCategory v;
         sel_options :=
           (EmptyString, "Alle Kategorien")
           :: (renderCategory <$> getIndentedCategories (questions v));
         sel_onChange := ChangeCategory |};
    lc_class :=
      {| sel_value := selectedClass v;
         sel_options :=
           (EmptyString, "Alle Klassen")
           :: ((λ cls, (cls, cls)) <$> classes (questions v));
         sel_onChange := ChangeClass |};
    lc_question := question |}.

(** ** The page *)

(** [const current = mode === "simulation" ?
      simQuestions[partIndex][qIndex] : undefined;] with the part it was
    read from.  The outer [None] is the [TypeError] of an index into
    [undefined]. *)
Definition readCurrent (v : Vars)
    : option (option (list ExamQuestion * ExamQuestion)) :=
  if decide (mode v = simulation)
  then part ← simQuestions v !! partIndex v;
       Some ((λ cur, (part, cur)) <$> part !! qIndex v)
  else Some None.

(** The component's [return (...)]. *)
Definition render (v : Vars) : option View :=
  cur ← readCurrent v;
  settings ←
    when (bool_decide (mode v = setup ∨ mode v = simulation
                       ∨ mode v = partSummary)) (renderSettings v);
  summary ← when (bool_decide (mode v = partSummary)) (renderSummary v);
  res ← when (bool_decide (mode v = result)) (renderResult v);
  lern ← when (bool_decide (mode v = lernmodus)) (renderLern v);
  Some {| nav := renderNav;
          settingsCard := settings;
          questionCard := (λ '(part, cur), renderQuestion v part cur) <$> cur;
          summaryCard := summary;
          resultCard := res;
          lernCard := lern |}.
End cards.

(** ** The controls of a page and the events they raise *)

Inductive Control :=
  | CButton (b : PlainButton)
  | CAnswer (b : AnswerButton)
  | CSelect (sel : Select).

(** A button that is not disabled raises its click; a selector raises a
    change to the value of any of its options. *)
Definition raises (c : Control) (e : Event) : Prop :=
  match c with
  | CButton b => pb_disabled b = false ∧ e = pb_onClick b
  | CAnswer b => ab_disabled b = false ∧ e = ab_onClick b
  | CSelect sel =>
      ∃ value, value ∈ (sel_options sel).*1 ∧ e = sel_onChange sel value
  end.

Definition settingsControls (card : SettingsCard) : list Control :=
  match sc_examType card with inl sel => [CSelect sel] | inr _ => [] end
  ++ match sc_start card with Some b => [CButton b] | None => [] end.

Definition questionControls (card : QuestionCard) : list Control :=
  (CAnswer <$> qc_answers card)
  ++ match qc_footer card with
     | Unresolved b => [CButton b]
     | Resolved _ b => [CButton b]
     end.

Definition summaryControls (card : SummaryCard) : list Control :=
  [CButton (sm_weiter card)].

Definition lernControls (card : LernCard) : list Control :=
  [CSelect (lc_category card); CSelect (lc_class card)]
  ++ match lc_question card with
     | Some q => (CAnswer <$> lq_answers q) ++ [CButton (lq_next q)]
     | None => []
     end.

(** The controls of the cards that are on the page. *)
Definition controls (view : View) : list Control :=
  (CButton <$> nav view)
  ++ from_option settingsControls [] (settingsCard view)
  ++ from_option questionControls [] (questionCard view)
  ++ from_option summaryControls [] (summaryCard view)
  ++ from_option lernControls [] (lernCard view).

(** The page offers an event when one of its controls raises it. *)
Definition offered (view : View) (e : Event) : Prop :=
  ∃ c, c ∈ controls view ∧ raises c e.
