(* ===== verification/Scenario.v ===== *)
(** * Scenario: a small catalogue and the component run on it

    A catalogue of six questions in the three categories the exam scheme
    filters on, and the states the component goes through on it.  The
    examples evaluate the definitions of the other files on concrete
    input; the theorems of the later files take their concrete instances
    from here. *)

From stdpp Require Import gmap pretty.
From Stdlib Require Import QArith.
From S2P Require Import Prelude Random Shuffle Question JsString ExamConfig.
From S2P Require Import PartBuilder Scorer State Simulation Lernmodus App.
From S2P Require Import Math View.

Close Scope Q_scope.

(** The pages of the scenarios are rendered with the katex of the
    examples of [Math]. *)
#[export] Existing Instance boxKatex.

Definition demoQuestion (n c : string) : Question :=
  {| number := n; class := c; question := "Frage " +:+ n +:+ ": $U = R I$";
     answer_a := "richtig"; answer_b := "falsch 1";
     answer_c := "falsch 2"; answer_d := "falsch 3";
     picture_question := None; picture_a := None; picture_b := None;
     picture_c := None; picture_d := None |}.

Definition demoCatalogue : list Section_ :=
  [ mkSection "Pruefungsfragen" None
      (Some
         [ mkSection "Technische Kenntnisse"
             (Some [demoQuestion "NA101" "1"; demoQuestion "EA101" "2";
                    demoQuestion "EA102" "2"; demoQuestion "AA101" "3"])
             None;
           mkSection "Betriebliche Kenntnisse"
             (Some [demoQuestion "BA101" "1"]) None;
           mkSection "Kenntnisse von Vorschriften"
             (Some [demoQuestion "VA101" "1"]) None ]) ].

(** A catalogue of 25 questions on regulations and nothing else. *)
Definition vorschriftenCatalogue : list Section_ :=
  [ mkSection "Pruefungsfragen" None
      (Some
         [ mkSection "Kenntnisse von Vorschriften"
             (Some ((λ n, demoQuestion ("VA" +:+ pretty n) "1") <$> seq 1 25))
             None ]) ].

(** The values [Math.random] returns, in turn. *)
Definition demoTape : Rng :=
  [3#4; 1#4; 1#8; 7#8; 1#2; 5#8; 3#8; 1#16; 15#16; 1#4; 3#4; 1#8; 5#8;
   7#8; 1#4; 3#4; 1#2; 1#8; 3#8; 5#8; 7#8; 1#16; 3#16; 5#16; 7#16; 9#16]%Q.

(** The page is loaded, the catalogue has arrived. *)
Definition demoLoaded : State :=
  default (initialState demoTape)
    (run [Fetched demoCatalogue] (initialState demoTape)).

(** An exam started before the catalogue has arrived: its parts are
    empty. *)
Definition demoEmpty : State :=
  default (initialState demoTape)
    (run [ClickPruefungssimulation; ClickStart] (initialState demoTape)).

(** The upgrade exam from class N to class E has been chosen. *)
Definition demoSetup : State :=
  default demoLoaded
    (run [ClickPruefungssimulation; ChangeExamType "N->E"] demoLoaded).

(** The upgrade exam from class N to class E has been started. *)
Definition demoStarted : State :=
  default demoLoaded
    (run [ClickPruefungssimulation; ChangeExamType "N->E"; ClickStart]
       demoLoaded).

(** Answering the question shown with the option [optId] and going on. *)
Definition answer (optId : string) : list Event :=
  [ClickAnswer optId; ClickAufloesen; ClickWeiter].

(** The candidate has selected option B of the first question. *)
Definition demoSelected : State :=
  default demoStarted (run [ClickAnswer "B"] demoStarted).

(** The candidate has resolved the first question. *)
Definition demoResolved : State :=
  default demoSelected (run [ClickAufloesen] demoSelected).

(** The candidate has answered all but the last question and resolved
    the last. *)
Definition demoLast : State :=
  default demoStarted
    (run (concat (replicate 24 (answer "A"))
          ++ [ClickAnswer "A"; ClickAufloesen]) demoStarted).

(** The candidate is at the summary of the part. *)
Definition demoSummary : State :=
  default demoLast (run [ClickWeiter] demoLast).

(** A page without cards and a card without content, for the defaults
    below. *)
Definition emptyView : View :=
  {| nav := []; settingsCard := None; questionCard := None;
     summaryCard := None; resultCard := None; lernCard := None |}.

Definition emptyCard : QuestionCard :=
  {| qc_number := EmptyString; qc_partLabel := EmptyString;
     qc_minutes := EmptyString; qc_seconds := EmptyString;
     qc_position := 0; qc_total := 0; qc_question := EmptyString;
     qc_picture := None; qc_answers := [];
     qc_footer := Resolved false {| pb_text := EmptyString;
                                    pb_disabled := true;
                                    pb_onClick := Tick |} |}.

(** The page after the first question was resolved, and its question
    card. *)
Definition demoResolvedView : View :=
  default emptyView (render (vars demoResolved)).

Definition demoResolvedCard : QuestionCard :=
  default emptyCard (questionCard demoResolvedView).

(** The page after option B of the first question was selected, and its
    question card. *)
Definition demoSelectedView : View :=
  default emptyView (render (vars demoSelected)).

Definition demoSelectedCard : QuestionCard :=
  default emptyCard (questionCard demoSelectedView).

(** The exam answered with the option [optId] throughout. *)
Definition demoAnswered (optId : string) : option State :=
  run (concat (replicate 25 (answer optId)) ++ [ClickContinue]) demoStarted.

(** The result of the exam answered with A throughout, its page and the
    rows of its result card. *)
Definition demoResult : State :=
  default demoSummary (run [ClickContinue] demoSummary).

Definition demoResultView : View :=
  default emptyView (render (vars demoResult)).

Definition demoResultRows : list ResultRow :=
  default [] (resultCard demoResultView).

(** The page of the part summary and its settings card. *)
Definition emptySettings : SettingsCard :=
  {| sc_examType := inr EmptyString; sc_start := None; sc_rows := [] |}.

Definition demoSummaryView : View :=
  default emptyView (render (vars demoSummary)).

Definition demoSummarySettings : SettingsCard :=
  default emptySettings (settingsCard demoSummaryView).

(** The one part of that exam. *)
Definition demoPart : list ExamQuestion :=
  default [] (simQuestions (vars demoStarted) !! 0).

(** The numbers of the questions of a part. *)
Definition partNumbers (part : list ExamQuestion) : list string :=
  (λ q, number (eq_question q)) <$> part.

Example demoLoaded_run :
  run [Fetched demoCatalogue] (initialState demoTape) = Some demoLoaded.
Proof. by vm_compute. Qed.

Example demoLoaded_numbers :
  (λ q : ShuffledQuestion, number q) <$> questions (vars demoLoaded)
  = ["NA101"; "EA101"; "EA102"; "AA101"; "BA101"; "VA101"].
Proof. by vm_compute. Qed.

(** The upgrade exam on a catalogue that has questions on regulations
    only: its one part, the technical part of class E, has no question. *)
Example vorschriften_only :
  (λ s, (mode (vars s), length <$> simQuestions (vars s),
         length (questions (vars s))))
    <$> run [Fetched vorschriftenCatalogue; ClickPruefungssimulation;
             ChangeExamType "N->E"; ClickStart] (initialState demoTape)
  = Some (simulation, [0], 25).
Proof. by vm_compute. Qed.

(** In the practice mode the first question of the catalogue is shown and
    its answers can be clicked. *)
Example demoLoaded_mode : mode (vars demoLoaded) = lernmodus.
Proof. by vm_compute. Qed.

Example demoLoaded_filtered : filteredQuestions (vars demoLoaded) ≠ [].
Proof. by vm_compute. Qed.

Example demoLoaded_category :
  enabled demoLoaded (ChangeCategory "Betriebliche Kenntnisse").
Proof. apply (bool_decide_unpack _). by vm_compute. Qed.

(** The category of the operating rules has one question. *)
Example demoLoaded_filter :
  (λ q : ShuffledQuestion, number q)
    <$> filteredQuestions
          (setSelectedCategory "Betriebliche Kenntnisse" (vars demoLoaded))
  = ["BA101"].
Proof. by vm_compute. Qed.

Example demoLoaded_enabled : enabled demoLoaded (ClickLernAnswer "B").
Proof. apply (bool_decide_unpack _). by vm_compute. Qed.

Example demoEmpty_run :
  run [ClickPruefungssimulation; ClickStart] (initialState demoTape)
  = Some demoEmpty.
Proof. by vm_compute. Qed.

Example demoEmpty_mode : mode (vars demoEmpty) = simulation.
Proof. by vm_compute. Qed.

Example demoEmpty_part :
  simQuestions (vars demoEmpty) !! partIndex (vars demoEmpty) = Some [].
Proof. by vm_compute. Qed.

Example demoEmpty_timeLeft : timeLeft (vars demoEmpty) = 2700.
Proof. by vm_compute. Qed.

Example demoSetup_run :
  run [ClickPruefungssimulation; ChangeExamType "N->E"] demoLoaded
  = Some demoSetup.
Proof. by vm_compute. Qed.

Example demoSetup_mode : mode (vars demoSetup) = setup.
Proof. by vm_compute. Qed.

Example demoSetup_parts :
  lookupConfig (examType (vars demoSetup)) = Some [technikE].
Proof. by vm_compute. Qed.

Example demoSetup_matching :
  Forall (λ part, matching (questions (vars demoSetup)) part ≠ [])
    [technikE].
Proof. constructor; [|constructor]. by vm_compute. Qed.

Example demoStarted_run :
  run [ClickPruefungssimulation; ChangeExamType "N->E"; ClickStart] demoLoaded
  = Some demoStarted.
Proof. by vm_compute. Qed.

(** The part of 25 questions is built from the two questions of class E,
    one after the other, and the clock is set to 45 minutes. *)
Example demoStarted_part :
  mode (vars demoStarted) = simulation
  ∧ timeLeft (vars demoStarted) = 2700
  ∧ timer demoStarted = Some (vars demoStarted)
  ∧ partNumbers <$> simQuestions (vars demoStarted)
    = [take 25 (concat (replicate 13 ["EA102"; "EA101"]))].
Proof. by vm_compute. Qed.

Example demoSelected_run :
  run [ClickAnswer "B"] demoStarted = Some demoSelected.
Proof. by vm_compute. Qed.

Example demoSelected_selected : selected (vars demoSelected) = Some "B".
Proof. by vm_compute. Qed.

Example demoSelected_enabled : enabled demoSelected ClickAufloesen.
Proof. apply (bool_decide_unpack _). by vm_compute. Qed.

Example demoResolved_run :
  run [ClickAufloesen] demoSelected = Some demoResolved.
Proof. by vm_compute. Qed.

Example demoResolved_enabled : enabled demoResolved ClickWeiter.
Proof. apply (bool_decide_unpack _). by vm_compute. Qed.

Example demoSelected_render :
  render (vars demoSelected) = Some demoSelectedView.
Proof. by vm_compute. Qed.

Example demoSelected_card :
  questionCard demoSelectedView = Some demoSelectedCard.
Proof. by vm_compute. Qed.

(** The formula of the question is shown as katex renders it. *)
Example demoSelected_question :
  qc_question demoSelectedCard = "Frage EA102: <span>U = R I</span>".
Proof. by vm_compute. Qed.

Example demoSelected_showSolution : showSolution (vars demoSelected) = false.
Proof. by vm_compute. Qed.

Example demoResult_run : run [ClickContinue] demoSummary = Some demoResult.
Proof. by vm_compute. Qed.

Example demoResult_render : render (vars demoResult) = Some demoResultView.
Proof. by vm_compute. Qed.

Example demoResult_rows : resultCard demoResultView = Some demoResultRows.
Proof. by vm_compute. Qed.

Example demoResult_parts :
  lookupConfig (examType (vars demoResult)) = Some [technikE].
Proof. by vm_compute. Qed.

Example demoResult_page :
  demoResultRows
  = [ {| rr_label := "Technik E (E)"; rr_correct := 25; rr_total := 25;
         rr_percent := percent 25 25 |} ].
Proof. by vm_compute. Qed.

(** At the summary of the part the settings card says that the part is
    passed. *)
Example demoSummary_render :
  render (vars demoSummary) = Some demoSummaryView.
Proof. by vm_compute. Qed.

Example demoSummary_settings :
  settingsCard demoSummaryView = Some demoSummarySettings.
Proof. by vm_compute. Qed.

Example demoSummary_rows :
  sc_rows demoSummarySettings
  = [ {| pr_label := "Technik E (E)"; pr_count := 25; pr_durationMin := 45;
         pr_verdict := Some Bestanden |} ].
Proof. by vm_compute. Qed.

Example demoResolved_render :
  render (vars demoResolved) = Some demoResolvedView.
Proof. by vm_compute. Qed.

Example demoResolved_card :
  questionCard demoResolvedView = Some demoResolvedCard.
Proof. by vm_compute. Qed.

Example demoResolved_showSolution : showSolution (vars demoResolved) = true.
Proof. by vm_compute. Qed.

(** The page shows the clock at 45:00, the four options in the order the
    shuffle gave them, the right one green and the selected wrong one
    red. *)
Example demoResolved_page :
  qc_minutes demoResolvedCard = "45" ∧ qc_seconds demoResolvedCard = "00"
  ∧ (λ b, (ab_letter b, ab_key b, ab_colour b))
      <$> qc_answers demoResolvedCard
    = [("A:", "A", Green); ("B:", "C", Blue); ("C:", "D", Blue);
       ("D:", "B", Red)]
  ∧ qc_position demoResolvedCard = 1 ∧ qc_total demoResolvedCard = 25.
Proof. by vm_compute. Qed.

Example demoLast_run :
  run (concat (replicate 24 (answer "A")) ++ [ClickAnswer "A"; ClickAufloesen])
    demoStarted
  = Some demoLast.
Proof. by vm_compute. Qed.

Example demoLast_enabled : enabled demoLast ClickWeiter.
Proof. apply (bool_decide_unpack _). by vm_compute. Qed.

Example demoSummary_run : run [ClickWeiter] demoLast = Some demoSummary.
Proof. by vm_compute. Qed.

Example demoSummary_enabled : enabled demoSummary ClickContinue.
Proof. apply (bool_decide_unpack _). by vm_compute. Qed.

Example demoSetup_enabled : enabled demoSetup ClickStart.
Proof. apply (bool_decide_unpack _). by vm_compute. Qed.

Example demoStarted_timeLeft : timeLeft (vars demoStarted) = 2700.
Proof. by vm_compute. Qed.

Example demoStarted_timer : timer demoStarted = Some (vars demoStarted).
Proof. by vm_compute. Qed.

Example demoStarted_mode : mode (vars demoStarted) = simulation.
Proof. by vm_compute. Qed.

Example demoStarted_qIndex : qIndex (vars demoStarted) = 0.
Proof. by vm_compute. Qed.

Example demoStarted_demoPart :
  simQuestions (vars demoStarted) !! partIndex (vars demoStarted)
  = Some demoPart.
Proof. by vm_compute. Qed.

Example length_demoPart : length demoPart = 25.
Proof. by vm_compute. Qed.

(** Answering A throughout passes the exam, answering B fails it. *)
Example demoAnswered_A :
  (λ s, (mode (vars s), results (vars s), timer s)) <$> demoAnswered "A"
  = Some (result, [replicate 25 true], None).
Proof. by vm_compute. Qed.

Example demoAnswered_B :
  (λ s, (mode (vars s), correctCount <$> results (vars s)))
    <$> demoAnswered "B"
  = Some (result, [0]).
Proof. by vm_compute. Qed.

(** Nothing but the two buttons above the card is offered before the
    catalogue has arrived and the exam has started. *)
Example initial_offers :
  bool_decide (enabled (initialState demoTape) ClickStart) = false
  ∧ bool_decide (enabled (initialState demoTape) ClickNextQuestion) = false
  ∧ bool_decide (enabled (initialState demoTape) Tick) = false.
Proof. by vm_compute. Qed.
