(* ===== verification/Invariant.v ===== *)
(** * Invariant: what holds in every reachable state

    The invariant has one clause per concern: the exam type is a key of
    the registry; the interval is armed exactly in [simulation] and its
    closure is the render of the part's first question; the questions are
    well formed; the practice index is in range; and, while a simulation
    is on, the pools and results agree with the scheme.  Each clause is
    preserved by every event; the proofs go clause by clause. *)

From stdpp Require Import gmap.
From S2P Require Import Prelude Random Shuffle Question JsString ExamConfig.
From S2P Require Import PartBuilder Scorer State Simulation Lernmodus App.
From S2P Require Import Scenario.

(** ** The clauses *)

(** The interval is armed exactly in [simulation]; its closure has the
    pools and the part of the current render, and question index 0. *)
Definition timer_ok (s : State) : Prop :=
  match timer s with
  | Some r => mode (vars s) = simulation
              ∧ simQuestions r = simQuestions (vars s)
              ∧ partIndex r = partIndex (vars s)
              ∧ qIndex r = 0
  | None => mode (vars s) ≠ simulation
  end.

(** The practice index is 0 or inside the filtered list, and nothing is
    loaded before the fetch resolves. *)
Definition lern_ok (s : State) : Prop :=
  (fetched s = false → questions (vars s) = [] ∧ lernIndex (vars s) = 0)
  ∧ (lernIndex (vars s) = 0
     ∨ lernIndex (vars s) < length (filteredQuestions (vars s))).

(** The pools are those of the scheme of the exam type, part by part;
    there is a result list per pool; the part index is in range. *)
Definition scheme_ok (v : Vars) : Prop :=
  ∃ parts, lookupConfig (examType v) = Some parts
           ∧ Forall2 pool_of parts (simQuestions v)
           ∧ length (results v) = length parts
           ∧ partIndex v < length parts.

(** No part has more results than questions, and later parts have none. *)
Definition results_ok (v : Vars) : Prop :=
  ∀ i part res,
    simQuestions v !! i = Some part → results v !! i = Some res →
    length res ≤ length part ∧ (partIndex v < i → res = []).

(** In the current part there is at most one result per question seen;
    a shown solution belongs to a question of the part. *)
Definition progress_ok (v : Vars) : Prop :=
  ∀ part res,
    simQuestions v !! partIndex v = Some part →
    results v !! partIndex v = Some res →
    if showSolution v
    then qIndex v < length part ∧ length res ≤ qIndex v + 1
    else length res ≤ qIndex v.

Record sim_ok (v : Vars) : Prop := {
  sim_scheme : scheme_ok v;
  sim_results : results_ok v;
  sim_progress : progress_ok v;
}.

Definition simulating (v : Vars) : Prop :=
  mode v = simulation ∨ mode v = partSummary ∨ mode v = result.

Record Inv (s : State) : Prop := {
  inv_examType : examType (vars s) ∈ examTypes;
  inv_timer : timer_ok s;
  inv_questions : Forall wf_question (questions (vars s));
  inv_lern : lern_ok s;
  inv_sim : simulating (vars s) → sim_ok (vars s);
}.

#[export] Instance simulating_dec v : Decision (simulating v).
Proof. unfold simulating. apply _. Defined.

(** ** The effect *)

Section runEffect.
Implicit Types (old : Vars) (s : State).

Lemma vars_runEffect old s : vars (runEffect old s) = vars s.
Proof. unfold runEffect. by repeat case_decide. Qed.

Lemma rng_runEffect old s : rng (runEffect old s) = rng s.
Proof. unfold runEffect. by repeat case_decide. Qed.

Lemma fetched_runEffect old s : fetched (runEffect old s) = fetched s.
Proof. unfold runEffect. by repeat case_decide. Qed.

(** Nothing the effect depends on changed: it does not run. *)
Lemma runEffect_same old s :
  mode old = mode (vars s) → partIndex old = partIndex (vars s) →
  runEffect old s = s.
Proof. intros. unfold runEffect. by rewrite decide_True. Qed.

(** After the effect the interval is armed exactly in [simulation]. *)
Lemma timer_runEffect old s :
  (mode old = simulation ↔ is_Some (timer s)) →
  timer (runEffect old s)
  = if decide (mode old = mode (vars s) ∧ partIndex old = partIndex (vars s))
    then timer s
    else if decide (mode (vars s) = simulation) then Some (vars s) else None.
Proof.
  intros Ht. unfold runEffect. repeat case_decide; simpl; try done.
  destruct (timer s) as [r|]; [|done]. destruct Ht as [_ Ht]. by destruct Ht.
Qed.
End runEffect.

#[export] Hint Rewrite vars_runEffect rng_runEffect fetched_runEffect : afu_rw.

(** ** Tactics for the case analysis over events *)

Ltac unfold_handlers :=
  unfold handle, onFetched, clickLernmodus, enterSetup, changeExamType,
    startSimulation, clickAnswer, handleResolve, handleNext,
    handleContinue, changeCategory, changeClass, clickLernAnswer,
    handleAnswerCheck, clickNextQuestion in *.

Ltac unfold_enabled :=
  unfold enabled, navOffers, settingsOffers, questionOffers, summaryOffers,
    lernOffers in *.

(** Split on the event, open the handler, and name what it computed. *)
Ltac handler_cases e :=
  destruct e; unfold_handlers;
  repeat case_match; simplify_option_eq; try done.

(** ** The shape of the handlers' results *)

Section shapes.
Implicit Types (r : Vars) (s : State).

Lemma handleNext_cases r s s1 :
  handleNext r s = Some s1 →
  ∃ part, simQuestions r !! partIndex r = Some part ∧
    ((qIndex r + 1 < length part ∧
      s1 = update (setShowSolution false ∘ setSelected None
                   ∘ setQIndex (qIndex (vars s) + 1)) s)
     ∨ (length part ≤ qIndex r + 1 ∧ s1 = update (setMode partSummary) s)).
Proof.
  unfold handleNext.
  destruct (simQuestions r !! partIndex r) as [part|] eqn:Hp; [simpl|done].
  intros Hn. exists part. split; [done|].
  case_decide; simplify_eq; [left|right]; split; (done || lia).
Qed.

Lemma tick_cases s s1 :
  tick s = Some s1 →
  ∃ r, timer s = Some r ∧
    ((1 < timeLeft (vars s)
      ∧ s1 = update (setTimeLeft (timeLeft (vars s) - 1)) s)
     ∨ (timeLeft (vars s) ≤ 1
        ∧ ∃ s0, handleNext r s = Some s0 ∧ s1 = update (setTimeLeft 0) s0)).
Proof.
  unfold tick. intros Ht. destruct (timer s) as [r|]; [|done]. simpl in Ht.
  exists r. split; [done|]. case_decide.
  - left. by simplify_eq.
  - right. split; [lia|]. destruct (handleNext r s) as [s0|]; [|done].
    simpl in Ht. exists s0. by simplify_eq.
Qed.

Lemma startSimulation_cases `{ArraySort} r s s1 :
  startSimulation r s = Some s1 →
  ∃ parts first,
    lookupConfig (examType r) = Some parts ∧ parts !! 0 = Some first ∧
    let pools := (buildPools (questions r) parts (rng s)).1 in
    s1 = setRng (buildPools (questions r) parts (rng s)).2
           (update (setTimeLeft (durationMin first * 60)
                    ∘ setMode simulation ∘ setShowSolution false
                    ∘ setSelected None ∘ setQIndex 0 ∘ setPartIndex 0
                    ∘ setResults ((λ _, []) <$> pools)
                    ∘ setSimQuestions pools) s).
Proof.
  unfold startSimulation. intros Hs.
  destruct (lookupConfig (examType r)) as [parts|] eqn:Hl; [simpl in Hs|done].
  destruct (buildPools _ _ _) as [pools g] eqn:Hb.
  destruct (parts !! 0) as [first|] eqn:Hf; [simpl in Hs|done].
  exists parts, first. rewrite Hb. split_and!; [done..|]. by simplify_eq/=.
Qed.

Lemma handleResolve_cases r s s1 :
  handleResolve r s = Some s1 →
  (falsy (selected r) = true ∧ s1 = s)
  ∨ ∃ part eq arr,
      falsy (selected r) = false ∧
      simQuestions r !! partIndex r = Some part ∧ part !! qIndex r = Some eq ∧
      results (vars s) !! partIndex r = Some arr ∧
      let correct :=
        default false (findCorrect (eq_question eq) (selected r)) in
      s1 = update (setShowSolution true
                   ∘ setResults (<[partIndex r := arr ++ [correct]]>
                                   (results (vars s)))) s.
Proof.
  unfold handleResolve, pushResult. intros Hr.
  destruct (falsy (selected r)); [left; by simplify_eq|right].
  destruct (simQuestions r !! partIndex r) as [part|] eqn:Hp;
    [simpl in Hr|done].
  destruct (part !! qIndex r) as [eq|] eqn:Hq; [simpl in Hr|done].
  destruct (results (vars s) !! partIndex r) as [arr|] eqn:Ha;
    [simpl in Hr|done].
  exists part, eq, arr. split_and!; [done..|]. by simplify_eq/=.
Qed.

Lemma handleContinue_cases r s s1 :
  handleContinue r s = Some s1 →
  (∃ parts part,
     partIndex r + 1 < length (simQuestions r) ∧
     lookupConfig (examType r) = Some parts ∧
     parts !! (partIndex r + 1) = Some part ∧
     s1 = update (setTimeLeft (durationMin part * 60)
                  ∘ setMode simulation ∘ setShowSolution false
                  ∘ setSelected None ∘ setQIndex 0
                  ∘ setPartIndex (partIndex r + 1)) s)
  ∨ (length (simQuestions r) ≤ partIndex r + 1
     ∧ s1 = setTimer None (update (setMode result) s)).
Proof.
  unfold handleContinue. intros Hc. case_decide.
  - left. destruct (lookupConfig (examType r)) as [parts|] eqn:Hl;
      [simpl in Hc|done].
    destruct (parts !! (partIndex r + 1)) as [part|] eqn:Hp;
      [simpl in Hc|done].
    exists parts, part. split_and!; [done..|]. by simplify_eq/=.
  - right. split; [lia|]. by simplify_eq.
Qed.

Lemma dispatch_Some `{ArraySort} e s s' :
  dispatch e s = Some s'
  ↔ ∃ s1, handle e s = Some s1 ∧ s' = runEffect (vars s) s1.
Proof.
  unfold dispatch. destruct (handle e s) as [s1|]; simpl.
  - split; [intros [= <-]; eauto|]. by intros (? & [= <-] & ->).
  - split; [done|]. by intros (? & ? & _).
Qed.

(** A property of the state that the two branches of [tick] establish. *)
Lemma tick_elim (P : State → Prop) s s1 :
  tick s = Some s1 →
  (∀ n, P (update (setTimeLeft n) s)) →
  (∀ r s0, timer s = Some r → handleNext r s = Some s0 →
           P (update (setTimeLeft 0) s0)) →
  P s1.
Proof.
  intros (r & Hr & [[_ ->]|(_ & s0 & Hn & ->)])%tick_cases Hdec Hnext; eauto.
Qed.
End shapes.

(** ** The filtered list depends on three variables *)

Lemma filteredQuestions_frame (v v' : Vars) :
  questions v' = questions v → selectedCategory v' = selectedCategory v →
  selectedClass v' = selectedClass v →
  filteredQuestions v' = filteredQuestions v.
Proof. unfold filteredQuestions. by intros -> -> ->. Qed.

(** The simulation clauses depend on six variables. *)
Lemma sim_ok_frame (v v' : Vars) :
  examType v' = examType v → simQuestions v' = simQuestions v →
  partIndex v' = partIndex v → results v' = results v →
  showSolution v' = showSolution v → qIndex v' = qIndex v →
  sim_ok v → sim_ok v'.
Proof.
  intros Hx Hs Hp Hr Hsh Hq [Hsch Hres Hpro].
  split; unfold scheme_ok, results_ok, progress_ok in *.
  - by rewrite Hx, Hs, Hp, Hr.
  - by rewrite Hs, Hp, Hr.
  - by rewrite Hs, Hp, Hr, Hsh, Hq.
Qed.

Lemma lern_ok_frame (s s' : State) :
  fetched s' = fetched s → questions (vars s') = questions (vars s) →
  lernIndex (vars s') = lernIndex (vars s) →
  selectedCategory (vars s') = selectedCategory (vars s) →
  selectedClass (vars s') = selectedClass (vars s) →
  lern_ok s → lern_ok s'.
Proof.
  unfold lern_ok. intros -> Hq -> Hc Hk.
  by rewrite (filteredQuestions_frame _ _ Hq Hc Hk), Hq.
Qed.

(** ** The simulation clauses under the simulation's handlers *)

Section sim_ok.
Context (v : Vars).

Lemma sim_ok_resolve part eq arr correct :
  sim_ok v →
  simQuestions v !! partIndex v = Some part → part !! qIndex v = Some eq →
  results v !! partIndex v = Some arr → showSolution v = false →
  sim_ok ((setShowSolution true
           ∘ setResults (<[partIndex v := arr ++ [correct]]> (results v))) v).
Proof.
  intros [Hsch Hres Hpro] Hpart Hq%lookup_lt_Some Harr Hshow.
  pose proof (Hpro _ _ Hpart Harr) as Hlen. rewrite Hshow in Hlen.
  pose proof (lookup_lt_Some _ _ _ Harr) as Hlt.
  split; unfold scheme_ok, results_ok, progress_ok in *; simpl.
  - by rewrite length_insert.
  - intros i part' res Hpart' Hr'.
    destruct (decide (i = partIndex v)) as [->|Hne].
    + rewrite list_lookup_insert_eq in Hr' by done. simplify_eq.
      rewrite length_app. simpl. split; lia.
    + rewrite list_lookup_insert_ne in Hr' by done. eauto.
  - intros part' res Hpart'. rewrite list_lookup_insert_eq by done.
    intros [= <-]. simplify_eq. rewrite length_app. simpl. lia.
Qed.

Lemma sim_ok_next :
  sim_ok v →
  sim_ok ((setShowSolution false ∘ setSelected None
           ∘ setQIndex (qIndex v + 1)) v).
Proof.
  intros [Hsch Hres Hpro].
  split; unfold scheme_ok, results_ok, progress_ok in *; simpl; [done..|].
  intros part res Hpart Hr. specialize (Hpro _ _ Hpart Hr).
  destruct (showSolution v); lia.
Qed.

Lemma sim_ok_continue n :
  sim_ok v → partIndex v + 1 < length (simQuestions v) →
  sim_ok ((setTimeLeft n ∘ setMode simulation ∘ setShowSolution false
           ∘ setSelected None ∘ setQIndex 0
           ∘ setPartIndex (partIndex v + 1)) v).
Proof.
  intros [(parts & Hl & Hpools & Hlen & Hp) Hres Hpro] Hlt.
  split; unfold scheme_ok, results_ok, progress_ok in *; simpl.
  - exists parts. split_and!; [done..|].
    by rewrite (Forall2_length _ _ _ Hpools).
  - intros i part res Hpart Hr. destruct (Hres _ _ _ Hpart Hr) as [? Hnil].
    split; [done|]. intros ?. apply Hnil. lia.
  - intros part res Hpart Hr. destruct (Hres _ _ _ Hpart Hr) as [_ ->];
      simpl; lia.
Qed.

Lemma sim_ok_start `{ArraySort} parts first g n :
  Forall wf_question (questions v) →
  lookupConfig (examType v) = Some parts → parts !! 0 = Some first →
  let pools := (buildPools (questions v) parts g).1 in
  sim_ok ((setTimeLeft n ∘ setMode simulation ∘ setShowSolution false
           ∘ setSelected None ∘ setQIndex 0 ∘ setPartIndex 0
           ∘ setResults ((λ _, []) <$> pools) ∘ setSimQuestions pools) v).
Proof.
  intros Hwf Hl Hfirst pools. subst pools.
  split; unfold scheme_ok, results_ok, progress_ok; simpl.
  - exists parts. split_and!; [done|by apply buildPools_pool_of|..].
    + by rewrite length_fmap, length_buildPools.
    + by apply lookup_lt_Some in Hfirst.
  - intros i part res _ (? & -> & _)%list_lookup_fmap_Some. simpl.
    split; [lia|done].
  - by intros part res _ (? & -> & _)%list_lookup_fmap_Some.
Qed.
End sim_ok.

(** [open_handler Hh] replaces the result of the handler in
    [Hh : handle e s = Some s1] by what the handler computed, one goal per
    branch of the handler. *)
Ltac open_handler Hh :=
  simpl in Hh;
  first
    [ apply startSimulation_cases in Hh
        as (?parts & ?first & ?Hlookup & ?Hfirst & ->)
    | apply handleResolve_cases in Hh
        as [[?Hfalsy ->]
           |(?part & ?eq & ?arr & ?Hsel & ?Hpart & ?Hq & ?Harr & ->)]
    | apply handleNext_cases in Hh as (?part & ?Hpart & [[?Hlt ->]|[?Hge ->]])
    | apply handleContinue_cases in Hh
        as [(?parts & ?part & ?Hlt & ?Hlookup & ?Hpart & ->)|[?Hge ->]]
    | apply tick_cases in Hh
        as (?r & ?Hr & [[?Hleft ->]
                       |(?Hleft & ?s0 &
                         (?part & ?Hpart & [[?Hlt ->]|[?Hge ->]])
                           %handleNext_cases & ->)])
    | unfold onFetched, clickLernmodus, enterSetup, changeExamType,
        clickAnswer, changeCategory, changeClass, clickLernAnswer,
        handleAnswerCheck, clickNextQuestion in Hh;
      repeat case_match; simplify_option_eq ].

(** ** Preservation, clause by clause

    Each lemma takes a state that satisfies the clause, an event the page
    offers and the state the handler returns. *)

Section preservation.
Context `{ArraySort}.
Implicit Types (e : Event) (s : State).

Lemma handle_examType e s (s1 : State) :
  examType (vars s) ∈ examTypes → enabled s e → handle e s = Some s1 →
  examType (vars s1) ∈ examTypes.
Proof.
  intros Hx Hen Hh. destruct e; open_handler Hh; try done.
  by apply enabled_ChangeExamType in Hen as [_ ?].
Qed.

Lemma handle_questions e s (s1 : State) :
  Forall wf_question (questions (vars s)) → handle e s = Some s1 →
  Forall wf_question (questions (vars s1)).
Proof.
  intros Hq Hh. destruct e; open_handler Hh; try done.
  simpl. match goal with Hl : loadQuestions ?x ?g = _ |- _ =>
    pose proof (loadQuestions_wf x g) as Hwf; by rewrite Hl in Hwf end.
Qed.

Lemma handle_lern_ok e s (s1 : State) :
  lern_ok s → enabled s e → handle e s = Some s1 → lern_ok s1.
Proof.
  intros Hl Hen Hh.
  destruct e; open_handler Hh;
    try (by eapply lern_ok_frame; [..|done]);
    destruct Hl as [Hf Hi]; split; simpl; try (by left); try done.
  - (* Fetched: the index is still 0 *)
    left. by destruct (Hf Hen).
  - (* ChangeCategory *) intros Hnf. by destruct (Hf Hnf).
  - (* ChangeClass *) intros Hnf. by destruct (Hf Hnf).
  - (* ClickNextQuestion, before the fetch: not offered *)
    apply enabled_ClickNextQuestion in Hen as [_ Hne].
    intros Hnf. destruct (Hf Hnf) as [Hq _].
    destruct Hne. unfold filteredQuestions. by rewrite Hq.
  - (* ClickNextQuestion *)
    apply enabled_ClickNextQuestion in Hen as [_ Hne].
    right. erewrite filteredQuestions_frame by done.
    apply Nat.mod_upper_bound. by rewrite length_zero_iff_nil'.
Qed.

(** What the interval needs to know about a handler: it leaves
    [timerRef] alone, and either it keeps the mode, the part and, in
    [simulation], the pools, or it changes mode or part and then leaves
    [simulation] or starts a part at its first question. *)
Lemma handle_timer_facts e s (s1 : State) :
  timer_ok s → enabled s e → handle e s = Some s1 →
  timer s1 = timer s ∧
  ((mode (vars s) = mode (vars s1) ∧ partIndex (vars s) = partIndex (vars s1)
    ∧ (mode (vars s) = simulation
       → simQuestions (vars s1) = simQuestions (vars s)))
   ∨ (¬ (mode (vars s) = mode (vars s1)
         ∧ partIndex (vars s) = partIndex (vars s1))
      ∧ (mode (vars s1) ≠ simulation ∨ qIndex (vars s1) = 0))).
Proof.
  intros Ht Hen Hh. unfold timer_ok in Ht.
  destruct e; open_handler Hh; simpl;
    try (split; [done|by left]);
    try apply enabled_ClickStart in Hen;
    try apply enabled_ClickContinue in Hen;
    try apply enabled_ClickWeiter in Hen as [[? (? & _)%current_Some] _];
    destruct (timer s) as [r'|]; destruct_and?; simplify_eq/=;
    try (split; [done|]);
    destruct (mode (vars s)); try done;
    first [ by left
          | by right; split; [intros [? ?]|first [by left|by right]] ].
Qed.

Lemma dispatch_timer_ok e s (s' : State) :
  timer_ok s → enabled s e → dispatch e s = Some s' → timer_ok s'.
Proof.
  intros Ht Hen (s1 & Hh & ->)%dispatch_Some.
  destruct (handle_timer_facts _ _ _ Ht Hen Hh) as [Htimer Hfacts].
  unfold timer_ok in *. rewrite timer_runEffect, vars_runEffect, Htimer.
  2: { rewrite Htimer. destruct (timer s); [|split; [done|by intros []]].
       by destruct Ht. }
  case_decide as Hsame.
  - destruct Hfacts as [(Hm & Hp & Hq)|[[] _]]; [|done].
    destruct (timer s); [|congruence]. destruct Ht as (? & ? & ? & ?).
    split_and!; try congruence. by rewrite Hq.
  - destruct Hfacts as [(? & ? & _)|[_ [?|?]]]; [by destruct Hsame|..];
      by case_decide.
Qed.

(** The mode an offered event implies. *)
Lemma enabled_mode e s :
  timer_ok s → enabled s e →
  match e with
  | ChangeExamType _ | ClickStart => mode (vars s) = setup
  | ClickAnswer _ | ClickAufloesen | ClickWeiter | Tick =>
      mode (vars s) = simulation
  | ClickContinue => mode (vars s) = partSummary
  | ChangeCategory _ | ChangeClass _ | ClickLernAnswer _
  | ClickNextQuestion => mode (vars s) = lernmodus
  | _ => True
  end.
Proof.
  intros Ht. unfold timer_ok in Ht. destruct e; try done.
  - by intros [? _]%enabled_ChangeExamType.
  - by intros ?%enabled_ClickStart.
  - by intros (? & (? & _)%current_Some & _)%enabled_ClickAnswer.
  - by intros [[? (? & _)%current_Some] _]%enabled_ClickAufloesen.
  - by intros [[? (? & _)%current_Some] _]%enabled_ClickWeiter.
  - by intros ?%enabled_ClickContinue.
  - simpl. intros [r Hr]. rewrite Hr in Ht. by destruct Ht.
  - by intros [? _]%enabled_ChangeCategory.
  - by intros [? _]%enabled_ChangeClass.
  - by intros [? _]%enabled_ClickLernAnswer.
  - by intros [? _]%enabled_ClickNextQuestion.
Qed.

Lemma handle_sim_ok e s (s1 : State) :
  Inv s → enabled s e → handle e s = Some s1 →
  simulating (vars s1) → sim_ok (vars s1).
Proof.
  intros [Hx Ht Hq _ Hsim] Hen Hh.
  pose proof (enabled_mode _ _ Ht Hen) as Hm.
  unfold simulating in *.
  destruct e; open_handler Hh; simpl; intros Hs1;
    try (by destruct Hs1 as [|[|]]; congruence);
    try (by apply (sim_ok_frame (vars s)); [..|apply Hsim; auto]).
  - (* ClickStart *) by eapply sim_ok_start.
  - (* ClickAufloesen *)
    apply enabled_ClickAufloesen in Hen as (_ & Hshow & _).
    eapply sim_ok_resolve; eauto.
  - (* ClickWeiter *) apply sim_ok_next; auto.
  - (* ClickContinue *) apply sim_ok_continue; auto.
  - (* Tick, the time is up *)
    eapply (sim_ok_frame (_ (vars s))); [..|apply sim_ok_next; auto]; done.
Qed.
End preservation.

(** ** The invariant holds in every reachable state *)

Section reachable.
Context `{ArraySort}.

Lemma Inv_initialState g : Inv (initialState g).
Proof.
  split; simpl; try done.
  - by apply (bool_decide_unpack _).
  - split; [done|by left].
  - by intros [|[|]].
Qed.

(** One event the page offers takes a state that satisfies the invariant
    to one that does. *)
Lemma Inv_step (s : State) (e : Event) (s' : State) :
  Inv s → step s e s' → Inv s'.
Proof.
  intros Hinv [Hen Hd]. pose proof Hd as (s1 & Hh & ->)%dispatch_Some.
  pose proof Hinv as [Hx Ht Hq Hl Hsim].
  split; autorewrite with afu_rw.
  - eauto using handle_examType.
  - eauto using dispatch_timer_ok.
  - eauto using handle_questions.
  - eapply lern_ok_frame; [..|by eapply handle_lern_ok];
      by autorewrite with afu_rw.
  - by eapply handle_sim_ok.
Qed.

Lemma reachable_Inv (s : State) : reachable s → Inv s.
Proof. induction 1; eauto using Inv_initialState, Inv_step. Qed.

Lemma run_cons e es s :
  run (e :: es) s
  = if decide (enabled s e) then dispatch e s ≫= run es else None.
Proof. done. Qed.

Lemma run_app es1 es2 s : run (es1 ++ es2) s = run es1 s ≫= run es2.
Proof.
  revert s. induction es1 as [|e es IH]; intros s; [done|].
  simpl. case_decide; [|done]. destruct (dispatch e s); simpl; auto.
Qed.

(** A run is a sequence of steps. *)
Lemma run_ind (P : State → Prop) es s (s' : State) :
  (∀ s1 e s2, P s1 → step s1 e s2 → P s2) →
  P s → run es s = Some s' → P s'.
Proof.
  intros Hstep. revert s. induction es as [|e es IH]; intros s Hs; simpl.
  - by intros [= <-].
  - case_decide as Hen; [|done].
    destruct (dispatch e s) as [s1|] eqn:Hd; [simpl|done].
    apply IH. by apply (Hstep s e).
Qed.

Lemma run_reachable es s (s' : State) :
  reachable s → run es s = Some s' → reachable s'.
Proof. apply run_ind. intros. by eapply reachable_step. Qed.

Lemma Inv_run (es : list Event) (s s' : State) :
  Inv s → run es s = Some s' → Inv s'.
Proof. apply run_ind. intros. by eapply Inv_step. Qed.

(** C2. From the mount on, whatever events the page is given in whatever
    order, the state that results satisfies the invariant: the interval is
    armed exactly in [simulation] with the closure of the part's first
    question, pools and results agree with the scheme, results never
    outnumber the questions seen, and the practice index stays in
    range. *)
Theorem run_Inv (es : list Event) (g : Rng) (s : State) :
  run es (initialState g) = Some s → Inv s.
Proof. apply Inv_run, Inv_initialState. Qed.
End reachable.

Lemma demoStarted_reachable : reachable demoStarted.
Proof.
  eapply run_reachable; [|apply demoStarted_run].
  eapply run_reachable; [apply reachable_init|apply demoLoaded_run].
Qed.

Lemma demoLoaded_reachable : reachable demoLoaded.
Proof.
  eapply run_reachable; [apply reachable_init|apply demoLoaded_run].
Qed.

Lemma demoSetup_reachable : reachable demoSetup.
Proof.
  eapply run_reachable; [|apply demoSetup_run].
  eapply run_reachable; [apply reachable_init|apply demoLoaded_run].
Qed.

Lemma demoSelected_reachable : reachable demoSelected.
Proof.
  eapply run_reachable; [apply demoStarted_reachable|apply demoSelected_run].
Qed.

Lemma demoResolved_reachable : reachable demoResolved.
Proof.
  eapply run_reachable; [apply demoSelected_reachable|apply demoResolved_run].
Qed.

Lemma demoLast_reachable : reachable demoLast.
Proof.
  eapply run_reachable; [apply demoStarted_reachable|apply demoLast_run].
Qed.

Lemma demoSummary_reachable : reachable demoSummary.
Proof.
  eapply run_reachable; [apply demoLast_reachable|apply demoSummary_run].
Qed.

Lemma demoResult_reachable : reachable demoResult.
Proof.
  eapply run_reachable; [apply demoSummary_reachable|apply demoResult_run].
Qed.

Lemma demoEmpty_reachable : reachable demoEmpty.
Proof.
  eapply run_reachable; [apply reachable_init|apply demoEmpty_run].
Qed.

Lemma run_Inv_witness :
  Inv (update (setResults [] ∘ setMode setup) (initialState [])).
Proof.
  apply (run_Inv [ClickLernmodus; ClickPruefungssimulation] []).
  reflexivity.
Defined.
