(* ===== verification/Safety.v ===== *)
(** * Safety: no handler throws

    In a reachable state every event the page offers is handled without a
    [TypeError]: the invariant gives each handler the array elements it
    reads.  [throws] says in which states a handler does throw; these are
    the states the guards of the page and the invariant keep away. *)

From stdpp Require Import gmap.
From S2P Require Import Prelude Random Shuffle Question JsString ExamConfig.
From S2P Require Import PartBuilder Scorer State Simulation Lernmodus App.
From S2P Require Import Invariant.

(** A state is safe when every event the page offers in it has a next
    state: its handler returns instead of throwing. *)
Definition safe `{ArraySort} (s : State) : Prop :=
  ∀ e, enabled s e → ∃ s', step s e s'.

(** The states in which the handler of an event throws a [TypeError],
    by the property it reads from [undefined]: [parts.map] or
    [parts[0].durationMin] in [startSimulation]; [.question] of the
    question shown or [.push] of the part's results in [handleResolve];
    [.length] of the part in [handleNext], also when the interval calls
    it; [.durationMin] of the next part in [handleContinue]; [.number] of
    the practice question in [handleAnswerCheck]. *)
Definition throws (e : Event) (s : State) : Prop :=
  let v := vars s in
  match e with
  | ClickStart => lookupConfig (examType v) ≫= (.!! 0) = None
  | ClickAufloesen =>
      falsy (selected v) = false
      ∧ (simQuestions v !! partIndex v ≫= (.!! qIndex v) = None
         ∨ results v !! partIndex v = None)
  | ClickWeiter => simQuestions v !! partIndex v = None
  | ClickContinue =>
      partIndex v + 1 < length (simQuestions v)
      ∧ lookupConfig (examType v) ≫= (.!! (partIndex v + 1)) = None
  | Tick =>
      ∃ r, timer s = Some r ∧ timeLeft v ≤ 1
           ∧ simQuestions r !! partIndex r = None
  | ClickLernAnswer _ => filteredQuestions v !! lernIndex v = None
  | _ => False
  end.

(** ** What the invariant gives the handlers *)

Section lookups.
Context (s : State) (Hinv : Inv s) (Hsim : simulating (vars s)).

Lemma Inv_currentPart : is_Some (simQuestions (vars s) !! partIndex (vars s)).
Proof.
  destruct (inv_sim _ Hinv Hsim) as [(parts & _ & Hpools & _ & Hp) _ _].
  apply lookup_lt_is_Some. by rewrite <-(Forall2_length _ _ _ Hpools).
Qed.

Lemma Inv_results : is_Some (results (vars s) !! partIndex (vars s)).
Proof.
  destruct (inv_sim _ Hinv Hsim) as [(parts & _ & _ & Hlen & Hp) _ _].
  apply lookup_lt_is_Some. by rewrite Hlen.
Qed.

Lemma Inv_parts :
  ∃ parts, lookupConfig (examType (vars s)) = Some parts
           ∧ length parts = length (simQuestions (vars s)).
Proof.
  destruct (inv_sim _ Hinv Hsim) as [(parts & Hl & Hpools & _) _ _].
  exists parts. by rewrite (Forall2_length _ _ _ Hpools).
Qed.
End lookups.

(** The question shown in a reachable state is well formed. *)
Lemma Inv_current_wf (s : State) (eq : ExamQuestion) :
  Inv s → current (vars s) = Some eq → wf_question (eq_question eq).
Proof.
  intros Hinv (Hm & part & Hp & Hq)%current_Some.
  destruct (inv_sim _ Hinv) as [(parts & _ & Hpools & _) _ _];
    [by left|].
  destruct (Forall2_lookup_r _ _ _ _ _ Hpools Hp) as (? & _ & _ & Hall).
  rewrite Forall_forall in Hall. apply Hall. by eapply list_elem_of_lookup_2.
Qed.

Section safety.
Context `{ArraySort}.
Implicit Types (s : State) (e : Event).

Lemma startSimulation_is_Some s :
  Inv s → is_Some (startSimulation (vars s) s).
Proof.
  intros Hinv. unfold startSimulation.
  destruct (proj2 (lookupConfig_is_Some _) (inv_examType _ Hinv))
    as [parts Hl].
  rewrite Hl. simpl. destruct (buildPools _ _ _).
  by destruct (lookupConfig_first _ _ Hl) as [first ->].
Qed.

Lemma handleNext_is_Some r s :
  is_Some (simQuestions r !! partIndex r) → is_Some (handleNext r s).
Proof.
  intros [part Hp]. unfold handleNext. rewrite Hp. simpl. by case_decide.
Qed.

Lemma handleResolve_is_Some s :
  Inv s → is_Some (current (vars s)) → is_Some (handleResolve (vars s) s).
Proof.
  intros Hinv [eq (Hm & part & Hp & Hq)%current_Some].
  unfold handleResolve, pushResult. destruct (falsy _); [done|].
  rewrite Hp. simpl. rewrite Hq. simpl.
  by destruct (Inv_results s Hinv (or_introl Hm)) as [arr ->].
Qed.

Lemma handleContinue_is_Some s :
  Inv s → mode (vars s) = partSummary → is_Some (handleContinue (vars s) s).
Proof.
  intros Hinv Hm. unfold handleContinue. case_decide as Hlt; [|done].
  destruct (Inv_parts s Hinv) as (parts & -> & Hlen); [unfold simulating; auto|].
  simpl. rewrite <-Hlen in Hlt.
  by destruct (lookup_lt_is_Some_2 _ _ Hlt) as [part ->].
Qed.

Lemma tick_is_Some s : Inv s → is_Some (timer s) → is_Some (tick s).
Proof.
  intros Hinv [r Hr]. unfold tick. rewrite Hr. simpl.
  case_decide; [done|].
  pose proof (inv_timer _ Hinv) as Ht. unfold timer_ok in Ht.
  rewrite Hr in Ht. destruct Ht as (Hm & Hs & Hp & _).
  destruct (handleNext_is_Some r s) as [s0 ->]; [|done].
  rewrite Hs, Hp. apply Inv_currentPart; [done|by left].
Qed.

Lemma handle_is_Some s e : Inv s → enabled s e → is_Some (handle e s).
Proof.
  intros Hinv Hen. destruct e; simpl; try done.
  - unfold onFetched. by destruct (loadQuestions _ _).
  - by apply startSimulation_is_Some.
  - apply enabled_ClickAufloesen in Hen as [? _].
    by apply handleResolve_is_Some.
  - apply enabled_ClickWeiter in Hen as [[eq (Hm & ? & ? & _)%current_Some] _].
    by apply handleNext_is_Some.
  - apply enabled_ClickContinue in Hen. by apply handleContinue_is_Some.
  - by apply tick_is_Some.
  - apply enabled_ClickLernAnswer in Hen as (_ & q & Hq & _).
    unfold clickLernAnswer. by rewrite Hq.
Qed.

(** C1. In a reachable state no event the page offers makes its handler
    throw: every array the handler indexes has the element it reads, and
    the state after the event is defined. *)
Theorem dispatch_total (s : State) : reachable s → safe s.
Proof.
  intros Hinv%reachable_Inv e Hen.
  destruct (handle_is_Some s e Hinv Hen) as [s1 Hs1].
  exists (runEffect (vars s) s1). split; [done|].
  unfold dispatch. by rewrite Hs1.
Qed.

End safety.

Lemma dispatch_total_witness :
  ∃ s', step (initialState []) ClickPruefungssimulation s'.
Proof.
  apply (dispatch_total (initialState []) (reachable_init [])
           ClickPruefungssimulation).
  by left.
Defined.

(** ** When a handler throws *)

Section throws.
Context `{ArraySort}.
Implicit Types (r : Vars) (s : State).

Lemma startSimulation_None r s :
  startSimulation r s = None ↔ lookupConfig (examType r) ≫= (.!! 0) = None.
Proof.
  unfold startSimulation. destruct (lookupConfig _) as [parts|]; [simpl|done].
  destruct (buildPools _ _ _). by destruct (parts !! 0).
Qed.

Lemma pushResult_None i correct res :
  pushResult i correct res = None ↔ res !! i = None.
Proof. unfold pushResult. by destruct (res !! i). Qed.

Lemma handleResolve_None r s :
  handleResolve r s = None
  ↔ falsy (selected r) = false
    ∧ (simQuestions r !! partIndex r ≫= (.!! qIndex r) = None
       ∨ results (vars s) !! partIndex r = None).
Proof.
  unfold handleResolve. destruct (falsy _); [naive_solver|].
  destruct (simQuestions r !! partIndex r) as [part|]; simpl; [|naive_solver].
  destruct (part !! qIndex r); simpl; [|naive_solver].
  rewrite bind_None, pushResult_None. naive_solver.
Qed.

Lemma handleNext_None r s :
  handleNext r s = None ↔ simQuestions r !! partIndex r = None.
Proof.
  unfold handleNext. destruct (simQuestions r !! partIndex r); simpl; [|done].
  by case_decide.
Qed.

Lemma handleContinue_None r s :
  handleContinue r s = None
  ↔ partIndex r + 1 < length (simQuestions r)
    ∧ lookupConfig (examType r) ≫= (.!! (partIndex r + 1)) = None.
Proof.
  unfold handleContinue. case_decide; [|naive_solver].
  destruct (lookupConfig _) as [parts|]; simpl; [|naive_solver].
  destruct (parts !! _); naive_solver.
Qed.

Lemma tick_None s :
  is_Some (timer s) →
  tick s = None
  ↔ ∃ r, timer s = Some r ∧ timeLeft (vars s) ≤ 1
         ∧ simQuestions r !! partIndex r = None.
Proof.
  intros [r Hr]. unfold tick. rewrite Hr. simpl. case_decide.
  - split; [done|]. intros (? & _ & ? & _). lia.
  - rewrite bind_None, handleNext_None. split.
    + intros [?|(? & _ & ?)]; [|done]. exists r. split_and!; [done|lia|done].
    + intros (? & [= <-] & _ & ?). by left.
Qed.

Lemma clickLernAnswer_None optId r s :
  clickLernAnswer optId r s = None ↔ filteredQuestions r !! lernIndex r = None.
Proof. unfold clickLernAnswer. by destruct (_ !! _). Qed.
End throws.

(** C11. The handler of an event that occurs throws in exactly the states
    [throws] lists: the handlers of the two mode buttons, of the
    selectors, of an answer button of the exam and of the button for the
    next practice question never throw, and each of the others throws
    exactly when the array element it reads is missing. *)
Theorem handle_throws `{ArraySort} (e : Event) (s : State) :
  (e = Tick → is_Some (timer s)) → handle e s = None ↔ throws e s.
Proof.
  intros Ht. destruct e; simpl; try done.
  - unfold onFetched. by destruct (loadQuestions _ _).
  - apply startSimulation_None.
  - apply handleResolve_None.
  - apply handleNext_None.
  - apply handleContinue_None.
  - by apply tick_None, Ht.
  - apply clickLernAnswer_None.
Qed.

(** Before an exam was started the handler of the button for the next
    question throws; the page does not show the button then. *)
Lemma handle_throws_witness :
  handle ClickWeiter (initialState []) = None
  ↔ throws ClickWeiter (initialState []).
Proof. by apply (handle_throws ClickWeiter (initialState [])). Defined.
