(* ===== verification/Typed.v ===== *)
(** * Typed: the values the variables hold

    The declarations of App.tsx give [selected] the type [string | null],
    [selectedAnswer] a record of strings and a question any array of
    answers.  The component relies on more: a question has the four
    options of its base question once each, and a selection is the id of
    one of them.  [typed] states this of the variables of a render, and
    every event the page offers keeps it. *)

From stdpp Require Import gmap.
From S2P Require Import Prelude Random Shuffle Question JsString ExamConfig.
From S2P Require Import PartBuilder Scorer State Simulation Lernmodus App.
From S2P Require Import Math View Scenario Invariant Safety.

(** The ids of the options of a question. *)
Definition optionIds : list string := ["A"; "B"; "C"; "D"].

Record typed (v : Vars) : Prop := {
  typed_questions : Forall wf_question (questions v);
  typed_pools :
    Forall (Forall (λ eq, wf_question (eq_question eq))) (simQuestions v);
  typed_selected : ∀ optId, selected v = Some optId → optId ∈ optionIds;
  typed_selectedAnswer :
    ∀ number optId, selectedAnswer v !! number = Some optId →
                    optId ∈ optionIds;
}.

(** ** The ids on the buttons of a well-formed question *)

Lemma buttonIds_wf (q : ShuffledQuestion) (optId : string) :
  wf_question q → optId ∈ buttonIds q → optId ∈ optionIds.
Proof. intros Hwf. unfold buttonIds. by rewrite (wf_ids q Hwf). Qed.

Lemma pool_of_wf (part : ExamPartConfig) (pool : list ExamQuestion) :
  pool_of part pool → Forall (λ eq, wf_question (eq_question eq)) pool.
Proof. intros [_ Hall]. eapply Forall_impl; [done|]. by intros ? (_ & _ & ?). Qed.

Lemma pools_wf (parts : list ExamPartConfig) (pools : list (list ExamQuestion)) :
  Forall2 pool_of parts pools →
  Forall (Forall (λ eq, wf_question (eq_question eq))) pools.
Proof. induction 1; constructor; eauto using pool_of_wf. Qed.

(** ** Preservation, clause by clause *)

Section preservation.
Context `{ArraySort}.
Implicit Types (e : Event) (s : State).

Lemma handle_pools e s (s1 : State) :
  typed (vars s) → handle e s = Some s1 →
  Forall (Forall (λ eq, wf_question (eq_question eq))) (simQuestions (vars s1)).
Proof.
  intros [Hq Hp _ _] Hh. destruct e; open_handler Hh; simpl; try done.
  eapply pools_wf. by apply buildPools_pool_of.
Qed.

Lemma handle_selected e s (s1 : State) optId :
  Inv s → typed (vars s) → enabled s e → handle e s = Some s1 →
  selected (vars s1) = Some optId → optId ∈ optionIds.
Proof.
  intros Hinv [_ _ Hsel _] Hen Hh.
  destruct e; open_handler Hh; simpl; try done; try apply Hsel.
  intros [= <-].
  apply enabled_ClickAnswer in Hen as (eq & Hcur & _ & Hid).
  eauto using buttonIds_wf, Inv_current_wf.
Qed.

Lemma handle_selectedAnswer e s (s1 : State) number optId :
  typed (vars s) → enabled s e → handle e s = Some s1 →
  selectedAnswer (vars s1) !! number = Some optId → optId ∈ optionIds.
Proof.
  intros [Hq _ _ Hsel] Hen Hh.
  destruct e; open_handler Hh; simpl; try done; try apply Hsel.
  apply enabled_ClickLernAnswer in Hen as (_ & q & Hq' & Hid).
  intros [[_ <-]|[_ ?]]%lookup_insert_Some; [|by eapply Hsel].
  simplify_eq. apply (buttonIds_wf q); [|done].
  apply list_elem_of_lookup_2, filteredQuestions_elem_of in Hq' as [Hin _].
  by apply (proj1 (Forall_forall _ _) Hq).
Qed.

Lemma typed_initialState g : typed (vars (initialState g)).
Proof. by split. Qed.

Lemma typed_step s e (s' : State) :
  Inv s → typed (vars s) → step s e s' → typed (vars s').
Proof.
  intros Hinv Ht [Hen (s1 & Hh & ->)%dispatch_Some].
  rewrite vars_runEffect. split.
  - eapply handle_questions; [apply Ht|done].
  - by eapply handle_pools.
  - intros optId. by eapply handle_selected.
  - intros number optId. by eapply handle_selectedAnswer.
Qed.

Lemma reachable_typed s : reachable s → typed (vars s).
Proof.
  induction 1; eauto using typed_initialState, typed_step, reachable_Inv.
Qed.
End preservation.

(** C10. In every reachable state the variables hold values of the kinds
    the component relies on: every question of the catalogue and of the
    parts of the exam has the four options of its base question once
    each, and a selection, in the exam and in the practice mode, is one
    of the ids A, B, C and D. *)
Theorem state_typed `{ArraySort} (s : State) : reachable s → typed (vars s).
Proof. apply reachable_typed. Qed.

Lemma state_typed_witness : typed (vars demoSelected).
Proof. apply (state_typed demoSelected), demoSelected_reachable. Defined.
