(* ===== verification/Page.v ===== *)
(** * Page: the page of a reachable state

    In a reachable state the component renders without a [TypeError], and
    what it renders agrees with the state: the controls on the page are
    the events the step relation allows, the colours of the answer
    buttons tell the right answer once the question is resolved and not
    before, the clock has two digits each for minutes and seconds, the
    numbers of the result are those of the results, and the settings
    card shows the verdict of a part when all its results are in. *)

From stdpp Require Import gmap.
From Stdlib Require Import QArith.
From S2P Require Import Prelude Random Shuffle Question JsString JsText JsMap.
From S2P Require Import ExamConfig PartBuilder Scorer State Simulation.
From S2P Require Import Categories Lernmodus App Math Presentation View.
From S2P Require Import Scenario Invariant.
From S2P Require Import Safety.

Close Scope Q_scope.

(** The page of a state: what the component returns when React renders
    it with the variables of that state. *)
Definition page `{Katex} (s : State) : option View := render (vars s).

(** What a row of the result shows for a part of the scheme. *)
Definition row_of (row : ResultRow) (part : ExamPartConfig) : Prop :=
  rr_label row = label part ∧ rr_correct row ≤ rr_total row
  ∧ (rr_total row = 0 ∧ rr_percent row = NaN
     ∨ rr_total row = 25
       ∧ rr_percent row = Finite (inject_Z (4 * Z.of_nat (rr_correct row)))).

(** What a row of the settings card says of the results of a part of
    25 questions: nothing before all are resolved, then whether 19 are
    right. *)
Definition indicator (res : list bool) : option Verdict :=
  if decide (length res = 25)
  then Some (if decide (19 ≤ correctCount res)
             then Bestanden else NichtBestanden)
  else None.

(** The events a list of controls raises. *)
Definition raised (cs : list Control) (e : Event) : Prop :=
  ∃ c, c ∈ cs ∧ raises c e.

(** ** Rendering does not throw *)

Section total.
Context `{ArraySort} `{Katex}.
Context (s : State) (Hinv : Inv s).

Lemma when_is_Some {A} (cond : bool) (element : option A) :
  (cond = true → is_Some element) → is_Some (when cond element).
Proof.
  intros Hc. unfold when. destruct cond; [|done].
  destruct Hc as [x ->]; [done|]. by eexists.
Qed.

Lemma readCurrent_is_Some : is_Some (readCurrent (vars s)).
Proof.
  unfold readCurrent. case_decide as Hm; [|done].
  destruct (Inv_currentPart s Hinv) as [part ->]; [by left|]. by eexists.
Qed.

Lemma renderSettings_is_Some : is_Some (renderSettings (vars s)).
Proof.
  unfold renderSettings.
  destruct (proj2 (lookupConfig_is_Some _) (inv_examType _ Hinv)) as [? ->].
  by eexists.
Qed.

Lemma renderSummary_is_Some :
  mode (vars s) = partSummary → is_Some (renderSummary (vars s)).
Proof.
  intros Hm. assert (simulating (vars s)) as Hsim by (by right; left).
  unfold renderSummary.
  destruct (inv_sim _ Hinv Hsim) as [(parts & -> & _ & _ & Hp) _ _].
  apply lookup_lt_is_Some in Hp as [part Hpart].
  destruct (Inv_results s Hinv Hsim) as [res Hres].
  destruct (Inv_currentPart s Hinv Hsim) as [qs Hqs].
  simpl. rewrite Hpart. simpl. rewrite Hres. simpl. rewrite Hqs. by eexists.
Qed.

Lemma renderResultRow_is_Some i questions :
  simulating (vars s) → simQuestions (vars s) !! i = Some questions →
  is_Some (renderResultRow (vars s) i questions).
Proof.
  intros Hsim Hi%lookup_lt_Some. unfold renderResultRow.
  destruct (inv_sim _ Hinv Hsim) as [(parts & -> & Hpools & Hlen & _) _ _].
  rewrite <-(Forall2_length _ _ _ Hpools) in Hi.
  destruct (lookup_lt_is_Some_2 (results (vars s)) i) as [res ->]; [lia|].
  destruct (lookup_lt_is_Some_2 parts i) as [part Hpart]; [lia|].
  simpl. rewrite Hpart. by eexists.
Qed.

Lemma renderResult_is_Some :
  mode (vars s) = result → is_Some (renderResult (vars s)).
Proof.
  intros Hm. unfold renderResult. apply mapM_is_Some, Forall_lookup.
  intros i row (questions & Hq & ->)%list_lookup_imap_Some.
  apply renderResultRow_is_Some; [by right; right|done].
Qed.

Lemma renderLern_is_Some : is_Some (renderLern (vars s)).
Proof.
  unfold renderLern. case_decide as Hlen; [|by eexists].
  destruct (lookup_lt_is_Some_2 (filteredQuestions (vars s))
              (lernIndex (vars s))) as [q ->]; [|by eexists].
  destruct (inv_lern _ Hinv) as [_ [->|?]]; done.
Qed.
End total.

(** The page of a state that satisfies the invariant. *)
Lemma Inv_page `{ArraySort} `{Katex} (s : State) : Inv s → is_Some (page s).
Proof.
  intros Hinv. unfold page, render.
  destruct (readCurrent_is_Some s Hinv) as [cur ->].
  destruct (when_is_Some (bool_decide (mode (vars s) = setup
              ∨ mode (vars s) = simulation ∨ mode (vars s) = partSummary))
              (renderSettings (vars s))) as [settings ->];
    [intros _; by apply renderSettings_is_Some|].
  destruct (when_is_Some (bool_decide (mode (vars s) = partSummary))
              (renderSummary (vars s))) as [summary ->];
    [intros ?%bool_decide_eq_true; by apply renderSummary_is_Some|].
  destruct (when_is_Some (bool_decide (mode (vars s) = result))
              (renderResult (vars s))) as [res ->];
    [intros ?%bool_decide_eq_true; by apply renderResult_is_Some|].
  destruct (when_is_Some (bool_decide (mode (vars s) = lernmodus))
              (renderLern (vars s))) as [lern ->];
    [intros _; by apply renderLern_is_Some|].
  by eexists.
Qed.


(** C9. In a reachable state the component renders: no index read while
    rendering is out of range, in the settings card, the question card,
    the part summary, the result or the practice card. *)
Theorem render_total `{ArraySort} `{Katex} (s : State) :
  reachable s → is_Some (page s).
Proof. intros Hinv%reachable_Inv. by apply Inv_page. Qed.

Lemma render_total_witness : is_Some (page demoSummary).
Proof. apply (render_total demoSummary), demoSummary_reachable. Defined.

(** ** What a rendered page consists of *)

Section inversion.
Context `{Katex}.
Implicit Types (v : Vars) (view : View).

Lemma when_Some {A} (cond : bool) (element : option A) (x : option A) :
  when cond element = Some x
  ↔ if cond then ∃ y, element = Some y ∧ x = Some y else x = None.
Proof.
  unfold when. destruct cond; [rewrite fmap_Some|]; naive_solver.
Qed.

Lemma render_Some v view :
  render v = Some view →
  ∃ cur,
    readCurrent v = Some cur
    ∧ nav view = renderNav
    ∧ questionCard view
      = (λ '(part, cur), renderQuestion v part cur) <$> cur
    ∧ when (bool_decide (mode v = setup ∨ mode v = simulation
                         ∨ mode v = partSummary)) (renderSettings v)
      = Some (settingsCard view)
    ∧ when (bool_decide (mode v = partSummary)) (renderSummary v)
      = Some (summaryCard view)
    ∧ when (bool_decide (mode v = result)) (renderResult v)
      = Some (resultCard view)
    ∧ when (bool_decide (mode v = lernmodus)) (renderLern v)
      = Some (lernCard view).
Proof.
  unfold render. intros Hr.
  destruct (readCurrent v) as [cur|]; [simpl in Hr|done].
  destruct (when _ (renderSettings v)) as [settings|]; [simpl in Hr|done].
  destruct (when _ (renderSummary v)) as [summary|]; [simpl in Hr|done].
  destruct (when _ (renderResult v)) as [res|]; [simpl in Hr|done].
  destruct (when _ (renderLern v)) as [lern|]; [simpl in Hr|done].
  exists cur. by simplify_eq.
Qed.

Lemma readCurrent_Some v cur :
  readCurrent v = Some cur →
  (λ pc, pc.2) <$> cur = current v
  ∧ ∀ part c, cur = Some (part, c) →
      mode v = simulation ∧ simQuestions v !! partIndex v = Some part
      ∧ part !! qIndex v = Some c.
Proof.
  unfold readCurrent, current, currentPart. case_decide as Hm.
  - destruct (simQuestions v !! partIndex v) as [part|]; [simpl|done].
    intros [= <-]. split; [by destruct (part !! qIndex v)|].
    intros part' c (c' & Hc & [= -> ->])%fmap_Some. done.
  - intros [= <-]. split; [done|]. by intros ???.
Qed.

(** The question card is the card of the current question. *)
Lemma render_questionCard v view card :
  render v = Some view → questionCard view = Some card →
  ∃ part cur, mode v = simulation
              ∧ simQuestions v !! partIndex v = Some part
              ∧ part !! qIndex v = Some cur
              ∧ current v = Some cur
              ∧ card = renderQuestion v part cur.
Proof.
  intros (cur & Hcur & _ & Hq & _)%render_Some Hcard.
  rewrite Hq in Hcard. apply fmap_Some in Hcard as ([part c] & -> & ->).
  destruct (readCurrent_Some _ _ Hcur) as [Hc Hpart].
  destruct (Hpart part c eq_refl) as (? & ? & ?).
  exists part, c. by rewrite <-Hc.
Qed.

Lemma elem_of_imap {A B} (f : nat → A → B) (l : list A) (y : B) :
  y ∈ imap f l ↔ ∃ i x, l !! i = Some x ∧ y = f i x.
Proof.
  rewrite list_elem_of_lookup. setoid_rewrite list_lookup_imap_Some.
  naive_solver.
Qed.

Lemma keys_renderAnswer v (q : ShuffledQuestion) :
  ab_key <$> imap (renderAnswer v q) (answers q) = id <$> answers q.
Proof. rewrite fmap_imap. apply imap_const. Qed.
End inversion.

(** ** The colours of the answer buttons *)

(** C22. The answer buttons and the footer of the question card say what
    the state says and no more.  There is one button for each of the four
    options; the buttons are disabled exactly when the question is
    resolved; before that the colour of a button tells only whether it is
    the selected one; after that the button of the option of slot a, and
    only it, is green, and a button is red exactly when it is the
    selected one and is not right.  The footer is the resolve button,
    disabled without a selection, or the verdict, which is right exactly
    for a selection of the option of slot a. *)
Theorem answer_colours `{ArraySort} `{Katex} (s : State) (view : View)
    (card : QuestionCard) :
  reachable s → page s = Some view → questionCard view = Some card →
  ab_key <$> qc_answers card ≡ₚ ["A"; "B"; "C"; "D"]
  ∧ Forall (λ b, ab_disabled b = showSolution (vars s)
                 ∧ ab_colour b
                   = if showSolution (vars s)
                     then if decide (ab_key b = "A") then Green
                          else if decide (Some (ab_key b) = selected (vars s))
                               then Red else Blue
                     else if decide (Some (ab_key b) = selected (vars s))
                          then DarkBlue else Blue)
      (qc_answers card)
  ∧ match qc_footer card with
    | Unresolved aufloesen =>
        showSolution (vars s) = false
        ∧ pb_disabled aufloesen = falsy (selected (vars s))
    | Resolved richtig _ =>
        showSolution (vars s) = true
        ∧ richtig = bool_decide (selected (vars s) = Some "A")
    end.
Proof.
  intros Hinv%reachable_Inv Hr Hcard.
  destruct (render_questionCard _ _ _ Hr Hcard)
    as (part & cur & _ & _ & _ & Hcur & ->).
  pose proof (Inv_current_wf s cur Hinv Hcur) as Hwf. simpl. split_and!.
  - rewrite keys_renderAnswer. by apply wf_ids.
  - apply Forall_forall. intros b (i & opt & Hopt & ->)%elem_of_imap. simpl.
    apply list_elem_of_lookup_2 in Hopt.
    pose proof (wf_correct_iff _ Hwf opt Hopt) as Hc.
    unfold answerColour. split; [done|].
    destruct (showSolution (vars s)), (isCorrect opt); simpl;
      repeat case_decide; naive_solver.
  - unfold renderFooter. destruct (showSolution (vars s)); simpl; [|done].
    by rewrite findCorrect_verdict.
Qed.

Lemma answer_colours_witness :
  ab_key <$> qc_answers demoResolvedCard ≡ₚ ["A"; "B"; "C"; "D"]
  ∧ Forall (λ b, ab_disabled b = showSolution (vars demoResolved)
                 ∧ ab_colour b
                   = if showSolution (vars demoResolved)
                     then if decide (ab_key b = "A") then Green
                          else if decide (Some (ab_key b)
                                          = selected (vars demoResolved))
                               then Red else Blue
                     else if decide (Some (ab_key b)
                                     = selected (vars demoResolved))
                          then DarkBlue else Blue)
      (qc_answers demoResolvedCard)
  ∧ match qc_footer demoResolvedCard with
    | Unresolved aufloesen =>
        showSolution (vars demoResolved) = false
        ∧ pb_disabled aufloesen = falsy (selected (vars demoResolved))
    | Resolved richtig _ =>
        showSolution (vars demoResolved) = true
        ∧ richtig = bool_decide (selected (vars demoResolved) = Some "A")
    end.
Proof.
  apply (answer_colours demoResolved demoResolvedView demoResolvedCard).
  - apply demoResolved_reachable.
  - apply demoResolved_render.
  - apply demoResolved_card.
Defined.

(** ** The style of an answer button *)

(** The background of an answer button is its colour, the cursor tells
    whether the button is enabled, and no property is declared twice; the
    button of the exam is a block, the one of the practice card a flex
    box. *)
Lemma renderAnswer_style `{Katex} v q index opt :
  let b := renderAnswer v q index opt in
  styleOf (ab_style b) "backgroundColor" = Some (hex (ab_colour b))
  ∧ styleOf (ab_style b) "cursor"
    = Some (if ab_disabled b then "default" else "pointer")
  ∧ styleOf (ab_style b) "display" = Some "block"
  ∧ NoDup (ab_style b).*1.
Proof.
  simpl. destruct (showSolution v); split_and!; try done;
    by apply (bool_decide_unpack _).
Qed.

Lemma renderLernAnswer_style `{Katex} v q index opt :
  let b := renderLernAnswer v q index opt in
  styleOf (ab_style b) "backgroundColor" = Some (hex (ab_colour b))
  ∧ styleOf (ab_style b) "cursor" = Some "pointer"
  ∧ styleOf (ab_style b) "display" = Some "flex"
  ∧ NoDup (ab_style b).*1.
Proof. simpl. split_and!; try done. by apply (bool_decide_unpack _). Qed.

(** ** The clock *)

Section clock.
Context `{ArraySort}.

(** A part lasts an hour at most. *)
Lemma duration_bound (examType : string) (parts : list ExamPartConfig)
    (i : nat) (part : ExamPartConfig) :
  lookupConfig examType = Some parts → parts !! i = Some part →
  durationMin part * 60 ≤ 3600.
Proof.
  intros Hl Hp%list_elem_of_lookup_2.
  destruct (proj1 (Forall_forall _ _) (lookupConfig_parts_ok _ _ Hl) _ Hp)
    as [_ ->].
  case_bool_decide; lia.
Qed.

(** A bound on the durations bounds the time left. *)
Lemma step_timeLeft (bound : nat) (s : State) (e : Event) (s' : State) :
  (∀ examType parts i part,
     lookupConfig examType = Some parts → parts !! i = Some part →
     durationMin part * 60 ≤ bound) →
  step s e s' → timeLeft (vars s) ≤ bound → timeLeft (vars s') ≤ bound.
Proof.
  intros Hbound [_ (s1 & Hh & ->)%dispatch_Some] Hle.
  rewrite vars_runEffect.
  destruct e; open_handler Hh; simpl; eauto with lia.
Qed.

Lemma reachable_timeLeft (s : State) :
  reachable s → timeLeft (vars s) ≤ 3600.
Proof.
  induction 1 as [g|s e s' _ IH Hstep]; [cbn; lia|].
  eapply step_timeLeft; [apply duration_bound|done..].
Qed.
End clock.

(** The numbers below 100 have two digits at most. *)
Lemma length_toString (n : nat) : n < 100 → String.length (toString n) ≤ 2.
Proof.
  intros Hn.
  assert (Forall (λ n, String.length (toString n) ≤ 2) (seq 0 100)) as Hall
    by (apply (bool_decide_unpack _); by vm_compute).
  apply (proj1 (Forall_forall _ _) Hall), elem_of_seq. lia.
Qed.

(** C31. The clock of the question card never counts more than an hour
    and always shows two digits for the minutes and two for the
    seconds. *)
Theorem clock_format `{ArraySort} `{Katex} (s : State) (view : View)
    (card : QuestionCard) :
  reachable s → page s = Some view → questionCard view = Some card →
  timeLeft (vars s) ≤ 3600
  ∧ String.length (qc_minutes card) = 2
  ∧ String.length (qc_seconds card) = 2.
Proof.
  intros Hle%reachable_timeLeft Hr Hcard.
  destruct (render_questionCard _ _ _ Hr Hcard)
    as (part & cur & _ & _ & _ & _ & ->).
  unfold renderQuestion. cbn [qc_minutes qc_seconds].
  rewrite !length_padStart. split; [done|].
  pose proof (length_toString (timeLeft (vars s) / 60)) as Hm.
  pose proof (length_toString (timeLeft (vars s) `mod` 60)) as Hs.
  pose proof (Nat.Div0.div_le_mono _ _ 60 Hle) as Hdiv.
  change (3600 / 60) with 60 in Hdiv.
  pose proof (Nat.mod_upper_bound (timeLeft (vars s)) 60).
  lia.
Qed.

Lemma clock_format_witness :
  timeLeft (vars demoResolved) ≤ 3600
  ∧ String.length (qc_minutes demoResolvedCard) = 2
  ∧ String.length (qc_seconds demoResolvedCard) = 2.
Proof.
  apply (clock_format demoResolved demoResolvedView demoResolvedCard).
  - apply demoResolved_reachable.
  - apply demoResolved_render.
  - apply demoResolved_card.
Defined.

(** ** The numbers of the result *)

Section result.
Context `{ArraySort} `{Katex}.
Context (s : State) (Hinv : Inv s).
Context (view : View) (rows : list ResultRow).
Context (Hpage : page s = Some view) (Hrows : resultCard view = Some rows).

(** The result is on the page in the mode [result] only, one row for
    each part. *)
Lemma resultCard_Some :
  mode (vars s) = result
  ∧ Forall2 (λ orow row, orow = Some row)
      (imap (renderResultRow (vars s)) (simQuestions (vars s))) rows.
Proof using Hpage Hrows.
  destruct (render_Some _ _ Hpage) as (_ & _ & _ & _ & _ & _ & Hres & _).
  rewrite Hrows in Hres. apply when_Some in Hres.
  case_bool_decide as Hm; [|done]. destruct Hres as (? & Hres & [= <-]).
  split; [done|]. by apply mapM_Some in Hres.
Qed.

Lemma length_resultCard : length rows = length (simQuestions (vars s)).
Proof using Hpage Hrows.
  destruct resultCard_Some as [_ Hall].
  by rewrite <-(Forall2_length _ _ _ Hall), length_imap.
Qed.

(** What a row is made of. *)
Lemma resultCard_lookup i row :
  rows !! i = Some row →
  ∃ questions res parts part,
    simQuestions (vars s) !! i = Some questions
    ∧ results (vars s) !! i = Some res
    ∧ lookupConfig (examType (vars s)) = Some parts ∧ parts !! i = Some part
    ∧ row = {| rr_label := label part; rr_correct := correctCount res;
               rr_total := length questions;
               rr_percent := percent (correctCount res) (length questions) |}.
Proof using Hpage Hrows.
  intros Hrow. destruct resultCard_Some as [_ Hall].
  destruct (Forall2_lookup_r _ _ _ _ _ Hall Hrow)
    as (orow & (qs & Hq & ->)%list_lookup_imap_Some & Horow).
  unfold renderResultRow in Horow.
  apply bind_Some in Horow as (res & Hres & Horow). simpl in Horow.
  apply bind_Some in Horow as (parts & Hl & Horow).
  apply bind_Some in Horow as (part & Hpart & [= <-]).
  by exists qs, res, parts, part.
Qed.

Lemma resultCard_row_of i row parts part :
  lookupConfig (examType (vars s)) = Some parts → parts !! i = Some part →
  rows !! i = Some row → row_of row part.
Proof using All.
  intros Hl Hpart (qs & res & parts' & part' & Hq & Hres & Hl' & Hpart' & ->)
    %resultCard_lookup.
  simplify_eq. destruct resultCard_Some as [Hm _].
  destruct (inv_sim _ Hinv) as [(parts' & Hl' & Hpools & _) Hok _];
    [by right; right|].
  assert (parts' = parts) as -> by congruence.
  destruct (Hok _ _ _ Hq Hres) as [Hlen _].
  pose proof (correctCount_le res).
  destruct (Forall2_lookup_lr _ _ _ _ _ _ Hpools Hpart Hq) as [[->|Hc] _].
  - destruct res; [|simpl in Hlen; lia]. split_and!; [done..|by left].
  - rewrite (lookupConfig_count _ _ Hl part) in Hc
      by by eapply list_elem_of_lookup_2.
    split_and!; [done|simpl; lia|right]. simpl. by rewrite Hc, percent_25.
Qed.

Lemma resultCard_rows parts :
  lookupConfig (examType (vars s)) = Some parts → Forall2 row_of rows parts.
Proof using All.
  intros Hl. destruct resultCard_Some as [Hm _].
  destruct (Inv_parts s Hinv) as (parts' & Hl' & Hlen); [by right; right|].
  assert (parts' = parts) as -> by congruence.
  apply Forall2_same_length_lookup_2; [by rewrite length_resultCard|].
  intros i row part Hrow Hpart. by eapply resultCard_row_of.
Qed.
End result.

(** C29. The result lists every part of the scheme under its label with
    the number of right answers, the number of questions and the
    percentage, which is four times the number of right answers for a
    part of 25 questions and is not a number for a part without
    questions. *)
Theorem result_rows `{ArraySort} `{Katex} (s : State) (view : View)
    (rows : list ResultRow) (parts : list ExamPartConfig) :
  reachable s → page s = Some view → resultCard view = Some rows →
  lookupConfig (examType (vars s)) = Some parts →
  Forall2 row_of rows parts.
Proof. intros Hinv%reachable_Inv ? ? ?. by eapply resultCard_rows. Qed.

Lemma result_rows_witness : Forall2 row_of demoResultRows [technikE].
Proof.
  apply (result_rows demoResult demoResultView).
  - apply demoResult_reachable.
  - apply demoResult_render.
  - apply demoResult_rows.
  - apply demoResult_parts.
Defined.

(** ** The pass indicators of the settings card *)

Lemma verdict_indicator (res : list bool) (part : ExamPartConfig) :
  count part = 25 → verdict res part = indicator res.
Proof.
  intros Hc. unfold verdict, indicator. rewrite Hc.
  case_bool_decide; case_decide; try done. f_equal.
  pose proof (passed_iff res part) as Hp. rewrite Hc in Hp.
  destruct (passed res part); case_decide; try done.
  - destruct (proj1 Hp eq_refl) as (_ & _ & ?). lia.
  - by assert (false = true) by (apply Hp; split_and!; (done || lia)).
Qed.

Lemma indicator_Some (res : list bool) :
  is_Some (indicator res) → length res = 25.
Proof. unfold indicator. case_decide; [done|]. by intros [? [=]]. Qed.

Section settings.
Context `{ArraySort} `{Katex}.
Implicit Types (e : Event) (s : State) (v : Vars).

(** The results are emptied on the way into [setup], and recorded in a
    simulation only. *)
Lemma handle_setup_results e s (s1 : State) :
  timer_ok s → (mode (vars s) = setup → results (vars s) = []) →
  enabled s e → handle e s = Some s1 →
  mode (vars s1) = setup → results (vars s1) = [].
Proof.
  intros Ht IH Hen Hh. pose proof (enabled_mode e s Ht Hen) as Hm.
  destruct e; open_handler Hh; simpl in *; try done; congruence.
Qed.

Lemma setup_results s :
  reachable s → mode (vars s) = setup → results (vars s) = [].
Proof.
  induction 1 as [g|s e s' Hs IH [Hen (s1 & Hh & ->)%dispatch_Some]];
    [done|].
  rewrite vars_runEffect.
  eapply handle_setup_results; eauto using inv_timer, reachable_Inv.
Qed.

(** The settings card is rendered in three of the five modes. *)
Lemma render_settingsCard v view :
  render v = Some view →
  match settingsCard view with
  | Some card => (mode v = setup ∨ mode v = simulation ∨ mode v = partSummary)
                 ∧ renderSettings v = Some card
  | None => mode v = result ∨ mode v = lernmodus
  end.
Proof.
  intros (cur & _ & _ & _ & Hs & _)%render_Some. apply when_Some in Hs.
  case_bool_decide; [by destruct Hs as (card & ? & ->)|].
  rewrite Hs. destruct (mode v); naive_solver.
Qed.

(** A part that has a result is the current part or one before it. *)
Lemma results_upto s i res :
  Inv s → mode (vars s) = simulation ∨ mode (vars s) = partSummary →
  results (vars s) !! i = Some res → res ≠ [] → i ≤ partIndex (vars s).
Proof.
  intros Hinv Hm Hres Hne.
  destruct (inv_sim s Hinv) as [(parts & _ & Hpools & Hlen & _) Hok _];
    [unfold simulating; tauto|].
  destruct (decide (i ≤ partIndex (vars s))) as [|Hi]; [done|].
  apply lookup_lt_Some in Hres as Hlt.
  rewrite Hlen, (Forall2_length _ _ _ Hpools) in Hlt.
  apply lookup_lt_is_Some in Hlt as [part Hpart].
  destruct (Hok i part res Hpart Hres) as [_ Hnil]. destruct Hne.
  apply Hnil. lia.
Qed.

Lemma settings_indicators s card parts i row :
  reachable s → renderSettings (vars s) = Some card →
  mode (vars s) ≠ result → mode (vars s) ≠ lernmodus →
  lookupConfig (examType (vars s)) = Some parts →
  sc_rows card !! i = Some row →
  ∃ part, parts !! i = Some part
          ∧ pr_label row = label part ∧ pr_count row = 25
          ∧ pr_durationMin row = durationMin part
          ∧ pr_verdict row = indicator (default [] (results (vars s) !! i))
          ∧ (is_Some (pr_verdict row)
             → mode (vars s) ≠ setup ∧ i ≤ partIndex (vars s)).
Proof.
  intros Hs Hr Hres Hlern Hl. unfold renderSettings in Hr.
  rewrite Hl in Hr. simpl in Hr. injection Hr as <-. simpl.
  rewrite list_lookup_imap. intros (part & Hpart & ->)%fmap_Some. simpl.
  pose proof (lookupConfig_count _ _ Hl part (list_elem_of_lookup_2 _ _ _ Hpart))
    as Hc.
  exists part. rewrite verdict_indicator by done. split_and!; try done.
  intros Hlen%indicator_Some.
  destruct (results (vars s) !! i) as [res|] eqn:Hi; [simpl in Hlen|done].
  assert (mode (vars s) ≠ setup) as Hsetup.
  { intros Hm. by rewrite (setup_results s Hs Hm) in Hi. }
  split; [done|]. apply (results_upto s i res); eauto using reachable_Inv.
  - destruct (mode (vars s)); naive_solver.
  - by intros ->.
Qed.
End settings.

(** C30. The pass indicators.  The settings card is on the page in the
    modes setup, simulation and partSummary and in no other, so not
    beside the result.  It has a row for every part of the chosen scheme
    with the label, the 25 questions and the duration of the part; a row
    shows a verdict exactly when 25 results of its part are recorded,
    and the verdict is Bestanden exactly when 19 of them are right; a
    verdict is shown only during an examination, for the current part or
    a part before it. *)
Theorem pass_indicators `{ArraySort} `{Katex} (s : State) (view : View) :
  reachable s → page s = Some view →
  match settingsCard view with
  | None => mode (vars s) = result ∨ mode (vars s) = lernmodus
  | Some card =>
      (mode (vars s) = setup ∨ mode (vars s) = simulation
       ∨ mode (vars s) = partSummary)
      ∧ ∃ parts,
          lookupConfig (examType (vars s)) = Some parts
          ∧ length (sc_rows card) = length parts
          ∧ ∀ i row, sc_rows card !! i = Some row →
              ∃ part,
                parts !! i = Some part
                ∧ pr_label row = label part ∧ pr_count row = 25
                ∧ pr_durationMin row = durationMin part
                ∧ pr_verdict row
                  = indicator (default [] (results (vars s) !! i))
                ∧ (is_Some (pr_verdict row)
                   → mode (vars s) ≠ setup ∧ i ≤ partIndex (vars s))
  end.
Proof.
  intros Hs Hr. pose proof (render_settingsCard _ _ Hr) as Hcard.
  destruct (settingsCard view) as [card|]; [|done].
  destruct Hcard as [Hm Hcard]. split; [done|].
  destruct (proj2 (lookupConfig_is_Some _)
              (inv_examType _ (reachable_Inv _ Hs))) as [parts Hl].
  exists parts. split_and!; [done|..].
  - unfold renderSettings in Hcard. rewrite Hl in Hcard.
    injection Hcard as <-. simpl. by rewrite length_imap.
  - intros i row. apply settings_indicators; try done;
      intros Hm'; rewrite Hm' in Hm; naive_solver.
Qed.

Lemma pass_indicators_witness :
  match settingsCard demoSummaryView with
  | None => mode (vars demoSummary) = result
            ∨ mode (vars demoSummary) = lernmodus
  | Some card =>
      (mode (vars demoSummary) = setup ∨ mode (vars demoSummary) = simulation
       ∨ mode (vars demoSummary) = partSummary)
      ∧ ∃ parts,
          lookupConfig (examType (vars demoSummary)) = Some parts
          ∧ length (sc_rows card) = length parts
          ∧ ∀ i row, sc_rows card !! i = Some row →
              ∃ part,
                parts !! i = Some part
                ∧ pr_label row = label part ∧ pr_count row = 25
                ∧ pr_durationMin row = durationMin part
                ∧ pr_verdict row
                  = indicator (default [] (results (vars demoSummary) !! i))
                ∧ (is_Some (pr_verdict row)
                   → mode (vars demoSummary) ≠ setup
                     ∧ i ≤ partIndex (vars demoSummary))
  end.
Proof.
  apply (pass_indicators demoSummary demoSummaryView).
  - apply demoSummary_reachable.
  - apply demoSummary_render.
Defined.

(** ** The controls on the page are the events of the step relation *)

Section offered.
Context `{Katex}.
Implicit Types (v : Vars) (e : Event) (c : Control).

Lemma raised_nil e : raised [] e ↔ False.
Proof. unfold raised. setoid_rewrite elem_of_nil. naive_solver. Qed.

Lemma raised_cons c cs e : raised (c :: cs) e ↔ raises c e ∨ raised cs e.
Proof. unfold raised. setoid_rewrite elem_of_cons. naive_solver. Qed.

Lemma raised_app cs1 cs2 e : raised (cs1 ++ cs2) e ↔ raised cs1 e ∨ raised cs2 e.
Proof. unfold raised. setoid_rewrite elem_of_app. naive_solver. Qed.

Lemma raised_answers (bs : list AnswerButton) e :
  raised (CAnswer <$> bs) e
  ↔ ∃ b, b ∈ bs ∧ ab_disabled b = false ∧ e = ab_onClick b.
Proof. unfold raised. setoid_rewrite list_elem_of_fmap. naive_solver. Qed.

Lemma raised_nav e : raised (CButton <$> renderNav) e ↔ navOffers e.
Proof.
  unfold renderNav. rewrite !fmap_cons, !raised_cons, fmap_nil, raised_nil.
  simpl. destruct e; naive_solver.
Qed.

(** The answer buttons of a card raise the click on the id of each
    option, unless they are disabled. *)
Lemma raised_imap (f : nat → AnswerOption → AnswerButton)
    (l : list AnswerOption) (dis : bool) (click : string → Event) e :
  (∀ i opt, ab_disabled (f i opt) = dis ∧ ab_onClick (f i opt) = click (id opt)) →
  raised (CAnswer <$> imap f l) e
  ↔ dis = false ∧ ∃ optId, optId ∈ id <$> l ∧ e = click optId.
Proof.
  intros Hf. rewrite raised_answers. setoid_rewrite elem_of_imap.
  setoid_rewrite list_elem_of_fmap. split.
  - intros (b & (i & opt & Hopt%list_elem_of_lookup_2 & ->) & Hd & ->).
    destruct (Hf i opt) as [<- ->]. split; [done|].
    exists (id opt). split; [by exists opt|done].
  - intros (<- & optId & (opt & -> & (i & Hi)%list_elem_of_lookup) & ->).
    exists (f i opt). destruct (Hf i opt) as [? ?].
    split_and!; [by exists i, opt|done..].
Qed.

Lemma raised_settings v card e :
  when (bool_decide (mode v = setup ∨ mode v = simulation
                     ∨ mode v = partSummary)) (renderSettings v)
  = Some card →
  raised (from_option settingsControls [] card) e ↔ settingsOffers v e.
Proof.
  intros Hw%when_Some. case_bool_decide as Hm.
  - destruct Hw as (y & Hy & ->). unfold renderSettings in Hy.
    apply bind_Some in Hy as (parts & _ & [= <-]). simpl.
    unfold settingsControls. simpl.
    case_decide as Hs; simpl; rewrite ?raised_cons, raised_nil; simpl;
      destruct e; naive_solver.
  - subst card. simpl. rewrite raised_nil.
    unfold settingsOffers. destruct e; naive_solver.
Qed.

Lemma raised_summary v card e :
  when (bool_decide (mode v = partSummary)) (renderSummary v) = Some card →
  raised (from_option summaryControls [] card) e ↔ summaryOffers v e.
Proof.
  intros Hw%when_Some. case_bool_decide as Hm.
  - destruct Hw as (y & Hy & ->). unfold renderSummary in Hy.
    apply bind_Some in Hy as (parts & _ & Hy).
    apply bind_Some in Hy as (part & _ & Hy).
    apply bind_Some in Hy as (res & _ & Hy).
    apply bind_Some in Hy as (qs & _ & [= <-]). simpl.
    unfold summaryControls. rewrite raised_cons, raised_nil. simpl.
    destruct e; naive_solver.
  - subst card. simpl. rewrite raised_nil.
    unfold summaryOffers. destruct e; naive_solver.
Qed.

Lemma raised_question v cur e :
  readCurrent v = Some cur →
  raised (from_option questionControls []
            ((λ '(part, c), renderQuestion v part c) <$> cur)) e
  ↔ questionOffers v e.
Proof.
  intros [Hc _]%readCurrent_Some. unfold questionOffers. rewrite <-Hc.
  destruct cur as [[part c]|]; simpl; [|by rewrite raised_nil].
  unfold questionControls, renderFooter, buttonIds. simpl.
  rewrite raised_app, (raised_imap _ _ (showSolution v) ClickAnswer) by done.
  unfold renderFooter.
  destruct (showSolution v); simpl; rewrite raised_cons, raised_nil; simpl;
    destruct e; naive_solver.
Qed.

Lemma categoryValues_options (questions : list ShuffledQuestion) :
  ((EmptyString, "Alle Kategorien")
   :: (renderCategory <$> getIndentedCategories questions)).*1
  = categoryValues questions.
Proof. unfold categoryValues. csimpl. by rewrite <-list_fmap_compose. Qed.

Lemma classValues_options (questions : list ShuffledQuestion) :
  ((EmptyString, "Alle Klassen")
   :: ((λ cls, (cls, cls)) <$> classes questions)).*1
  = classValues questions.
Proof.
  unfold classValues. csimpl. rewrite <-list_fmap_compose.
  by rewrite list_fmap_id.
Qed.

Lemma raised_lern v card e :
  when (bool_decide (mode v = lernmodus)) (renderLern v) = Some card →
  raised (from_option lernControls [] card) e ↔ lernOffers v e.
Proof.
  intros Hw%when_Some. unfold lernOffers. case_bool_decide as Hm;
    [|subst card; simpl; rewrite raised_nil; naive_solver].
  destruct Hw as (y & Hy & ->). unfold renderLern in Hy.
  apply bind_Some in Hy as (question & Hq & [= <-]). simpl.
  unfold lernControls. simpl.
  rewrite !raised_cons. unfold raises at 1 2.
  cbn [sel_options sel_onChange].
  rewrite categoryValues_options, classValues_options.
  case_decide as Hlen.
  - apply bind_Some in Hq as (q & Hq & [= <-]). rewrite Hq. simpl.
    rewrite raised_app, (raised_imap _ _ false ClickLernAnswer) by done.
    rewrite raised_cons, raised_nil. simpl. unfold buttonIds.
    assert (filteredQuestions v ≠ [])
      by (intros Hnil; rewrite Hnil in Hlen; simpl in Hlen; lia).
    destruct e; naive_solver.
  - injection Hq as <-. rewrite raised_nil.
    assert (filteredQuestions v = []) as Hnil
      by (destruct (filteredQuestions v); [done|simpl in Hlen; lia]).
    rewrite Hnil. simpl. destruct e; naive_solver.
Qed.
End offered.

(** C21. The controls on the page are exactly the events the step relation
    allows the user: a button that is rendered and not disabled, or an
    option of a selector that is rendered, for every enabled click or
    change, and no other. *)
Theorem page_offers `{Katex} (s : State) (view : View) (e : Event) :
  page s = Some view → e ≠ Tick → (∀ g, e ≠ Fetched g) →
  enabled s e ↔ offered view e.
Proof.
  intros (cur & Hcur & Hnav & Hq & Hset & Hsum & _ & Hlern)%render_Some Ht Hf.
  change (offered view e) with (raised (controls view) e).
  unfold controls. rewrite !raised_app, Hnav, Hq.
  rewrite raised_nav, (raised_settings _ _ _ Hset), (raised_question _ _ _ Hcur),
    (raised_summary _ _ _ Hsum), (raised_lern _ _ _ Hlern).
  destruct e; try done. by destruct (Hf sections).
Qed.

Lemma page_offers_witness :
  enabled demoResolved ClickWeiter ↔ offered demoResolvedView ClickWeiter.
Proof.
  apply (page_offers demoResolved demoResolvedView ClickWeiter).
  - apply demoResolved_render.
  - done.
  - done.
Defined.
