(* ===== verification/Practice.v ===== *)
(** * Practice: what the practice mode does

    The two buttons of the practice card as the user sees them: an answer
    button records the answer under the number of the question shown, and
    the page then tells whether it was right; the button for the next
    question goes round the filtered list. *)

From stdpp Require Import gmap.
From S2P Require Import Prelude Random Shuffle Question JsString JsText JsMap.
From S2P Require Import ExamConfig PartBuilder Scorer State Simulation.
From S2P Require Import Categories Lernmodus App Math Presentation View.
From S2P Require Import Scenario Invariant Safety Typed Page.

(** The state after the practice question [q] was answered with the
    option [optId]. *)
Definition answeredWith (q : ShuffledQuestion) (optId : string) (s : State)
    : State :=
  update (setSelectedAnswer (<[number q := optId]> (selectedAnswer (vars s))))
         s.

(** The state after [k] clicks on the button for the next question. *)
Definition turned (k : nat) (s : State) : State :=
  update (setSelectedAnswer ∅
          ∘ setLernIndex ((lernIndex (vars s) + k)
                          `mod` length (filteredQuestions (vars s)))) s.


(** The practice question on the page of a state. *)
Definition lernQuestion `{Katex} (s : State) : option LernQuestion :=
  view ← page s; card ← lernCard view; lc_question card.

(** What the practice question shows after the answer [optId]: the
    verdict, and the answer's button in green or red. *)
Definition tells (optId : string) (lq : LernQuestion) : Prop :=
  lq_verdict lq = Some (bool_decide (optId = "A"))
  ∧ Forall (λ b, ab_colour b
                 = if decide (ab_key b = optId)
                   then if decide (optId = "A") then Green else Red
                   else Blue) (lq_answers lq).

(** ** The page of the practice mode *)

Section page.
Context `{Katex}.
Implicit Types (s : State) (q : ShuffledQuestion).

Lemma lernQuestion_Some s q :
  mode (vars s) = lernmodus →
  filteredQuestions (vars s) !! lernIndex (vars s) = Some q →
  lernQuestion s = Some (renderLernQuestion (vars s) q).
Proof.
  intros Hm Hq. pose proof (lookup_lt_Some _ _ _ Hq) as Hlt.
  unfold lernQuestion, page, render, readCurrent, renderLern.
  rewrite Hm, Hq. simpl. by rewrite decide_True by lia.
Qed.

Lemma renderLernQuestion_tells v q optId :
  wf_question q → optId ∈ buttonIds q →
  selectedAnswer v !! number q = Some optId →
  tells optId (renderLernQuestion v q).
Proof.
  intros Hwf Hid Hsel. pose proof (buttonIds_wf q optId Hwf Hid) as Hopt.
  split; simpl.
  - unfold lernVerdict. rewrite Hsel.
    rewrite decide_False
      by (intros ->; by apply (bool_decide_pack _) in Hopt; vm_compute in Hopt).
    by rewrite (findCorrect_known q Hwf).
  - apply Forall_forall. intros b (i & opt & Hin & ->)%elem_of_imap. simpl.
    apply list_elem_of_lookup_2 in Hin.
    pose proof (wf_correct_iff q Hwf opt Hin) as Hc.
    unfold lernColour. rewrite Hsel.
    repeat case_decide; destruct (isCorrect opt); naive_solver.
Qed.
End page.

(** ** The two buttons *)

Section buttons.
Context `{ArraySort}.
Implicit Types (s : State) (q : ShuffledQuestion).

Lemma dispatch_ClickLernAnswer s q optId :
  filteredQuestions (vars s) !! lernIndex (vars s) = Some q →
  dispatch (ClickLernAnswer optId) s = Some (answeredWith q optId s).
Proof.
  intros Hq. unfold dispatch. simpl. unfold clickLernAnswer. rewrite Hq.
  simpl. by rewrite runEffect_same.
Qed.

Lemma dispatch_ClickNextQuestion s :
  dispatch ClickNextQuestion s = Some (turned 1 s).
Proof. unfold dispatch. simpl. by rewrite runEffect_same. Qed.

Lemma filteredQuestions_turned k s :
  filteredQuestions (vars (turned k s)) = filteredQuestions (vars s).
Proof. done. Qed.

Lemma turned_turned k s :
  filteredQuestions (vars s) ≠ [] → turned 1 (turned k s) = turned (S k) s.
Proof.
  intros Hne. unfold turned at 1 3. rewrite filteredQuestions_turned.
  simpl. rewrite Nat.Div0.add_mod_idemp_l. by replace (S k) with (k + 1) by lia;
    rewrite Nat.add_assoc.
Qed.

Lemma run_one_ClickNextQuestion s :
  mode (vars s) = lernmodus → filteredQuestions (vars s) ≠ [] →
  run [ClickNextQuestion] s = Some (turned 1 s).
Proof.
  intros Hm Hne.
  rewrite run_cons, decide_True by (by apply enabled_ClickNextQuestion).
  by rewrite dispatch_ClickNextQuestion.
Qed.

(** Clicks on the button for the next question add up. *)
Lemma run_ClickNextQuestion k s :
  mode (vars s) = lernmodus → filteredQuestions (vars s) ≠ [] →
  run (replicate (S k) ClickNextQuestion) s = Some (turned (S k) s).
Proof.
  intros Hm Hne. induction k as [|k IH]; [by apply run_one_ClickNextQuestion|].
  rewrite replicate_S_end, run_app, IH, mbind_Some.
  by rewrite run_one_ClickNextQuestion, turned_turned.
Qed.

(** After as many clicks as the list has questions the index is where it
    was. *)
Lemma turned_round s :
  lernIndex (vars s) < length (filteredQuestions (vars s)) →
  lernIndex (vars (turned (length (filteredQuestions (vars s))) s))
  = lernIndex (vars s).
Proof.
  intros Hlt. simpl.
  rewrite <-Nat.Div0.add_mod_idemp_r, Nat.Div0.mod_same, Nat.add_0_r.
  by apply Nat.mod_small.
Qed.
End buttons.



(** C17. An answer button of the practice card records the answer under
    the number of the question shown and changes nothing else; the page
    then shows the same question with the verdict, right exactly for the
    option of slot a, the button of the answer in green or red and the
    other buttons in blue. *)
Theorem practice_answer `{ArraySort} `{Katex} (s : State) (optId : string) :
  reachable s → enabled s (ClickLernAnswer optId) →
  ∃ q, filteredQuestions (vars s) !! lernIndex (vars s) = Some q
       ∧ step s (ClickLernAnswer optId) (answeredWith q optId s)
       ∧ ∃ lq, lernQuestion (answeredWith q optId s) = Some lq
               ∧ lq_number lq = number q ∧ tells optId lq.
Proof.
  intros Ht%reachable_typed Hen.
  pose proof Hen as (Hm & q & Hq & Hid)%enabled_ClickLernAnswer.
  exists q. split_and!; [done|split; [done|by apply dispatch_ClickLernAnswer]|].
  exists (renderLernQuestion (vars (answeredWith q optId s)) q).
  split_and!; [by apply lernQuestion_Some|done|].
  apply renderLernQuestion_tells; [|done|by apply lookup_insert_eq].
  apply list_elem_of_lookup_2, filteredQuestions_elem_of in Hq as [Hin _].
  by apply (proj1 (Forall_forall _ _) (typed_questions _ Ht)).
Qed.

Lemma practice_answer_witness :
  ∃ q, filteredQuestions (vars demoLoaded) !! lernIndex (vars demoLoaded)
       = Some q
       ∧ step demoLoaded (ClickLernAnswer "B") (answeredWith q "B" demoLoaded)
       ∧ ∃ lq, lernQuestion (answeredWith q "B" demoLoaded) = Some lq
               ∧ lq_number lq = number q ∧ tells "B" lq.
Proof.
  apply (practice_answer demoLoaded "B");
    [apply demoLoaded_reachable|apply demoLoaded_enabled].
Defined.

(** C18. The button for the next question goes round the filtered list:
    [k] clicks move the practice index [k] places on, modulo the length
    of the list, and clear the answers; after as many clicks as the list
    has questions the question shown at first is shown again. *)
Theorem practice_cycle `{ArraySort} (s : State) (k : nat) :
  reachable s → mode (vars s) = lernmodus →
  filteredQuestions (vars s) ≠ [] →
  run (replicate (S k) ClickNextQuestion) s = Some (turned (S k) s)
  ∧ lernIndex (vars (turned (length (filteredQuestions (vars s))) s))
    = lernIndex (vars s).
Proof.
  intros Hinv%reachable_Inv Hm Hne. split; [by apply run_ClickNextQuestion|].
  apply turned_round. destruct (inv_lern _ Hinv) as [_ [->|?]]; [|done].
  destruct (filteredQuestions (vars s)); [done|simpl; lia].
Qed.

Lemma practice_cycle_witness :
  run (replicate 3 ClickNextQuestion) demoLoaded = Some (turned 3 demoLoaded)
  ∧ lernIndex (vars (turned (length (filteredQuestions (vars demoLoaded)))
                       demoLoaded))
    = lernIndex (vars demoLoaded).
Proof.
  apply (practice_cycle demoLoaded 2).
  - apply demoLoaded_reachable.
  - apply demoLoaded_mode.
  - apply demoLoaded_filtered.
Defined.
