(* ===== verification/Exam.v ===== *)
(** * Exam: what each step of an examination does

    The transitions of the simulation as the user sees them: starting,
    resolving a question, going on, continuing with the next part.  Each
    theorem gives the state after one event of a reachable state, the
    effect on the interval included. *)

From stdpp Require Import gmap.
From S2P Require Import Prelude Random Shuffle Question JsString ExamConfig.
From S2P Require Import PartBuilder Scorer State Simulation Lernmodus App.
From S2P Require Import Scenario Invariant Safety.

(** The state a started exam begins in. *)
Definition started `{ArraySort} (parts : list ExamPartConfig)
    (first : ExamPartConfig) (s : State) : State :=
  let '(pools, g) := buildPools (questions (vars s)) parts (rng s) in
  let s1 :=
    setRng g
      (update (setTimeLeft (durationMin first * 60)
               ∘ setMode simulation ∘ setShowSolution false
               ∘ setSelected None ∘ setQIndex 0 ∘ setPartIndex 0
               ∘ setResults ((λ _, []) <$> pools)
               ∘ setSimQuestions pools) s) in
  setTimer (Some (vars s1)) s1.

(** The state after the question shown was resolved with the option
    [optId] selected. *)
Definition resolved (optId : string) (s : State) : State :=
  let p := partIndex (vars s) in
  update (setShowSolution true
          ∘ setResults (alter (λ res, res ++ [bool_decide (optId = "A")]) p
                          (results (vars s)))) s.

(** The state after going on from a resolved question. *)
Definition advanced (part : list ExamQuestion) (s : State) : State :=
  if decide (qIndex (vars s) + 1 < length part)
  then update (setShowSolution false ∘ setSelected None
               ∘ setQIndex (qIndex (vars s) + 1)) s
  else setTimer None (update (setMode partSummary) s).

(** The state after continuing from the summary of a part. *)
Definition continued (parts : list ExamPartConfig) (s : State) : State :=
  let next := partIndex (vars s) + 1 in
  match parts !! next with
  | Some part =>
      let s1 := update (setTimeLeft (durationMin part * 60)
                        ∘ setMode simulation ∘ setShowSolution false
                        ∘ setSelected None ∘ setQIndex 0
                        ∘ setPartIndex next) s in
      setTimer (Some (vars s1)) s1
  | None => update (setMode result) s
  end.

Section exam.
Context `{ArraySort}.
Implicit Types (s : State) (v : Vars).

(** In a simulation the render that armed the interval differs from the
    current one in neither mode nor part. *)
Lemma Inv_timer_Some s :
  Inv s → mode (vars s) = simulation → is_Some (timer s).
Proof.
  intros Hinv Hm. pose proof (inv_timer _ Hinv) as Ht. unfold timer_ok in Ht.
  destruct (timer s); [done|congruence].
Qed.

Lemma Inv_timer_None s :
  Inv s → mode (vars s) ≠ simulation → timer s = None.
Proof.
  intros Hinv Hm. pose proof (inv_timer _ Hinv) as Ht. unfold timer_ok in Ht.
  destruct (timer s); [by destruct Ht|done].
Qed.

Lemma setTimer_None_update (f : Vars → Vars) s :
  timer s = None → setTimer None (update f s) = update f s.
Proof. destruct s. simpl. by intros ->. Qed.

Lemma dispatch_ClickStart s parts first :
  Inv s → mode (vars s) = setup →
  lookupConfig (examType (vars s)) = Some parts → parts !! 0 = Some first →
  dispatch ClickStart s = Some (started parts first s).
Proof.
  intros Hinv Hm Hl Hf. unfold dispatch, started. simpl.
  unfold startSimulation. rewrite Hl. simpl.
  destruct (buildPools _ _ _) as [pools g]. rewrite Hf. simpl.
  unfold runEffect. simpl. rewrite Hm. simpl. done.
Qed.

Lemma dispatch_ClickAufloesen s optId :
  Inv s → is_Some (current (vars s)) → selected (vars s) = Some optId →
  optId ≠ EmptyString →
  dispatch ClickAufloesen s = Some (resolved optId s).
Proof.
  intros Hinv [eq Hcur] Hsel Hne.
  pose proof (Inv_current_wf s eq Hinv Hcur) as Hwf.
  apply current_Some in Hcur as (Hm & part & Hp & Hq).
  destruct (Inv_results s Hinv) as [res Hres]; [by left|].
  unfold dispatch, resolved. simpl. unfold handleResolve, pushResult.
  rewrite Hsel, (falsy_Some_nonempty _ Hne), Hp. simpl. rewrite Hq. simpl.
  rewrite Hres. simpl. rewrite runEffect_same by done.
  rewrite findCorrect_default by done.
  by rewrite (list_alter_insert (λ res, res ++ [_]) _ _ _ Hres).
Qed.

Lemma dispatch_ClickWeiter s part :
  Inv s → mode (vars s) = simulation →
  simQuestions (vars s) !! partIndex (vars s) = Some part →
  dispatch ClickWeiter s = Some (advanced part s).
Proof.
  intros Hinv Hm Hp. unfold dispatch, advanced. simpl. unfold handleNext.
  rewrite Hp. simpl. case_decide; simpl; [by rewrite runEffect_same|].
  unfold runEffect. simpl. by rewrite Hm.
Qed.

Lemma dispatch_ClickContinue s parts :
  Inv s → mode (vars s) = partSummary →
  lookupConfig (examType (vars s)) = Some parts →
  dispatch ClickContinue s = Some (continued parts s).
Proof.
  intros Hinv Hm Hl.
  destruct (Inv_parts s Hinv) as (parts' & Hl' & Hlen); [by right; left|].
  assert (parts' = parts) as -> by congruence.
  pose proof (Inv_timer_None s Hinv) as Hnone.
  unfold dispatch, continued. simpl. unfold handleContinue. rewrite Hl.
  case_decide as Hlt; simpl.
  - rewrite <-Hlen in Hlt. apply lookup_lt_is_Some in Hlt as [part Hpart].
    rewrite Hpart. simpl. unfold runEffect. simpl. by rewrite Hm.
  - rewrite lookup_ge_None_2 by lia. unfold runEffect. simpl. rewrite Hm.
    simpl. apply f_equal, setTimer_None_update, Hnone. congruence.
Qed.
End exam.

(** C16. Starting an exam draws a pool for every part of the chosen scheme,
    gives every part an empty result list, shows question 0 of part 0
    unresolved, sets the clock to the first part's duration in seconds and
    arms the interval with the closure of that render. *)
Theorem start_spec `{ArraySort} (s : State) :
  reachable s → enabled s ClickStart →
  ∃ parts first,
    lookupConfig (examType (vars s)) = Some parts ∧ parts !! 0 = Some first
    ∧ step s ClickStart (started parts first s).
Proof.
  intros Hinv%reachable_Inv Hen. pose proof Hen as Hm%enabled_ClickStart.
  destruct (proj2 (lookupConfig_is_Some _) (inv_examType _ Hinv))
    as [parts Hl].
  destruct (lookupConfig_first _ _ Hl) as [first Hf].
  exists parts, first. split_and!; [done..|split; [done|by apply dispatch_ClickStart]].
Qed.

Lemma start_spec_witness :
  ∃ parts first,
    lookupConfig (examType (vars demoSetup)) = Some parts
    ∧ parts !! 0 = Some first
    ∧ step demoSetup ClickStart (started parts first demoSetup).
Proof.
  apply (start_spec demoSetup);
    [apply demoSetup_reachable|apply demoSetup_enabled].
Defined.

(** C13. Resolving a question appends one result to the list of the
    current part, [true] exactly when the selected option is the one of
    slot a, wherever it was shown, and shows the solution; nothing else
    changes. *)
Theorem resolve_spec `{ArraySort} (s : State) :
  reachable s → enabled s ClickAufloesen →
  ∃ optId, selected (vars s) = Some optId
           ∧ step s ClickAufloesen (resolved optId s).
Proof.
  intros Hinv%reachable_Inv Hen.
  pose proof Hen as (Hcur & _ & (optId & Hsel & Hne)%falsy_false)
    %enabled_ClickAufloesen.
  exists optId. split_and!; [done..|split; [done|by apply dispatch_ClickAufloesen]].
Qed.

Lemma resolve_spec_witness :
  ∃ optId, selected (vars demoSelected) = Some optId
           ∧ step demoSelected ClickAufloesen (resolved optId demoSelected).
Proof.
  apply (resolve_spec demoSelected);
    [apply demoSelected_reachable|apply demoSelected_enabled].
Defined.

(** C14. Going on from a resolved question shows the next question of the
    part unresolved and without a selection, or, after the last question,
    the part summary, with the interval cleared. *)
Theorem next_spec `{ArraySort} (s : State) :
  reachable s → enabled s ClickWeiter →
  ∃ part, simQuestions (vars s) !! partIndex (vars s) = Some part
          ∧ step s ClickWeiter (advanced part s).
Proof.
  intros Hinv%reachable_Inv Hen.
  pose proof Hen as ([eq (Hm & part & Hp & _)%current_Some] & _)
    %enabled_ClickWeiter.
  exists part. split_and!; [done..|split; [done|by apply dispatch_ClickWeiter]].
Qed.

Lemma next_spec_witness :
  ∃ part, simQuestions (vars demoLast) !! partIndex (vars demoLast)
          = Some part
          ∧ step demoLast ClickWeiter (advanced part demoLast).
Proof.
  apply (next_spec demoLast);
    [apply demoLast_reachable|apply demoLast_enabled].
Defined.

(** C15. Continuing from a part summary starts the next part of the scheme
    at its question 0 with the clock at that part's duration and a newly
    armed interval, or, after the last part, shows the result. *)
Theorem continue_spec `{ArraySort} (s : State) :
  reachable s → enabled s ClickContinue →
  ∃ parts, lookupConfig (examType (vars s)) = Some parts
           ∧ step s ClickContinue (continued parts s).
Proof.
  intros Hinv%reachable_Inv Hen. pose proof Hen as Hm%enabled_ClickContinue.
  destruct (Inv_parts s Hinv) as (parts & Hl & _); [by right; left|].
  exists parts. split_and!; [done..|split; [done|by apply dispatch_ClickContinue]].
Qed.

Lemma continue_spec_witness :
  ∃ parts, lookupConfig (examType (vars demoSummary)) = Some parts
           ∧ step demoSummary ClickContinue (continued parts demoSummary).
Proof.
  apply (continue_spec demoSummary);
    [apply demoSummary_reachable|apply demoSummary_enabled].
Defined.
