(* ===== verification/Completion.v ===== *)
(** * Completion: an examination can be taken to its result

    A candidate who answers every question the page shows, resolves it
    and goes on, and continues after every part summary, arrives at the
    result, with one result per question: the verdict of the option
    chosen for it.  The choices are any; the interval does not fire in
    these runs: the candidate is faster than the clock. *)

From stdpp Require Import gmap.
From Stdlib Require Import QArith.
From S2P Require Import Prelude Random Shuffle Question JsString JsText JsMap.
From S2P Require Import ExamConfig PartBuilder Scorer State Simulation.
From S2P Require Import Categories Lernmodus App Math Presentation View.
From S2P Require Import Scenario Invariant Safety Page Exam.

Close Scope Q_scope.

(** The verdict of the option chosen for question [q] of part [p], when
    [choice p q] is that option. *)
Definition verdictOf (choice : nat → nat → string) (p q : nat) : bool :=
  bool_decide (choice p q = "A").

(** The verdicts of the first [q] questions of part [p]. *)
Definition marks (choice : nat → nat → string) (p q : nat) : list bool :=
  verdictOf choice p <$> seq 0 q.

(** The events of a candidate who answers the questions [q], [q + 1], ...
    of part [p], [n] of them. *)
Definition answersFrom (choice : nat → nat → string) (p q n : nat)
    : list Event :=
  seq q n ≫= λ j, answer (choice p j).

(** The events of a candidate who answers the [n] questions of part [p]
    and continues. *)
Definition answerPart (choice : nat → nat → string) (p n : nat)
    : list Event :=
  answersFrom choice p 0 n ++ [ClickContinue].

(** The events of a candidate who answers the parts [p], [p + 1], ... of
    the sizes [sizes] in turn. *)
Fixpoint answerFrom (choice : nat → nat → string) (p : nat)
    (sizes : list nat) : list Event :=
  match sizes with
  | [] => []
  | n :: sizes => answerPart choice p n ++ answerFrom choice (S p) sizes
  end.

Definition answerExam (choice : nat → nat → string) (sizes : list nat)
    : list Event :=
  answerFrom choice 0 sizes.

(** The results of the candidate when [q] questions of part [p] are
    resolved. *)
Definition sheet (choice : nat → nat → string)
    (pools : list (list ExamQuestion)) (p q : nat) : list (list bool) :=
  imap (λ i part, if decide (i < p) then marks choice i (length part)
                  else if decide (i = p) then marks choice i q else []) pools.

(** The state after a question was answered with [optId], resolved and
    left. *)
Definition answered (optId : string) (part : list ExamQuestion) (s : State)
    : State :=
  advanced part (resolved optId (update (setSelected (Some optId)) s)).

(** The exam a state is in: its scheme and its pools. *)
Definition exam_of (parts : list ExamPartConfig)
    (pools : list (list ExamQuestion)) (s : State) : Prop :=
  lookupConfig (examType (vars s)) = Some parts
  ∧ simQuestions (vars s) = pools.

(** The candidate is at question [q] of part [p], which is not resolved,
    and has answered everything before. *)
Record answering (choice : nat → nat → string)
    (pools : list (list ExamQuestion)) (s : State) (p q : nat) : Prop := {
  an_inv : Inv s;
  an_mode : mode (vars s) = simulation;
  an_part : partIndex (vars s) = p;
  an_question : qIndex (vars s) = q;
  an_show : showSolution (vars s) = false;
  an_results : results (vars s) = sheet choice pools p q;
}.

(** The candidate is at the summary of part [p]. *)
Record summarised (choice : nat → nat → string)
    (pools : list (list ExamQuestion)) (s : State) (p : nat) : Prop := {
  su_inv : Inv s;
  su_mode : mode (vars s) = partSummary;
  su_part : partIndex (vars s) = p;
  su_results : results (vars s) = sheet choice pools (S p) 0;
}.

(** The candidate is done. *)
Definition finished (choice : nat → nat → string)
    (pools : list (list ExamQuestion)) (s : State) : Prop :=
  mode (vars s) = result
  ∧ results (vars s) = imap (λ p part, marks choice p (length part)) pools.

(** The row of the result for a part with the results [res]. *)
Definition graded (res : list bool) (row : ResultRow) (part : ExamPartConfig)
    : Prop :=
  rr_label row = label part ∧ rr_total row = 25
  ∧ rr_correct row = correctCount res
  ∧ rr_percent row = Finite (inject_Z (4 * Z.of_nat (correctCount res))).

(** The candidate who takes the right option for the first [n] questions
    of every part and option B for the others. *)
Definition firstRight (n : nat) (p q : nat) : string :=
  if decide (q < n) then "A" else "B".

(** ** The sheet *)

Section sheet.
Context (choice : nat → nat → string) (pools : list (list ExamQuestion)).
Implicit Types (p q i : nat).

Lemma marks_S p q : marks choice p (S q) = marks choice p q ++ [verdictOf choice p q].
Proof. unfold marks. by rewrite seq_S, fmap_app. Qed.

Lemma length_marks p q : length (marks choice p q) = q.
Proof. unfold marks. by rewrite length_fmap, length_seq. Qed.

Lemma sheet_lookup p q i :
  sheet choice pools p q !! i
  = (λ part, if decide (i < p) then marks choice i (length part)
             else if decide (i = p) then marks choice i q else [])
    <$> pools !! i.
Proof. unfold sheet. by rewrite list_lookup_imap. Qed.

Lemma sheet_start : sheet choice pools 0 0 = (λ _, []) <$> pools.
Proof.
  apply list_eq. intros i. rewrite sheet_lookup, list_lookup_fmap.
  destruct (pools !! i); simpl; [|done]. by repeat case_decide.
Qed.

Lemma sheet_alter p q :
  alter (λ res, res ++ [verdictOf choice p q]) p (sheet choice pools p q)
  = sheet choice pools p (S q).
Proof.
  apply list_eq. intros i. destruct (decide (i = p)) as [->|Hne].
  - rewrite list_lookup_alter_eq, !sheet_lookup.
    destruct (pools !! p); simpl; [|done].
    repeat case_decide; try lia. by rewrite marks_S.
  - rewrite list_lookup_alter_ne, !sheet_lookup by done.
    destruct (pools !! i); simpl; [|done]. by repeat case_decide.
Qed.

Lemma sheet_next p part :
  pools !! p = Some part →
  sheet choice pools p (length part) = sheet choice pools (S p) 0.
Proof.
  intros Hp. apply list_eq. intros i. rewrite !sheet_lookup.
  destruct (pools !! i) as [part'|] eqn:Hi; simpl; [|done].
  repeat case_decide; simplify_eq; try done; lia.
Qed.

Lemma sheet_done p :
  length pools ≤ p →
  sheet choice pools p 0 = imap (λ i part, marks choice i (length part)) pools.
Proof.
  intros Hp. apply list_eq. intros i. rewrite sheet_lookup, list_lookup_imap.
  destruct (pools !! i) as [part'|] eqn:Hi; simpl; [|done].
  apply lookup_lt_Some in Hi. rewrite decide_True; [done|lia].
Qed.
End sheet.

(** ** One question *)

Lemma optId_nonempty (optId : string) :
  optId ∈ ["A"; "B"; "C"; "D"] → optId ≠ EmptyString.
Proof. intros Hopt ->. set_solver. Qed.

Lemma answersFrom_S choice p q n :
  answersFrom choice p q (S n)
  = answer (choice p q) ++ answersFrom choice p (S q) n.
Proof. done. Qed.

Section question.
Context `{ArraySort}.
Context (choice : nat → nat → string).
Context (Hchoice : ∀ p q, choice p q ∈ ["A"; "B"; "C"; "D"]).
Context (parts : list ExamPartConfig) (pools : list (list ExamQuestion)).
Context (p : nat) (part : list ExamQuestion) (Hpart : pools !! p = Some part).
Implicit Types (s : State) (q : nat).

Lemma answering_current s q optId :
  exam_of parts pools s → answering choice pools s p q → q < length part →
  optId ∈ ["A"; "B"; "C"; "D"] →
  ∃ eq, current (vars s) = Some eq ∧ optId ∈ buttonIds (eq_question eq).
Proof using All.
  intros [_ Hpools] [Hinv Hm Hp Hq _ _] [eq Heq]%lookup_lt_is_Some Hopt.
  assert (current (vars s) = Some eq) as Hcur.
  { apply current_Some. split; [done|]. exists part.
    by rewrite Hpools, Hp, Hq. }
  exists eq. split; [done|]. unfold buttonIds.
  by rewrite (wf_ids _ (Inv_current_wf s eq Hinv Hcur)).
Qed.

Lemma answer_run s q :
  exam_of parts pools s → answering choice pools s p q → q < length part →
  run (answer (choice p q)) s = Some (answered (choice p q) part s).
Proof using All.
  intros Hex Han Hlt. pose proof Han as [Hinv Hm Hp Hq Hshow _].
  set (optId := choice p q). pose proof (Hchoice p q) as Hopt.
  destruct (answering_current s q optId Hex Han Hlt Hopt) as (eq & Hcur & Hid).
  destruct Hex as [_ Hpools]. pose proof (optId_nonempty _ Hopt) as Hne.
  set (s1 := update (setSelected (Some optId)) s).
  assert (step s (ClickAnswer optId) s1) as Hstep1.
  { split; [apply enabled_ClickAnswer; eauto|].
    unfold dispatch. simpl. by rewrite runEffect_same. }
  assert (step s1 ClickAufloesen (resolved optId s1)) as Hstep2.
  { assert (current (vars s1) = Some eq) as Hcur1 by done.
    split.
    - apply enabled_ClickAufloesen. rewrite Hcur1.
      split_and!; [done..|apply (falsy_Some_nonempty _ Hne)].
    - apply dispatch_ClickAufloesen; eauto using Inv_step. }
  assert (step (resolved optId s1) ClickWeiter (answered optId part s))
    as Hstep3.
  { assert (current (vars (resolved optId s1)) = Some eq) as Hcur2 by done.
    split; [apply enabled_ClickWeiter; by rewrite Hcur2|].
    apply dispatch_ClickWeiter; eauto using Inv_step.
    simpl. by rewrite Hpools, Hp. }
  unfold answer. rewrite !run_cons.
  rewrite decide_True, (proj2 Hstep1) by apply Hstep1. simpl.
  rewrite decide_True, (proj2 Hstep2) by apply Hstep2. simpl.
  by rewrite decide_True, (proj2 Hstep3) by apply Hstep3.
Qed.

Lemma answered_exam_of s optId :
  exam_of parts pools s → exam_of parts pools (answered optId part s).
Proof.
  unfold answered, advanced, exam_of. intros [? ?].
  by destruct (decide (_ < _)).
Qed.

Lemma answered_Inv s q :
  exam_of parts pools s → answering choice pools s p q → q < length part →
  Inv (answered (choice p q) part s).
Proof using All.
  intros Hex Han Hlt. eapply Inv_run; [apply Han|by eapply answer_run].
Qed.

(** After a question that is not the last the candidate is at the next
    one. *)
Lemma answered_answering s q :
  exam_of parts pools s → answering choice pools s p q → S q < length part →
  answering choice pools (answered (choice p q) part s) p (S q).
Proof using All.
  intros Hex Han Hlt. pose proof Han as [Hinv Hm Hp Hq Hshow Hres].
  split; [eapply answered_Inv; eauto with lia|..];
    unfold answered, advanced; simpl; rewrite Hq, decide_True by lia;
    simpl; try done.
  - lia.
  - by rewrite Hp, Hres, <-sheet_alter.
Qed.

(** After the last question of the part the candidate is at the
    summary. *)
Lemma answered_summarised s q :
  exam_of parts pools s → answering choice pools s p q → S q = length part →
  summarised choice pools (answered (choice p q) part s) p.
Proof using All.
  intros Hex Han Hlt. pose proof Han as [Hinv Hm Hp Hq Hshow Hres].
  split; [eapply answered_Inv; eauto with lia|..];
    unfold answered, advanced; simpl; rewrite Hq, decide_False by lia;
    simpl; try done.
  rewrite Hp, Hres. change (bool_decide _) with (verdictOf choice p q).
  by rewrite sheet_alter, Hlt, (sheet_next _ _ _ part).
Qed.

(** The remaining [S k] questions of a part. *)
Lemma answers_run k s q :
  exam_of parts pools s → answering choice pools s p q →
  q + S k = length part →
  ∃ s', run (answersFrom choice p q (S k)) s = Some s'
        ∧ exam_of parts pools s' ∧ summarised choice pools s' p.
Proof using All.
  revert s q. induction k as [|k IH]; intros s q Hex Han Hlen;
    rewrite answersFrom_S, run_app, (answer_run s q), mbind_Some
      by (done || lia).
  - exists (answered (choice p q) part s).
    split_and!; [done|by apply answered_exam_of|].
    apply (answered_summarised s q); (done || lia).
  - apply (IH _ (S q)); [by apply answered_exam_of| |lia].
    apply answered_answering; (done || lia).
Qed.
End question.

(** ** Part after part *)

Section parts.
Context `{ArraySort}.
Context (choice : nat → nat → string).
Context (Hchoice : ∀ p q, choice p q ∈ ["A"; "B"; "C"; "D"]).
Context (parts : list ExamPartConfig) (pools : list (list ExamQuestion)).
Context (Hpools : Forall (λ part, part ≠ []) pools).
Implicit Types (s : State) (p : nat).

Lemma continue_run s p :
  exam_of parts pools s → summarised choice pools s p →
  run [ClickContinue] s = Some (continued parts s)
  ∧ exam_of parts pools (continued parts s)
  ∧ if decide (S p < length pools)
    then answering choice pools (continued parts s) (S p) 0
    else finished choice pools (continued parts s).
Proof using All.
  intros [Hl Hsim] [Hinv Hm Hp Hres].
  assert (step s ClickContinue (continued parts s)) as Hstep.
  { split; [by apply enabled_ClickContinue|by apply dispatch_ClickContinue]. }
  destruct (Inv_parts s Hinv) as (parts' & Hl' & Hlen); [by right; left|].
  assert (parts' = parts) as -> by congruence. rewrite Hsim in Hlen.
  rewrite run_cons, decide_True, (proj2 Hstep) by apply Hstep.
  split; [done|]. pose proof (Inv_step _ _ _ Hinv Hstep) as Hinv'.
  revert Hinv'. unfold continued, exam_of, finished.
  rewrite Hp, Nat.add_1_r. destruct (decide (S p < length pools)) as [Hlt|Hlt].
  - rewrite <-Hlen in Hlt. apply lookup_lt_is_Some in Hlt as [part ->].
    by split.
  - rewrite lookup_ge_None_2 by lia. simpl. intros _.
    split_and!; [done..|]. rewrite Hres. apply sheet_done. lia.
Qed.

(** The parts from [p] on, [p] being one of [S n] parts left. *)
Lemma parts_run n s p :
  exam_of parts pools s → answering choice pools s p 0 →
  p + S n = length pools →
  ∃ s', run (answerFrom choice p (length <$> drop p pools)) s = Some s'
        ∧ exam_of parts pools s' ∧ finished choice pools s'.
Proof using All.
  revert s p. induction n as [|n IH]; intros s p Hex Han Hlen;
    (destruct (lookup_lt_is_Some_2 pools p) as [part Hpart]; [lia|]);
    rewrite (drop_S _ _ _ Hpart), fmap_cons; simpl answerFrom;
    pose proof (proj1 (Forall_lookup _ _) Hpools _ _ Hpart) as Hne;
    (destruct (length part) as [|k] eqn:Hk; [by destruct part|]);
    (destruct (answers_run choice Hchoice parts pools p part Hpart k s 0)
      as (s1 & Hrun1 & Hex1 & Hsum1); [done..|lia|]);
    destruct (continue_run s1 p Hex1 Hsum1) as (Hrun2 & Hex2 & Hnext);
    unfold answerPart; rewrite !run_app, Hrun1, mbind_Some, Hrun2, mbind_Some.
  - rewrite decide_False in Hnext by lia.
    rewrite drop_ge by lia. by exists (continued parts s1).
  - rewrite decide_True in Hnext by lia. apply (IH _ (S p)); (done || lia).
Qed.
End parts.

(** ** The whole examination *)

Section exam.
Context `{ArraySort}.
Context (choice : nat → nat → string).
Context (Hchoice : ∀ p q, choice p q ∈ ["A"; "B"; "C"; "D"]).
Context (s : State) (parts : list ExamPartConfig).
Context (Hinv : Inv s) (Hmode : mode (vars s) = setup).
Context (Hparts : lookupConfig (examType (vars s)) = Some parts).
Context (Hmatch : Forall (λ part, matching (questions (vars s)) part ≠ [])
                    parts).

(** The pools the start draws. *)
Definition drawn : list (list ExamQuestion) :=
  (buildPools (questions (vars s)) parts (rng s)).1.

Lemma drawn_lengths : length <$> drawn = count <$> parts.
Proof using Hmatch. by apply buildPools_lengths. Qed.

Lemma drawn_nonempty : Forall (λ part, part ≠ []) drawn.
Proof using Hmatch Hparts.
  apply Forall_lookup. intros i pool Hpool ->.
  assert ((length <$> drawn) !! i = Some 0) as Hi
    by by rewrite list_lookup_fmap, Hpool.
  rewrite drawn_lengths, list_lookup_fmap in Hi.
  apply fmap_Some in Hi as (part & Hpart%list_elem_of_lookup_2 & Hc).
  by rewrite (lookupConfig_count _ _ Hparts _ Hpart) in Hc.
Qed.

Lemma started_answering first :
  parts !! 0 = Some first →
  step s ClickStart (started parts first s)
  ∧ exam_of parts drawn (started parts first s)
  ∧ answering choice drawn (started parts first s) 0 0.
Proof using Hinv Hmode Hparts.
  intros Hfirst.
  assert (step s ClickStart (started parts first s)) as Hstep.
  { split; [by apply enabled_ClickStart|by apply dispatch_ClickStart]. }
  split; [done|]. pose proof (Inv_step _ _ _ Hinv Hstep) as Hinv'.
  revert Hinv'. unfold started, drawn, exam_of.
  destruct (buildPools _ _ _) as [pools g]. simpl. intros Hinv'.
  split; [done|]. split; try done. simpl. by rewrite sheet_start.
Qed.

(** The run of a candidate who starts the exam and answers every
    question. *)
Lemma exam_run :
  ∃ s', run (ClickStart :: answerExam choice (count <$> parts)) s = Some s'
        ∧ exam_of parts drawn s' ∧ finished choice drawn s'.
Proof using All.
  destruct (lookupConfig_first _ _ Hparts) as [first Hfirst].
  destruct (started_answering first Hfirst) as ([Hen Hd] & Hex & Han).
  rewrite run_cons, decide_True, Hd, mbind_Some by done.
  unfold answerExam. rewrite <-drawn_lengths, <-(drop_0 drawn).
  assert (length drawn = length parts) as Hlen
    by by rewrite <-(length_fmap length), drawn_lengths, length_fmap.
  destruct (length parts) as [|n] eqn:Hn;
    [by apply lookup_lt_Some in Hfirst; lia|].
  eapply (parts_run choice Hchoice parts drawn drawn_nonempty n);
    [done..|lia].
Qed.
End exam.

(** ** The result of the examination *)

Section graded.
Context `{ArraySort} `{Katex}.
Context (choice : nat → nat → string) (parts : list ExamPartConfig).
Context (pools : list (list ExamQuestion)) (s : State).
Context (Hinv : Inv s) (Hex : exam_of parts pools s).
Context (Hfin : finished choice pools s).
Context (Hlen : length <$> pools = count <$> parts).

Lemma finished_results :
  results (vars s) = imap (λ p part, marks choice p (count part)) parts.
Proof using All.
  destruct Hfin as [_ ->]. apply list_eq. intros i.
  rewrite !list_lookup_imap.
  assert ((length <$> pools) !! i = (count <$> parts) !! i) as Hi
    by by rewrite Hlen.
  rewrite !list_lookup_fmap in Hi.
  destruct (pools !! i), (parts !! i); simpl in *; congruence.
Qed.

(** The result card of a finished examination. *)
Lemma finished_resultCard view :
  page s = Some view → ∃ rows, resultCard view = Some rows.
Proof using All.
  intros (_ & _ & _ & _ & _ & _ & Hres & _)%render_Some.
  apply when_Some in Hres. rewrite bool_decide_eq_true_2 in Hres by apply Hfin.
  destruct Hres as (rows & _ & ->). by exists rows.
Qed.

(** A finished part has 25 results, and is passed with 19 right ones. *)
Lemma finished_passed i res part :
  results (vars s) !! i = Some res → parts !! i = Some part →
  length res = 25 ∧ passed res part = bool_decide (19 ≤ correctCount res).
Proof using All.
  rewrite finished_results, list_lookup_imap. intros Hres Hpart.
  rewrite Hpart in Hres. injection Hres as <-. destruct Hex as [Hl _].
  pose proof (lookupConfig_count _ _ Hl part) as Hc.
  rewrite length_marks, Hc by by eapply list_elem_of_lookup_2.
  split; [done|]. apply eq_true_iff_eq.
  rewrite passed_iff, bool_decide_eq_true, length_marks, Hc
    by by eapply list_elem_of_lookup_2.
  lia.
Qed.

Lemma finished_graded view rows i row :
  page s = Some view → resultCard view = Some rows → rows !! i = Some row →
  ∃ res part, results (vars s) !! i = Some res ∧ parts !! i = Some part
              ∧ graded res row part.
Proof using All.
  intros Hpage Hrows
    (qs & res & parts' & part & Hq & Hr & Hl' & Hpart & ->)
    %(resultCard_lookup s view rows Hpage Hrows).
  destruct Hex as [Hl Hsim]. assert (parts' = parts) as -> by congruence.
  exists res, part. split_and!; [done..|].
  assert (length qs = 25) as ->.
  { assert ((length <$> pools) !! i = Some (count part)) as Hc
      by by rewrite Hlen, list_lookup_fmap, Hpart.
    rewrite <-Hsim, list_lookup_fmap, Hq in Hc. injection Hc as ->.
    eapply lookupConfig_count; [done|]. by eapply list_elem_of_lookup_2. }
  unfold graded. cbn [rr_label rr_total rr_correct rr_percent].
  by rewrite percent_25.
Qed.
End graded.

(** C12. An examination can be taken to its end.  From the settings card,
    when every part of the chosen scheme has a question in the catalogue,
    the candidate who starts, answers each question with an option of
    their choice, resolves it, goes on and continues after each summary
    arrives at the result; every part then has one result per question,
    [true] exactly where the option chosen was the one of slot a. *)
Theorem exam_completes `{ArraySort} (s : State)
    (choice : nat → nat → string) (parts : list ExamPartConfig) :
  reachable s → mode (vars s) = setup →
  lookupConfig (examType (vars s)) = Some parts →
  Forall (λ part, matching (questions (vars s)) part ≠ []) parts →
  (∀ p q, choice p q ∈ ["A"; "B"; "C"; "D"]) →
  ∃ s', run (ClickStart :: answerExam choice (count <$> parts)) s = Some s'
        ∧ mode (vars s') = result
        ∧ results (vars s')
          = imap (λ p part, marks choice p (count part)) parts.
Proof.
  intros Hs%reachable_Inv Hm Hl Hmatch Hchoice.
  destruct (exam_run choice Hchoice s parts Hs Hm Hl Hmatch)
    as (s' & Hrun & Hex & Hfin).
  exists s'. split_and!; [done|apply Hfin|].
  eapply finished_results; [by eapply Inv_run|done..|by apply drawn_lengths].
Qed.

Lemma firstRight_choice (n p q : nat) : firstRight n p q ∈ ["A"; "B"; "C"; "D"].
Proof. unfold firstRight. case_decide; set_solver. Qed.

Lemma exam_completes_witness :
  ∃ s', run (ClickStart :: answerExam (firstRight 20) (count <$> [technikE]))
          demoSetup = Some s'
        ∧ mode (vars s') = result
        ∧ results (vars s')
          = imap (λ p part, marks (firstRight 20) p (count part)) [technikE].
Proof.
  apply (exam_completes demoSetup (firstRight 20) [technikE]).
  - apply demoSetup_reachable.
  - apply demoSetup_mode.
  - apply demoSetup_parts.
  - apply demoSetup_matching.
  - apply firstRight_choice.
Defined.

(** C28. The examination is graded by the answers: after the run of a
    candidate who answers every question, a part counts as passed
    exactly when 19 of its 25 results are right, and the result view
    lists every part of the scheme under its label with the number of
    right results, 25 questions and four times that number as the
    percentage. *)
Theorem exam_graded `{ArraySort} `{Katex} (s : State)
    (choice : nat → nat → string) (parts : list ExamPartConfig) :
  reachable s → mode (vars s) = setup →
  lookupConfig (examType (vars s)) = Some parts →
  Forall (λ part, matching (questions (vars s)) part ≠ []) parts →
  (∀ p q, choice p q ∈ ["A"; "B"; "C"; "D"]) →
  ∃ s' view rows,
    run (ClickStart :: answerExam choice (count <$> parts)) s = Some s'
    ∧ page s' = Some view ∧ resultCard view = Some rows
    ∧ length rows = length parts
    ∧ ∀ i row, rows !! i = Some row →
        ∃ res part,
          results (vars s') !! i = Some res ∧ parts !! i = Some part
          ∧ graded res row part
          ∧ passed res part = bool_decide (19 ≤ correctCount res).
Proof.
  intros Hs Hm Hl Hmatch Hchoice. pose proof (reachable_Inv _ Hs) as Hinv.
  destruct (exam_run choice Hchoice s parts Hinv Hm Hl Hmatch)
    as (s' & Hrun & Hex & Hfin).
  pose proof (drawn_lengths s parts Hmatch) as Hlen.
  pose proof (Inv_run _ _ _ Hinv Hrun) as Hinv'.
  destruct (Inv_page s' Hinv') as [view Hpage].
  destruct (finished_resultCard choice parts (drawn s parts) s' Hinv' Hex Hfin
              Hlen view Hpage) as [rows Hrows].
  exists s', view, rows. split_and!; [done..| |].
  - rewrite (length_resultCard s' view rows Hpage Hrows), (proj2 Hex).
    by rewrite <-(length_fmap length), Hlen, length_fmap.
  - intros i row Hrow.
    destruct (finished_graded choice parts (drawn s parts) s' Hinv' Hex Hfin
                Hlen view rows i row Hpage Hrows Hrow)
      as (res & part & Hres & Hpart & Hg).
    exists res, part. split_and!; [done..|].
    by eapply finished_passed.
Qed.

Lemma exam_graded_witness :
  ∃ s' view rows,
    run (ClickStart :: answerExam (firstRight 20) (count <$> [technikE]))
      demoSetup = Some s'
    ∧ page s' = Some view ∧ resultCard view = Some rows
    ∧ length rows = length [technikE]
    ∧ ∀ i row, rows !! i = Some row →
        ∃ res part,
          results (vars s') !! i = Some res ∧ [technikE] !! i = Some part
          ∧ graded res row part
          ∧ passed res part = bool_decide (19 ≤ correctCount res).
Proof.
  apply (exam_graded demoSetup (firstRight 20) [technikE]).
  - apply demoSetup_reachable.
  - apply demoSetup_mode.
  - apply demoSetup_parts.
  - apply demoSetup_matching.
  - apply firstRight_choice.
Defined.

(** The candidate who knows the first 20 answers of the one part of the
    upgrade exam: 20 of 25, 80 percent, passed. *)
Example firstRight_20 :
  (λ s, (mode (vars s), correctCount <$> results (vars s),
         (λ res, passed res technikE) <$> results (vars s),
         (λ view, (λ row, (rr_correct row, rr_total row, rr_percent row))
                    <$> default [] (resultCard view)) <$> page s))
    <$> run (ClickStart :: answerExam (firstRight 20) [25]) demoSetup
  = Some (result, [20], [true], Some [(20, 25, percent 20 25)]).
Proof. by vm_compute. Qed.
