(* ===== verification/Timer.v ===== *)
(** * Timer: the countdown and what happens when the time is up

    The interval's callback is
    [setTimeLeft((t) => (t > 1 ? t - 1 : (handleNext(), 0)))].  The effect
    that arms it depends on [mode] and [partIndex] only, so the callback
    keeps calling the [handleNext] of the render that started the part.
    That render's [qIndex] is 0: the test [qIndex + 1 < length] of
    [handleNext] succeeds for every part of two questions or more, whatever
    question the user is at.  And since the time left stays at 0, the
    callback takes the same branch again a second later. *)

From stdpp Require Import gmap.
From S2P Require Import Prelude Random Shuffle Question JsString ExamConfig.
From S2P Require Import PartBuilder Scorer State Simulation Lernmodus App.
From S2P Require Import Scenario Invariant Safety Exam.

(** [n] ticks in a row. *)
Definition ticks `{ArraySort} (n : nat) (s : State) : option State :=
  run (replicate n Tick) s.

(** The state after the interval skipped to the next question. *)
Definition skipped (s : State) : State :=
  update (setTimeLeft 0 ∘ setShowSolution false ∘ setSelected None
          ∘ setQIndex (qIndex (vars s) + 1)) s.

(** The state after the interval skipped [n] questions, [n] at least 1. *)
Definition skippedBy (n : nat) (s : State) : State :=
  update (setTimeLeft 0 ∘ setShowSolution false ∘ setSelected None
          ∘ setQIndex (qIndex (vars s) + n)) s.

(** The state after the interval closed a part. *)
Definition closed (s : State) : State :=
  setTimer None (update (setTimeLeft 0 ∘ setMode partSummary) s).

(** The time is up and the question index has left the part: the page
    shows no question. *)
Definition overrun (s : State) : Prop :=
  mode (vars s) = simulation ∧ timeLeft (vars s) = 0 ∧
  ∃ part, simQuestions (vars s) !! partIndex (vars s) = Some part
          ∧ 2 ≤ length part ∧ length part ≤ qIndex (vars s).

Section timer.
Context `{ArraySort}.
Implicit Types (s : State) (r : Vars).

Lemma update_setTimeLeft_id s : update (setTimeLeft (timeLeft (vars s))) s = s.
Proof. by destruct s as [[] ? ? ?]. Qed.

(** One tick while more than a second is left. *)
Lemma dispatch_Tick_countdown s :
  1 < timeLeft (vars s) → is_Some (timer s) →
  dispatch Tick s = Some (update (setTimeLeft (timeLeft (vars s) - 1)) s).
Proof.
  intros Hlt [r Hr]. unfold dispatch. simpl. unfold tick. rewrite Hr. simpl.
  rewrite decide_True by done. simpl. by rewrite runEffect_same.
Qed.

(** One tick when the time is up. *)
Lemma dispatch_Tick_expired s r part :
  Inv s → timer s = Some r → timeLeft (vars s) ≤ 1 →
  simQuestions (vars s) !! partIndex (vars s) = Some part →
  dispatch Tick s
  = Some (if decide (1 < length part) then skipped s else closed s).
Proof.
  intros Hinv Hr Hleft Hpart.
  pose proof (inv_timer _ Hinv) as Ht. unfold timer_ok in Ht.
  rewrite Hr in Ht. destruct Ht as (Hm & Hs & Hp & Hq).
  unfold dispatch. simpl. unfold tick, handleNext.
  rewrite Hr. simpl. rewrite decide_False by lia.
  rewrite Hs, Hp, Hpart, Hq. simpl.
  case_decide; simpl; [by rewrite runEffect_same|].
  unfold runEffect. simpl. rewrite Hm. simpl. done.
Qed.

Lemma ticks_S n s :
  is_Some (timer s) → ticks (S n) s = dispatch Tick s ≫= ticks n.
Proof. intros Ht. unfold ticks. simpl. by rewrite decide_True. Qed.

(** The countdown: [k] ticks take [k] seconds off and change nothing
    else, as long as the time is not up. *)
Lemma ticks_countdown k s :
  k < timeLeft (vars s) → is_Some (timer s) →
  ticks k s = Some (update (setTimeLeft (timeLeft (vars s) - k)) s).
Proof.
  revert s. induction k as [|k IH]; intros s Hk Ht.
  - by rewrite Nat.sub_0_r, update_setTimeLeft_id.
  - rewrite ticks_S, dispatch_Tick_countdown by (done || lia). simpl.
    rewrite IH by (simpl; (done || lia)). simpl.
    by replace (timeLeft (vars s) - 1 - k) with (timeLeft (vars s) - S k)
      by lia.
Qed.

Lemma Inv_skipped s r part :
  Inv s → timer s = Some r → timeLeft (vars s) ≤ 1 →
  simQuestions (vars s) !! partIndex (vars s) = Some part →
  1 < length part → Inv (skipped s).
Proof.
  intros Hinv Hr Hleft Hpart Hlen. apply (Inv_step s Tick); [done|].
  split; [simpl; by rewrite Hr|].
  by rewrite (dispatch_Tick_expired s r part), decide_True.
Qed.

(** After the time is up every tick skips one more question. *)
Lemma ticks_skippedBy n s r part :
  Inv s → timer s = Some r → timeLeft (vars s) ≤ 1 →
  simQuestions (vars s) !! partIndex (vars s) = Some part →
  1 < length part →
  ticks (S n) s = Some (skippedBy (S n) s).
Proof.
  revert s. induction n as [|n IH]; intros s Hinv Hr Hleft Hpart Hlen.
  - rewrite ticks_S by by rewrite Hr.
    by rewrite (dispatch_Tick_expired s r part), decide_True.
  - rewrite ticks_S by by rewrite Hr.
    rewrite (dispatch_Tick_expired s r part), decide_True by done. simpl.
    rewrite (IH (skipped s));
      [|by eapply Inv_skipped|done|simpl; lia|done|done].
    unfold skippedBy. simpl.
    by replace (qIndex (vars s) + 1 + S n) with (qIndex (vars s) + S (S n))
      by lia.
Qed.

Lemma ticks_add a b s : ticks (a + b) s = ticks a s ≫= ticks b.
Proof. unfold ticks. by rewrite replicate_add, run_app. Qed.

Lemma ticks_reachable n s (s' : State) :
  reachable s → ticks n s = Some s' → reachable s'.
Proof. apply run_reachable. Qed.

Lemma overrun_no_question s : overrun s → current (vars s) = None.
Proof.
  intros (Hm & _ & part & Hp & _ & Hq). unfold current, currentPart.
  rewrite decide_True, Hp by done. simpl. by apply lookup_ge_None_2.
Qed.

Lemma skippedBy_setTimeLeft n t s :
  skippedBy n (update (setTimeLeft t) s) = skippedBy n s.
Proof. done. Qed.

Lemma overrun_skippedBy n s part :
  mode (vars s) = simulation →
  simQuestions (vars s) !! partIndex (vars s) = Some part →
  1 < length part → length part ≤ qIndex (vars s) + n →
  overrun (skippedBy n s).
Proof. intros. split_and!; [done..|]. exists part. by split_and!. Qed.

(** From the last second on every tick skips a question. *)
Lemma ticks_overrun n s r part :
  reachable s → timer s = Some r → 0 < timeLeft (vars s) →
  simQuestions (vars s) !! partIndex (vars s) = Some part →
  1 < length part →
  ticks (timeLeft (vars s) + n) s = Some (skippedBy (S n) s).
Proof.
  intros Hs Hr Hleft Hpart Hlen.
  replace (timeLeft (vars s) + n) with ((timeLeft (vars s) - 1) + S n) by lia.
  pose proof (ticks_countdown (timeLeft (vars s) - 1) s) as Hk.
  rewrite ticks_add, Hk by (rewrite ?Hr; (done || lia)). simpl.
  rewrite <-(skippedBy_setTimeLeft _ (timeLeft (vars s)
                                      - (timeLeft (vars s) - 1))).
  apply (ticks_skippedBy _ _ r part); [|done|simpl; lia|done..].
  apply reachable_Inv. eapply ticks_reachable; [done|]. apply Hk;
    rewrite ?Hr; (done || lia).
Qed.

(** In an overrun state the page offers no way on: an event either keeps
    the state overrun or is one of the two buttons that leave the exam. *)
Lemma overrun_step s e (s' : State) :
  Inv s → overrun s → step s e s' →
  overrun s' ∨ e = ClickLernmodus ∨ e = ClickPruefungssimulation.
Proof.
  intros Hinv Hover [Hen Hd].
  pose proof (enabled_mode e s (inv_timer _ Hinv) Hen) as Hm.
  pose proof (overrun_no_question s Hover) as Hcur.
  pose proof Hover as (Hsim & Hleft & part & Hpart & Hlen & Hq).
  rewrite Hsim in Hm.
  destruct e; try done; try (by right; auto); left.
  - (* Fetched *)
    unfold dispatch in Hd. simpl in Hd. unfold onFetched in Hd.
    destruct (loadQuestions _ _). simpl in Hd.
    rewrite runEffect_same in Hd by done. by simplify_eq.
  - apply enabled_ClickAnswer in Hen as (? & ? & _). congruence.
  - apply enabled_ClickAufloesen in Hen as [[? ?] _]. congruence.
  - apply enabled_ClickWeiter in Hen as [[? ?] _]. congruence.
  - (* Tick *)
    destruct Hen as [r Hr].
    rewrite (dispatch_Tick_expired s r part), decide_True in Hd
      by (done || lia).
    simplify_eq. apply (overrun_skippedBy 1 s part); (done || lia).
Qed.
End timer.

(** While more than [k] seconds are left, [k] ticks take [k] seconds
    off the clock and change nothing else. *)
Theorem timer_counts_down `{ArraySort} (k : nat) (s : State) :
  k < timeLeft (vars s) → is_Some (timer s) →
  ticks k s = Some (update (setTimeLeft (timeLeft (vars s) - k)) s).
Proof. apply ticks_countdown. Qed.

Lemma timer_counts_down_witness :
  ticks 60 demoStarted
  = Some (update (setTimeLeft (timeLeft (vars demoStarted) - 60)) demoStarted).
Proof.
  apply (timer_counts_down 60 demoStarted).
  - rewrite demoStarted_timeLeft. lia.
  - by rewrite demoStarted_timer.
Defined.

(** The ticks of a part's whole time. *)
Lemma ticks_expiry `{ArraySort} (s : State) (r : Vars)
    (part : list ExamQuestion) :
  reachable s → timer s = Some r → 0 < timeLeft (vars s) →
  simQuestions (vars s) !! partIndex (vars s) = Some part →
  ticks (timeLeft (vars s)) s
  = Some (if decide (1 < length part) then skipped s else closed s).
Proof.
  intros Hs Hr Hleft Hpart.
  replace (timeLeft (vars s)) with ((timeLeft (vars s) - 1) + 1) at 1 by lia.
  assert (ticks (timeLeft (vars s) - 1) s
          = Some (update (setTimeLeft 1) s)) as Hk.
  { rewrite ticks_countdown by (rewrite ?Hr; (done || lia)).
    do 3 f_equal. lia. }
  rewrite ticks_add, Hk. simpl.
  rewrite ticks_S by (simpl; by rewrite Hr).
  rewrite (dispatch_Tick_expired _ r part); [by case_decide|..|done|done|done].
  apply reachable_Inv. by eapply ticks_reachable.
Qed.

(** C23. When the time of a part is up, the interval calls the
    [handleNext] of the part's first render: in a part of two questions or
    more the state moves to the next question index, whatever question was
    shown, discards the selection and records no result; only a part of a
    single question is closed. *)
Theorem timer_expiry `{ArraySort} (s : State) (r : Vars)
    (part : list ExamQuestion) :
  reachable s → timer s = Some r → 0 < timeLeft (vars s) →
  simQuestions (vars s) !! partIndex (vars s) = Some part →
  ticks (timeLeft (vars s)) s
  = Some (if decide (1 < length part) then skipped s else closed s).
Proof. apply ticks_expiry. Qed.

(** C24. The interval does not stop when the time is up.  In a part of two
    questions or more, [n] seconds after the time ran out the interval has
    skipped [n + 1] questions, answered or not, and the part is still
    open. *)
Theorem timer_overruns `{ArraySort} (n : nat) (s : State) (r : Vars)
    (part : list ExamQuestion) :
  reachable s → timer s = Some r → 0 < timeLeft (vars s) →
  simQuestions (vars s) !! partIndex (vars s) = Some part →
  1 < length part →
  ticks (timeLeft (vars s) + n) s = Some (skippedBy (S n) s)
  ∧ (length part ≤ qIndex (vars s) + S n → overrun (skippedBy (S n) s)).
Proof.
  intros Hs Hr Hleft Hpart Hlen. split; [by eapply ticks_overrun|].
  apply overrun_skippedBy; [|done..].
  pose proof (inv_timer _ (reachable_Inv _ Hs)) as Ht.
  unfold timer_ok in Ht. rewrite Hr in Ht. by destruct Ht.
Qed.

(** C26. An overrun exam cannot be finished: whatever the user and the
    interval do from an overrun state, short of leaving the exam with one
    of the two buttons above the card, the state stays overrun, so no part
    summary and no result is ever shown. *)
Theorem overrun_stuck `{ArraySort} (es : list Event) (s s' : State) :
  reachable s → overrun s →
  ClickLernmodus ∉ es → ClickPruefungssimulation ∉ es →
  run es s = Some s' → overrun s' ∧ current (vars s') = None.
Proof.
  intros Hs%reachable_Inv Hover Hl Hp Hrun.
  cut (Inv s' ∧ overrun s'); [intros [_ ?]; eauto using overrun_no_question|].
  revert s Hs Hover Hl Hp Hrun.
  induction es as [|e es IH]; intros s Hs Hover Hl Hp; simpl.
  { by intros [= <-]. }
  apply not_elem_of_cons in Hl as [? ?], Hp as [? ?].
  case_decide as Hen; [|done].
  destruct (dispatch e s) as [s1|] eqn:Hd; [simpl|done].
  destruct (overrun_step s e s1) as [?|[?|?]]; [done..| |done|done].
  apply IH; [by apply (Inv_step s e)|done..].
Qed.

Lemma timer_expiry_witness :
  ticks (timeLeft (vars demoStarted)) demoStarted
  = Some (if decide (1 < length demoPart)
          then skipped demoStarted else closed demoStarted).
Proof.
  apply (timer_expiry demoStarted (vars demoStarted) demoPart).
  - apply demoStarted_reachable.
  - apply demoStarted_timer.
  - rewrite demoStarted_timeLeft. lia.
  - apply demoStarted_demoPart.
Defined.

Lemma timer_overruns_witness :
  ticks (timeLeft (vars demoStarted) + 24) demoStarted
  = Some (skippedBy 25 demoStarted)
  ∧ (length demoPart ≤ qIndex (vars demoStarted) + 25
     → overrun (skippedBy 25 demoStarted)).
Proof.
  apply (timer_overruns 24 demoStarted (vars demoStarted) demoPart).
  - apply demoStarted_reachable.
  - apply demoStarted_timer.
  - rewrite demoStarted_timeLeft. lia.
  - apply demoStarted_demoPart.
  - rewrite length_demoPart. lia.
Defined.

(** The exam of the scenario 24 seconds after its time ran out. *)
Lemma demoOverrun :
  reachable (skippedBy 25 demoStarted) ∧ overrun (skippedBy 25 demoStarted).
Proof.
  split.
  - apply (ticks_reachable (timeLeft (vars demoStarted) + 24) demoStarted);
      [apply demoStarted_reachable|].
    apply (ticks_overrun 24 _ (vars demoStarted) demoPart).
    + apply demoStarted_reachable.
    + apply demoStarted_timer.
    + rewrite demoStarted_timeLeft. lia.
    + apply demoStarted_demoPart.
    + rewrite length_demoPart. lia.
  - apply (overrun_skippedBy _ _ demoPart).
    + apply demoStarted_mode.
    + apply demoStarted_demoPart.
    + rewrite length_demoPart. lia.
    + rewrite length_demoPart. lia.
Qed.

Lemma demoOverrun_run :
  run [Tick; Tick] (skippedBy 25 demoStarted)
  = Some (skippedBy 27 demoStarted).
Proof. by vm_compute. Qed.

Lemma overrun_stuck_witness :
  overrun (skippedBy 27 demoStarted)
  ∧ current (vars (skippedBy 27 demoStarted)) = None.
Proof.
  apply (overrun_stuck [Tick; Tick] (skippedBy 25 demoStarted)).
  - apply demoOverrun.
  - apply demoOverrun.
  - rewrite !not_elem_of_cons. split_and!; [done..|apply not_elem_of_nil].
  - rewrite !not_elem_of_cons. split_and!; [done..|apply not_elem_of_nil].
  - apply demoOverrun_run.
Defined.

(** C27. A part without questions can only be waited out: the page shows
    no question and offers nothing but the two mode buttons, and the part
    summary appears when the part's whole time has run. *)
Theorem empty_part_waits `{ArraySort} (s : State) (e : Event) :
  reachable s → mode (vars s) = simulation →
  simQuestions (vars s) !! partIndex (vars s) = Some [] →
  0 < timeLeft (vars s) →
  (enabled s e →
   e = Tick ∨ e = ClickLernmodus ∨ e = ClickPruefungssimulation
   ∨ ∃ sections, e = Fetched sections)
  ∧ ticks (timeLeft (vars s)) s = Some (closed s).
Proof.
  intros Hs Hm Hpart Hleft. pose proof (reachable_Inv _ Hs) as Hinv. split.
  - intros Hen.
    pose proof (enabled_mode e s (inv_timer _ Hinv) Hen) as He.
    rewrite Hm in He. destruct e; try done; eauto.
    + apply enabled_ClickAnswer in Hen as (eq & (_ & ? & ? & ?)%current_Some & _).
      by simplify_eq.
    + apply enabled_ClickAufloesen in Hen as [[eq (_ & ? & ? & ?)%current_Some] _].
      by simplify_eq.
    + apply enabled_ClickWeiter in Hen as [[eq (_ & ? & ? & ?)%current_Some] _].
      by simplify_eq.
  - destruct (Inv_timer_Some s Hinv Hm) as [r Hr].
    by rewrite (ticks_expiry s r []).
Qed.

Lemma empty_part_waits_witness :
  (enabled demoEmpty ClickWeiter →
   ClickWeiter = Tick ∨ ClickWeiter = ClickLernmodus
   ∨ ClickWeiter = ClickPruefungssimulation
   ∨ ∃ sections, ClickWeiter = Fetched sections)
  ∧ ticks (timeLeft (vars demoEmpty)) demoEmpty = Some (closed demoEmpty).
Proof.
  apply (empty_part_waits demoEmpty ClickWeiter).
  - apply demoEmpty_reachable.
  - apply demoEmpty_mode.
  - apply demoEmpty_part.
  - rewrite demoEmpty_timeLeft. lia.
Defined.
