(* ===== verification/Spec.v ===== *)
(** * Spec: the examination as the specification describes it

    The simulation state machine of the specification: the phases [Idle],
    [Setup], [Simulating], [PartSummary] and [Result], the exam parts and
    their results, the selection and whether the answer is revealed, and
    the countdown, which is armed on entry to a part and cleared when the
    part is left or the time is up.  Nothing here is translated from the
    program; [Refinement] relates the program to it. *)

From stdpp Require Import gmap.
From S2P Require Import Prelude Random Shuffle Question JsString ExamConfig.
From S2P Require Import PartBuilder.

Inductive Phase :=
  | Idle
  | Setup
  | Simulating (p q : nat)
  | PartSummary (p : nat)
  | Result.

#[export] Instance Phase_eq_dec : EqDecision Phase.
Proof. solve_decision. Defined.

Record Exam := {
  phase : Phase;
  chosen : string;
  examParts : list (list ExamQuestion);
  partResults : list (list bool);
  selection : option string;
  revealed : bool;
  clock : option nat;
}.

(** What can happen to an examination. *)
Inductive Action :=
  | Choose (examType : string)
  | Start (pools : list (list ExamQuestion))
  | Select (optId : string)
  | Resolve
  | Next
  | Continue
  | Second
  | Expire
  | ToSetup
  | ToIdle
  | Stutter.

(** The canonically correct answer is the one of slot a. *)
Definition correct (optId : string) : bool := bool_decide (optId = "A").

(** An examination outside a simulation: no parts, no results. *)
Definition outside (ph : Phase) (examType : string) : Exam :=
  {| phase := ph; chosen := examType; examParts := []; partResults := [];
     selection := None; revealed := false; clock := None |}.

(** The question [q] of part [p], unanswered. *)
Definition atQuestion (x : Exam) (p q : nat) (time : option nat) : Exam :=
  {| phase := Simulating p q; chosen := chosen x; examParts := examParts x;
     partResults := partResults x; selection := None; revealed := false;
     clock := time |}.

(** The summary of part [p]: the timer is cleared. *)
Definition atSummary (x : Exam) (p : nat) : Exam :=
  {| phase := PartSummary p; chosen := chosen x; examParts := examParts x;
     partResults := partResults x; selection := None; revealed := false;
     clock := None |}.

(** Resolve: with a selection on an unresolved question the verdict is
    appended to the results of part [p] and the answer revealed;
    otherwise nothing happens. *)
Definition resolve (x : Exam) (p : nat) : Exam :=
  match selection x with
  | Some optId =>
      if revealed x then x
      else {| phase := phase x; chosen := chosen x; examParts := examParts x;
              partResults :=
                alter (λ res, res ++ [correct optId]) p (partResults x);
              selection := selection x; revealed := true;
              clock := clock x |}
  | None => x
  end.

(** Next: the next question of the part, or its summary after the last
    one. *)
Definition next (x : Exam) (p q : nat) (time : option nat) : Exam :=
  if decide (q + 1 < length (default [] (examParts x !! p)))
  then atQuestion x p (q + 1) time
  else atSummary x p.

(** One step of the specification; [None] when the action is not possible
    in the phase. *)
Definition specStep (a : Action) (x : Exam) : option Exam :=
  match a, phase x with
  | Stutter, _ => Some x
  | ToSetup, _ => Some (outside Setup (chosen x))
  | ToIdle, _ => Some (outside Idle (chosen x))
  | Choose examType, Setup =>
      if decide (examType ∈ examTypes) then Some (outside Setup examType)
      else None
  | Start pools, Setup =>
      parts ← lookupConfig (chosen x);
      first ← parts !! 0;
      if decide (Forall2 (λ part pool, pool = [] ∨ length pool = count part)
                   parts pools)
      then Some {| phase := Simulating 0 0; chosen := chosen x;
                   examParts := pools;
                   partResults := replicate (length pools) [];
                   selection := None; revealed := false;
                   clock := Some (durationMin first * 60) |}
      else None
  | Select optId, Simulating p q =>
      if revealed x then Some x
      else Some {| phase := phase x; chosen := chosen x;
                   examParts := examParts x; partResults := partResults x;
                   selection := Some optId; revealed := false;
                   clock := clock x |}
  | Resolve, Simulating p q => Some (resolve x p)
  | Next, Simulating p q => Some (next x p q (clock x))
  | Continue, PartSummary p =>
      parts ← lookupConfig (chosen x);
      match parts !! (p + 1) with
      | Some part => Some (atQuestion x (p + 1) 0
                             (Some (durationMin part * 60)))
      | None => Some {| phase := Result; chosen := chosen x;
                        examParts := examParts x;
                        partResults := partResults x; selection := None;
                        revealed := false; clock := None |}
      end
  | Second, Simulating p q =>
      t ← clock x;
      if decide (1 < t)
      then Some {| phase := phase x; chosen := chosen x;
                   examParts := examParts x; partResults := partResults x;
                   selection := selection x; revealed := revealed x;
                   clock := Some (t - 1) |}
      else None
  | Expire, Simulating p q =>
      t ← clock x;
      if decide (1 < t) then None else Some (next (resolve x p) p q None)
  | _, _ => None
  end.
