(* ===== verification/Refinement.v ===== *)
(** * Refinement: the program against the specification

    The abstraction of a state of the component to an examination of the
    specification, and the action each event stands for.  Every step of
    the program from a reachable state is the step of the specification
    for that action, with one exception: the tick of the interval when
    the time is up. *)

From stdpp Require Import gmap.
From S2P Require Import Prelude Random Shuffle Question JsString ExamConfig.
From S2P Require Import PartBuilder Scorer State Simulation Lernmodus App.
From S2P Require Import Scenario Invariant Safety Exam Completion Timer Spec.

(** The countdown the candidate is under: the time left while the
    interval is armed. *)
Definition countdown (s : State) : option nat :=
  timer s ≫= λ _, Some (timeLeft (vars s)).

(** The examination a state stands for.  Outside a simulation the pools
    and results the variables still hold are not part of it. *)
Definition abstraction (s : State) : Exam :=
  let v := vars s in
  let inExam (ph : Phase) (sel : option string) (rev : bool) :=
    {| phase := ph; chosen := examType v; examParts := simQuestions v;
       partResults := results v; selection := sel; revealed := rev;
       clock := countdown s |} in
  match mode v with
  | lernmodus => outside Idle (examType v)
  | setup => outside Setup (examType v)
  | simulation =>
      inExam (Simulating (partIndex v) (qIndex v)) (selected v)
        (showSolution v)
  | partSummary => inExam (PartSummary (partIndex v)) None false
  | result => inExam Result None false
  end.

(** The pools a start in state [s] draws. *)
Definition pools `{ArraySort} (s : State) : list (list ExamQuestion) :=
  drawn s (default [] (lookupConfig (examType (vars s)))).

(** The action an event stands for. *)
Definition action `{ArraySort} (s : State) (e : Event) : Action :=
  match e with
  | ClickLernmodus => ToIdle
  | ClickPruefungssimulation => ToSetup
  | ChangeExamType value => Choose value
  | ClickStart => Start (pools s)
  | ClickAnswer optId => Select optId
  | ClickAufloesen => Resolve
  | ClickWeiter => Next
  | ClickContinue => Continue
  | Tick => if decide (1 < timeLeft (vars s)) then Second else Expire
  | Fetched _ | ChangeCategory _ | ChangeClass _ | ClickLernAnswer _
  | ClickNextQuestion => Stutter
  end.

Section refinement.
Context `{ArraySort}.
Implicit Types (s : State) (e : Event).

Lemma abstraction_outside s (ph : Phase) (t : string) :
  (mode (vars s) = lernmodus ∧ ph = Idle) ∨ (mode (vars s) = setup ∧ ph = Setup) →
  examType (vars s) = t →
  abstraction s = outside ph t.
Proof. unfold abstraction. by intros [[-> ->]|[-> ->]] <-. Qed.

Lemma chosen_abstraction s : chosen (abstraction s) = examType (vars s).
Proof. unfold abstraction. by destruct (mode (vars s)). Qed.

Lemma countdown_Some s :
  Inv s → mode (vars s) = simulation →
  countdown s = Some (timeLeft (vars s)).
Proof.
  intros Hinv Hm. unfold countdown.
  by destruct (Inv_timer_Some s Hinv Hm) as [r ->].
Qed.

Lemma countdown_None s :
  Inv s → mode (vars s) ≠ simulation → countdown s = None.
Proof. intros Hinv Hm. unfold countdown. by rewrite Inv_timer_None. Qed.

Lemma fmap_const_nil {A B} (l : list A) :
  (λ _, @nil B) <$> l = replicate (length l) [].
Proof. induction l as [|x l IH]; [done|]. csimpl. by rewrite IH. Qed.

(** The pools a start draws have the sizes the specification allows. *)
Lemma pools_sizes s parts :
  Inv s → lookupConfig (examType (vars s)) = Some parts →
  Forall2 (λ part pool, pool = [] ∨ length pool = count part) parts (pools s).
Proof.
  intros Hinv Hl. unfold pools, drawn. rewrite Hl. simpl.
  eapply Forall2_impl; [apply buildPools_pool_of, Hinv|]. by intros ?? [? _].
Qed.

Lemma refines_start s s' :
  Inv s → step s ClickStart s' →
  specStep (Start (pools s)) (abstraction s) = Some (abstraction s').
Proof.
  intros Hinv [Hm%enabled_ClickStart Hd].
  destruct (proj2 (lookupConfig_is_Some _) (inv_examType _ Hinv))
    as [parts Hl].
  destruct (lookupConfig_first _ _ Hl) as [first Hf].
  rewrite (dispatch_ClickStart s parts first) in Hd by done.
  injection Hd as <-. pose proof (pools_sizes s parts Hinv Hl) as Hsizes.
  rewrite (abstraction_outside s Setup _ ltac:(auto) eq_refl).
  unfold specStep. simpl.
  rewrite Hl. simpl. rewrite Hf. simpl. rewrite decide_True by done.
  revert Hsizes. unfold pools, drawn, started, abstraction. rewrite Hl. simpl.
  destruct (buildPools _ _ _) as [ps g]. simpl. intros _.
  by rewrite fmap_const_nil.
Qed.

(** The two buttons that leave the examination. *)
Lemma refines_leave s e s' :
  step s e s' → e = ClickLernmodus ∨ e = ClickPruefungssimulation →
  specStep (action s e) (abstraction s) = Some (abstraction s').
Proof.
  intros [_ (s1 & Hh & ->)%dispatch_Some] [-> | ->]; injection Hh as <-;
    unfold specStep; simpl; rewrite chosen_abstraction;
    destruct (phase (abstraction s)); f_equal; symmetry;
    apply abstraction_outside; autorewrite with afu_rw; simpl; auto.
Qed.

Lemma refines_choose s value s' :
  step s (ChangeExamType value) s' →
  specStep (Choose value) (abstraction s) = Some (abstraction s').
Proof.
  intros [[Hm Hv]%enabled_ChangeExamType (s1 & Hh & ->)%dispatch_Some].
  injection Hh as <-. rewrite (abstraction_outside s Setup _ ltac:(auto) eq_refl).
  unfold specStep. simpl. rewrite decide_True by done. f_equal. symmetry.
  apply abstraction_outside; autorewrite with afu_rw; simpl; auto.
Qed.

(** What the examination consists of does not change. *)
Lemma abstraction_frame s s' :
  mode (vars s') = mode (vars s) → examType (vars s') = examType (vars s) →
  simQuestions (vars s') = simQuestions (vars s) →
  results (vars s') = results (vars s) →
  partIndex (vars s') = partIndex (vars s) →
  qIndex (vars s') = qIndex (vars s) →
  selected (vars s') = selected (vars s) →
  showSolution (vars s') = showSolution (vars s) →
  countdown s' = countdown s →
  abstraction s' = abstraction s.
Proof. unfold abstraction. by intros -> -> -> -> -> -> -> -> ->. Qed.

(** The arrival of the catalogue and the events of the practice card. *)
Lemma refines_stutter s e s' :
  step s e s' → action s e = Stutter →
  specStep Stutter (abstraction s) = Some (abstraction s').
Proof.
  intros [_ (s1 & Hh & ->)%dispatch_Some] Ha. unfold specStep. f_equal.
  symmetry.
  destruct e; try done; simpl in Hh;
    unfold onFetched, changeCategory, changeClass, clickLernAnswer,
      handleAnswerCheck, clickNextQuestion in Hh;
    repeat case_match; simplify_option_eq;
    rewrite runEffect_same by done; by apply abstraction_frame.
Qed.

(** The abstraction of a state in a simulation. *)
Lemma abstraction_simulation s :
  Inv s → mode (vars s) = simulation →
  abstraction s
  = {| phase := Simulating (partIndex (vars s)) (qIndex (vars s));
       chosen := examType (vars s); examParts := simQuestions (vars s);
       partResults := results (vars s); selection := selected (vars s);
       revealed := showSolution (vars s);
       clock := Some (timeLeft (vars s)) |}.
Proof.
  intros Hinv Hm. unfold abstraction. by rewrite Hm, countdown_Some.
Qed.

Lemma refines_select s optId s' :
  Inv s → step s (ClickAnswer optId) s' →
  specStep (Select optId) (abstraction s) = Some (abstraction s').
Proof.
  intros Hinv Hstep. pose proof (Inv_step _ _ _ Hinv Hstep) as Hinv'.
  destruct Hstep as [Hen (s1 & Hh & ->)%dispatch_Some].
  apply enabled_ClickAnswer in Hen
    as (eq & (Hm & _)%current_Some & Hshow & _).
  injection Hh as <-. rewrite runEffect_same in * by done.
  rewrite !abstraction_simulation by done.
  unfold specStep. simpl. by rewrite Hshow.
Qed.

Lemma refines_resolve s s' :
  Inv s → step s ClickAufloesen s' →
  specStep Resolve (abstraction s) = Some (abstraction s').
Proof.
  intros Hinv Hstep. pose proof (Inv_step _ _ _ Hinv Hstep) as Hinv'.
  destruct Hstep as [Hen Hd]. pose proof Hen
    as (Hcur & Hshow & (optId & Hsel & Hne)%falsy_false)%enabled_ClickAufloesen.
  rewrite (dispatch_ClickAufloesen s optId) in Hd by done.
  injection Hd as <-. destruct Hcur as [eq (Hm & _)%current_Some].
  rewrite !abstraction_simulation by done.
  unfold specStep, resolve. simpl. by rewrite Hsel, Hshow.
Qed.

Lemma refines_next s s' :
  Inv s → step s ClickWeiter s' →
  specStep Next (abstraction s) = Some (abstraction s').
Proof.
  intros Hinv Hstep. pose proof (Inv_step _ _ _ Hinv Hstep) as Hinv'.
  destruct Hstep as [Hen Hd]. pose proof Hen
    as ([eq (Hm & part & Hp & _)%current_Some] & _)%enabled_ClickWeiter.
  rewrite (dispatch_ClickWeiter s part) in Hd by done. injection Hd as <-.
  rewrite (abstraction_simulation s) by done.
  unfold specStep, next, advanced in *. simpl. rewrite Hp. simpl.
  case_decide; [by rewrite abstraction_simulation|].
  unfold abstraction, atSummary. simpl. done.
Qed.

Lemma refines_continue s s' :
  Inv s → step s ClickContinue s' →
  specStep Continue (abstraction s) = Some (abstraction s').
Proof.
  intros Hinv Hstep. pose proof (Inv_step _ _ _ Hinv Hstep) as Hinv'.
  destruct Hstep as [Hm%enabled_ClickContinue Hd].
  destruct (Inv_parts s Hinv) as (parts & Hl & _); [by right; left|].
  rewrite (dispatch_ClickContinue s parts) in Hd by done. injection Hd as <-.
  unfold abstraction at 1. rewrite Hm. unfold specStep. simpl.
  rewrite Hl. simpl. unfold continued in *.
  destruct (parts !! (partIndex (vars s) + 1)) as [part|].
  - by rewrite abstraction_simulation.
  - unfold abstraction. simpl. by rewrite !countdown_None by (done || congruence).
Qed.

Lemma refines_second s s' :
  Inv s → step s Tick s' → 1 < timeLeft (vars s) →
  specStep Second (abstraction s) = Some (abstraction s').
Proof.
  intros Hinv Hstep Hlt. pose proof (Inv_step _ _ _ Hinv Hstep) as Hinv'.
  destruct Hstep as [Hen Hd]. pose proof (enabled_mode _ _ (inv_timer _ Hinv) Hen) as Hm.
  rewrite dispatch_Tick_countdown in Hd by done. injection Hd as <-.
  rewrite !abstraction_simulation by done.
  unfold specStep. simpl. by rewrite decide_True.
Qed.
End refinement.

(** The tick of the interval is a countdown step. *)
Definition counting (s : State) (e : Event) : Prop :=
  e = Tick → 1 < timeLeft (vars s).

(** C8. The program refines the specification: every step from a
    reachable state, except the tick of the interval when the time is
    up, is the step of the specification's state machine for the action
    the event stands for, between the examinations the two states stand
    for. *)
Theorem refinement `{ArraySort} (s : State) (e : Event) (s' : State) :
  reachable s → step s e s' → counting s e →
  specStep (action s e) (abstraction s) = Some (abstraction s').
Proof.
  intros Hinv%reachable_Inv Hstep Hc. destruct e; simpl.
  - by eapply refines_stutter.
  - eapply (refines_leave _ ClickLernmodus); eauto.
  - eapply (refines_leave _ ClickPruefungssimulation); eauto.
  - by apply refines_choose.
  - by apply refines_start.
  - by apply refines_select.
  - by apply refines_resolve.
  - by apply refines_next.
  - by apply refines_continue.
  - rewrite decide_True by by apply Hc. apply refines_second; auto.
  - by eapply refines_stutter.
  - by eapply refines_stutter.
  - by eapply refines_stutter.
  - by eapply refines_stutter.
Qed.

Lemma refinement_witness :
  specStep (action demoResolved ClickWeiter) (abstraction demoResolved)
  = Some (abstraction (advanced demoPart demoResolved)).
Proof.
  apply (refinement demoResolved ClickWeiter).
  - apply demoResolved_reachable.
  - split; [apply demoResolved_enabled|].
    apply dispatch_ClickWeiter;
      [apply reachable_Inv, demoResolved_reachable|by vm_compute..].
  - by intros [=].
Defined.

Section expiry.
Context `{ArraySort}.

Lemma clock_next (x : Exam) (p q : nat) : clock (next x p q None) = None.
Proof. unfold next. by case_decide. Qed.

(** What the specification does when the time is up: the clock is
    cleared. *)
Lemma specStep_Expire_clock (x x' : Exam) :
  specStep Expire x = Some x' → clock x' = None.
Proof.
  unfold specStep. destruct (phase x); try done.
  destruct (clock x) as [t|]; [simpl|done]. case_decide; [done|].
  intros [= <-]. apply clock_next.
Qed.
End expiry.

(** C25. The tick of the interval when the time is up is not a step of the
    specification in a part of two questions or more: the specification
    clears the timer after the forced advance, the program leaves the
    interval armed with the clock at zero. *)
Theorem expiry_diverges `{ArraySort} (s : State) (r : Vars)
    (part : list ExamQuestion) (s' : State) :
  reachable s → timer s = Some r → timeLeft (vars s) ≤ 1 →
  simQuestions (vars s) !! partIndex (vars s) = Some part →
  1 < length part → step s Tick s' →
  action s Tick = Expire
  ∧ specStep Expire (abstraction s) ≠ Some (abstraction s').
Proof.
  intros Hinv%reachable_Inv Hr Hleft Hpart Hlen Hstep.
  pose proof (Inv_step _ _ _ Hinv Hstep) as Hinv'.
  destruct Hstep as [_ Hd]. simpl. rewrite decide_False by lia.
  split; [done|]. intros Hclock%specStep_Expire_clock.
  rewrite (dispatch_Tick_expired s r part), decide_True in Hd by done.
  injection Hd as <-.
  assert (mode (vars (skipped s)) = simulation) as Hm.
  { pose proof (inv_timer _ Hinv) as Ht. unfold timer_ok in Ht.
    rewrite Hr in Ht. by destruct Ht. }
  by rewrite abstraction_simulation in Hclock.
Qed.

(** The exam of the scenario in its last second. *)
Definition demoExpiring : State := update (setTimeLeft 1) demoStarted.

Example demoExpiring_timeLeft : timeLeft (vars demoExpiring) = 1.
Proof. by vm_compute. Qed.

Example demoExpiring_timer : timer demoExpiring = Some (vars demoStarted).
Proof. by vm_compute. Qed.

Example demoExpiring_demoPart :
  simQuestions (vars demoExpiring) !! partIndex (vars demoExpiring)
  = Some demoPart.
Proof. by vm_compute. Qed.

Lemma demoExpiring_countdown :
  ticks 2699 demoStarted = Some demoExpiring.
Proof.
  rewrite ticks_countdown.
  - rewrite demoStarted_timeLeft. reflexivity.
  - rewrite demoStarted_timeLeft. lia.
  - rewrite demoStarted_timer. by eexists.
Qed.

Lemma demoExpiring_reachable : reachable demoExpiring.
Proof.
  apply (ticks_reachable 2699 demoStarted).
  - apply demoStarted_reachable.
  - apply demoExpiring_countdown.
Qed.

Lemma demoExpiring_step : step demoExpiring Tick (skipped demoExpiring).
Proof.
  split.
  - unfold enabled. rewrite demoExpiring_timer. by eexists.
  - rewrite (dispatch_Tick_expired _ (vars demoStarted) demoPart).
    + rewrite decide_True; [reflexivity|]. rewrite length_demoPart. lia.
    + apply reachable_Inv, demoExpiring_reachable.
    + apply demoExpiring_timer.
    + rewrite demoExpiring_timeLeft. lia.
    + apply demoExpiring_demoPart.
Qed.

Lemma expiry_diverges_witness :
  action demoExpiring Tick = Expire
  ∧ specStep Expire (abstraction demoExpiring)
    ≠ Some (abstraction (skipped demoExpiring)).
Proof.
  apply (expiry_diverges demoExpiring (vars demoStarted) demoPart).
  - apply demoExpiring_reachable.
  - apply demoExpiring_timer.
  - rewrite demoExpiring_timeLeft. lia.
  - apply demoExpiring_demoPart.
  - rewrite length_demoPart. lia.
  - apply demoExpiring_step.
Defined.
